(** * MoveMate: the box store and its activity log

    A shallow embedding of [server/storage.ts] (the two implementations of
    [IStorage]: [MemStorage] and [DatabaseStorage]) over the entity types of
    the shared schema, and the properties of the box life cycle, the
    position/status coupling and the derived activity log.

    Conventions of the embedding.
    - JavaScript numbers that hold ids, counters and box numbers are [Z];
      a [Date] is its [getTime()] value, a [Z] of milliseconds.
    - Every [new Date()] of the source is an explicit argument of the
      operation that evaluates it ([now] for the one in the operation's own
      body, [tAct] for the one inside the [createActivity] it calls): the
      clock is an input, and two readings may coincide.
    - [undefined]/[null] results are [None].
    - A [Map] is an association list in insertion order ([JsMap]).
    - The PostgreSQL side is a record of tables with their [serial]
      sequences, primary keys and the foreign keys that the schema declares
      ([Pg]); a statement either returns rows or raises, and what it changed
      before raising stays changed (no transaction is opened by the source).
      A number sent for an [integer] column has to fit its 32 bits, or the
      statement is refused.  [ORDER BY] fixes the order of rows only up to
      equal keys and a select without it fixes none, so the ordered
      listings and the lookup by box number are relations;
      [query.limit(n)] sets the limit of the query object it is called on.
    - Strings are sequences of 8-bit characters, compared as such;
      lower-casing is modelled on ASCII strings ([Js.is_ascii]).  Counters
      stay in the range where a JavaScript number is an exact integer. *)

From Stdlib Require Import ZArith String Ascii List Bool Lia.
From Stdlib Require Import Permutation Sorted DecimalString.
From Stdlib Require Decimal DecimalPos.
Import ListNotations.
Open Scope string_scope.
Open Scope Z_scope.

(** ** JavaScript runtime helpers *)

Module Js.

(** The runtime values the [status] property of a request body can take. *)
Inductive value : Type :=
| Undefined
| Null
| Str (s : string)
| Num (n : Z)
| Boolean (b : bool).

(** Truthiness of a string: only the empty string is falsy. *)
Definition truthy_string (s : string) : bool :=
  match s with EmptyString => false | String _ _ => true end.

(** Truthiness of an optional number: [undefined] and [0] are falsy. *)
Definition truthy_number (n : option Z) : bool :=
  match n with None => false | Some z => negb (z =? 0) end.

(** A string of ASCII characters only. *)
Fixpoint is_ascii (s : string) : bool :=
  match s with
  | EmptyString => true
  | String c r => (nat_of_ascii c <? 128)%nat && is_ascii r
  end.

(** [String.prototype.toLowerCase] on a string of ASCII characters: the
    letters A-Z are lowered, every other character is kept.  What the
    real function does to characters beyond ASCII (it follows the Unicode
    tables) is not modelled; a statement that depends on it is made for
    [is_ascii] strings. *)
Definition lower_ascii (c : ascii) : ascii :=
  let n := nat_of_ascii c in
  if (Nat.leb 65 n && Nat.leb n 90)%bool then ascii_of_nat (n + 32) else c.

Fixpoint toLowerCase (s : string) : string :=
  match s with
  | EmptyString => EmptyString
  | String c r => String (lower_ascii c) (toLowerCase r)
  end.

(** [`${n}`] for an integer [n]: its decimal numeral. *)
Definition toString (n : Z) : string := NilZero.string_of_int (Z.to_int n).

(** [Array.prototype.includes] on strings. *)
Definition includes (l : list string) (s : string) : bool :=
  existsb (String.eqb s) l.

(** [Array.prototype.slice(0, n)]: a negative [n] counts from the end. *)
Definition slice0 {A} (l : list A) (n : Z) : list A :=
  if n <? 0 then firstn (Z.to_nat (Z.of_nat (length l) + n)) l
  else firstn (Z.to_nat n) l.

(** [Array.prototype.sort(cmp)]: stable; [cmp a b <= 0] keeps [a] before
    [b].  Insertion from the right gives the stable order. *)
Fixpoint sort_insert {A} (cmp : A -> A -> Z) (x : A) (l : list A) : list A :=
  match l with
  | [] => [x]
  | y :: r => if cmp x y <=? 0 then x :: y :: r else y :: sort_insert cmp x r
  end.

Definition sort {A} (cmp : A -> A -> Z) (l : list A) : list A :=
  fold_right (sort_insert cmp) [] l.

End Js.

(** ** A [Map<number, V>]: entries in insertion order *)

Module JsMap.

Definition t (V : Type) : Type := list (Z * V).

Definition empty {V} : t V := [].

Fixpoint get {V} (k : Z) (m : t V) : option V :=
  match m with
  | [] => None
  | (k', v) :: r => if k' =? k then Some v else get k r
  end.

(** [set] overwrites in place when the key is present and appends
    otherwise. *)
Fixpoint set {V} (k : Z) (v : V) (m : t V) : t V :=
  match m with
  | [] => [(k, v)]
  | (k', v') :: r => if k' =? k then (k, v) :: r else (k', v') :: set k v r
  end.

Definition delete {V} (k : Z) (m : t V) : t V :=
  filter (fun e => negb (fst e =? k)) m.

Definition keys {V} (m : t V) : list Z := map fst m.
Definition values {V} (m : t V) : list V := map snd m.
Definition entries {V} (m : t V) : list (Z * V) := m.
Definition size {V} (m : t V) : nat := length m.

End JsMap.

(** ** The shared schema *)

Module BoxStatus.

Inductive t : Type := Packed | Staging | Loaded | Out | Delivered | Unpacked.

(** The string each member of the enum evaluates to. *)
Definition str (s : t) : string :=
  match s with
  | Packed => "packed"
  | Staging => "staging"
  | Loaded => "loaded"
  | Out => "out"
  | Delivered => "delivered"
  | Unpacked => "unpacked"
  end.

(** [Object.values(BoxStatus)] *)
Definition values : list string :=
  map str [Packed; Staging; Loaded; Out; Delivered; Unpacked].

End BoxStatus.

Module BoxPosition.

Inductive depth_t : Type := front | middle | back.
Inductive horizontal_t : Type := left | center | right.
Inductive vertical_t : Type := low | mid | high.

Record t : Type := mk {
  depth : depth_t;
  horizontal : horizontal_t;
  vertical : vertical_t
}.

Definition depth_str (d : depth_t) : string :=
  match d with front => "front" | middle => "middle" | back => "back" end.
Definition horizontal_str (h : horizontal_t) : string :=
  match h with left => "left" | center => "center" | right => "right" end.
Definition vertical_str (v : vertical_t) : string :=
  match v with low => "low" | mid => "mid" | high => "high" end.

(** [`${position.depth}-${position.horizontal}-${position.vertical}`] *)
Definition triple (p : t) : string :=
  depth_str (depth p) ++ "-" ++ horizontal_str (horizontal p) ++ "-"
    ++ vertical_str (vertical p).

End BoxPosition.

Module Box.
(** A row of [boxes].  [status] is the stored text: the column is [text],
    its enum type exists only at compile time. *)
Record t : Type := mk {
  id : Z;
  boxNumber : Z;
  owner : string;
  room : string;
  contents : string;
  status : string;
  position : option BoxPosition.t;
  createdAt : Z;
  updatedAt : Z
}.
End Box.

Module InsertBox.
(** [status] is kept as a runtime value: [createBox] inspects its type. *)
Record t : Type := mk {
  boxNumber : Z;
  owner : string;
  room : string;
  contents : string;
  status : Js.value
}.
End InsertBox.

Module PartialInsertBox.
(** [Partial<InsertBox>]: [None] is a property that is absent or holds
    [undefined]; [updateBox] tests each with [!== undefined]. *)
Record t : Type := mk {
  boxNumber : option Z;
  owner : option string;
  room : option string;
  contents : option string;
  status : option string
}.
End PartialInsertBox.

Module Activity.
Record t : Type := mk {
  id : Z;
  boxId : option Z;
  type : string;
  description : string;
  timestamp : Z
}.
End Activity.

Module InsertActivity.
(** [boxId] absent or [null] is [None]: [createActivity] maps both to
    [null]. *)
Record t : Type := mk {
  boxId : option Z;
  type : string;
  description : string
}.
End InsertActivity.

Module QrCode.
Record t : Type := mk {
  id : Z;
  boxId : Z;
  data : string;
  createdAt : Z
}.
End QrCode.

Module InsertQrCode.
Record t : Type := mk { boxId : Z; data : string }.
End InsertQrCode.

Module Owner.
Record t : Type := mk {
  id : Z;
  name : string;
  color : string;
  createdAt : Z;
  updatedAt : Z
}.
End Owner.

Module InsertOwner.
Record t : Type := mk { name : string; color : string }.
End InsertOwner.

Module PartialInsertOwner.
(** [Partial<InsertOwner>] whose provided fields hold strings: [None] is a
    property that is absent.  An own property that holds [undefined] --
    the type admits it, no route produces it: the route's schema requires
    both fields as strings -- has no counterpart here. *)
Record t : Type := mk { name : option string; color : option string }.
End PartialInsertOwner.

(** ** Code shared verbatim by the two implementations *)

Module Shared.

(** The status block of [createBox] (storage.ts 91-102 and 376-387). *)
Definition boxStatus (boxData : InsertBox.t) : string :=
  match InsertBox.status boxData with
  | Js.Str s =>
      if negb (Js.includes BoxStatus.values s)
      then BoxStatus.str BoxStatus.Packed
      else s
  | _ => BoxStatus.str BoxStatus.Packed
  end.

(** [{...row, ...typeSafeData}] of [updateBox]: a property is copied only
    when it is not [undefined]; [status] is copied as it is. *)
Definition typeSafeData (boxData : PartialInsertBox.t) (row : Box.t) : Box.t :=
  Box.mk (Box.id row)
    (match PartialInsertBox.boxNumber boxData with
     | Some n => n | None => Box.boxNumber row end)
    (match PartialInsertBox.owner boxData with
     | Some o => o | None => Box.owner row end)
    (match PartialInsertBox.room boxData with
     | Some r => r | None => Box.room row end)
    (match PartialInsertBox.contents boxData with
     | Some c => c | None => Box.contents row end)
    (match PartialInsertBox.status boxData with
     | Some s => s | None => Box.status row end)
    (Box.position row) (Box.createdAt row) (Box.updatedAt row).

Definition set_updatedAt (now : Z) (row : Box.t) : Box.t :=
  Box.mk (Box.id row) (Box.boxNumber row) (Box.owner row) (Box.room row)
    (Box.contents row) (Box.status row) (Box.position row)
    (Box.createdAt row) now.

(** [{position, ...(status ? { status } : {})}] of [updateBoxPosition]. *)
Definition set_position (position : BoxPosition.t) (status : option string)
    (row : Box.t) : Box.t :=
  Box.mk (Box.id row) (Box.boxNumber row) (Box.owner row) (Box.room row)
    (Box.contents row)
    (match status with
     | Some s => if Js.truthy_string s then s else Box.status row
     | None => Box.status row
     end)
    (Some position) (Box.createdAt row) (Box.updatedAt row).

(** The activity of [updateBoxPosition]. *)
Definition positionActivity (id : Z) (box : Box.t) (position : BoxPosition.t)
    (status : option string) : InsertActivity.t :=
  if match status with Some s => String.eqb s "loaded" | None => false end
  then
    InsertActivity.mk (Some id) "loaded"
      ("Box #" ++ Js.toString (Box.boxNumber box) ++ " loaded onto truck ("
         ++ BoxPosition.triple position ++ ")")
  else
    InsertActivity.mk (Some id) "moved"
      ("Box #" ++ Js.toString (Box.boxNumber box) ++ " moved to position "
         ++ BoxPosition.triple position).

(** [box.status === BoxStatus.Loaded && status !== BoxStatus.Loaded] *)
Definition shouldClearPosition (box : Box.t) (status : string) : bool :=
  String.eqb (Box.status box) "loaded" && negb (String.eqb status "loaded").

(** [{status, position: shouldClearPosition ? null : box.position}] of
    [updateBoxStatus]; [box] is the record read at the start. *)
Definition set_status (box : Box.t) (status : string) (row : Box.t) : Box.t :=
  Box.mk (Box.id row) (Box.boxNumber row) (Box.owner row) (Box.room row)
    (Box.contents row) status
    (if shouldClearPosition box status then None else Box.position box)
    (Box.createdAt row) (Box.updatedAt row).

Definition statusActivity (id : Z) (box : Box.t) (status : string)
    : InsertActivity.t :=
  InsertActivity.mk (Some id) (Js.toLowerCase status)
    ("Box #" ++ Js.toString (Box.boxNumber box) ++ " marked as " ++ status).

(** [{...owner, ...ownerData, updatedAt}] of [updateOwner], for owner data
    as [PartialInsertOwner.t] has it: a provided field replaces the stored
    one, an absent one leaves it. *)
Definition mergeOwner (ownerData : PartialInsertOwner.t) (now : Z)
    (row : Owner.t) : Owner.t :=
  Owner.mk (Owner.id row)
    (match PartialInsertOwner.name ownerData with
     | Some n => n | None => Owner.name row end)
    (match PartialInsertOwner.color ownerData with
     | Some c => c | None => Owner.color row end)
    (Owner.createdAt row) now.

End Shared.

(** ** [MemStorage]: the in-memory implementation *)

Module MemStorage.

Record t : Type := mk {
  boxes : JsMap.t Box.t;
  activities : JsMap.t Activity.t;
  qrCodes : JsMap.t QrCode.t;
  owners : JsMap.t Owner.t;
  boxCounter : Z;
  activityCounter : Z;
  qrCodeCounter : Z;
  ownerCounter : Z
}.

(** The constructor. *)
Definition new : t :=
  mk JsMap.empty JsMap.empty JsMap.empty JsMap.empty 1 1 1 1.

Definition with_boxes (m : JsMap.t Box.t) (this : t) : t :=
  mk m (activities this) (qrCodes this) (owners this) (boxCounter this)
    (activityCounter this) (qrCodeCounter this) (ownerCounter this).
Definition with_activities (m : JsMap.t Activity.t) (this : t) : t :=
  mk (boxes this) m (qrCodes this) (owners this) (boxCounter this)
    (activityCounter this) (qrCodeCounter this) (ownerCounter this).
Definition with_qrCodes (m : JsMap.t QrCode.t) (this : t) : t :=
  mk (boxes this) (activities this) m (owners this) (boxCounter this)
    (activityCounter this) (qrCodeCounter this) (ownerCounter this).
Definition with_owners (m : JsMap.t Owner.t) (this : t) : t :=
  mk (boxes this) (activities this) (qrCodes this) m (boxCounter this)
    (activityCounter this) (qrCodeCounter this) (ownerCounter this).
Definition with_boxCounter (c : Z) (this : t) : t :=
  mk (boxes this) (activities this) (qrCodes this) (owners this) c
    (activityCounter this) (qrCodeCounter this) (ownerCounter this).
Definition with_activityCounter (c : Z) (this : t) : t :=
  mk (boxes this) (activities this) (qrCodes this) (owners this)
    (boxCounter this) c (qrCodeCounter this) (ownerCounter this).
Definition with_qrCodeCounter (c : Z) (this : t) : t :=
  mk (boxes this) (activities this) (qrCodes this) (owners this)
    (boxCounter this) (activityCounter this) c (ownerCounter this).
Definition with_ownerCounter (c : Z) (this : t) : t :=
  mk (boxes this) (activities this) (qrCodes this) (owners this)
    (boxCounter this) (activityCounter this) (qrCodeCounter this) c.

(** *** Activity operations *)

Definition createActivity (activityData : InsertActivity.t) (tAct : Z)
    (this : t) : Activity.t * t :=
  let id := activityCounter this in
  let this := with_activityCounter (id + 1) this in
  let boxId := InsertActivity.boxId activityData in
  let activity :=
    Activity.mk id boxId (InsertActivity.type activityData)
      (InsertActivity.description activityData) tAct in
  (activity, with_activities (JsMap.set id activity (activities this)) this).

(** The comparator of both sorts: [b.timestamp - a.timestamp]. *)
Definition newestFirst (a b : Activity.t) : Z :=
  Activity.timestamp b - Activity.timestamp a.

Definition getActivities (limit : option Z) (this : t) : list Activity.t :=
  let activities := Js.sort newestFirst (JsMap.values (activities this)) in
  if Js.truthy_number limit
  then match limit with
       | Some n => Js.slice0 activities n
       | None => activities
       end
  else activities.

Definition getBoxActivities (boxId : Z) (this : t) : list Activity.t :=
  Js.sort newestFirst
    (filter
       (fun activity =>
          match Activity.boxId activity with
          | Some b => b =? boxId
          | None => false
          end)
       (JsMap.values (activities this))).

(** *** Box operations *)

Definition getBoxes (this : t) : list Box.t := JsMap.values (boxes this).

Definition getBox (id : Z) (this : t) : option Box.t :=
  JsMap.get id (boxes this).

Definition getBoxByNumber (boxNumber : Z) (this : t) : option Box.t :=
  find (fun box => Box.boxNumber box =? boxNumber) (JsMap.values (boxes this)).

Definition createBox (boxData : InsertBox.t) (now tAct : Z) (this : t)
    : Box.t * t :=
  let id := boxCounter this in
  let this := with_boxCounter (id + 1) this in
  let boxStatus := Shared.boxStatus boxData in
  let box :=
    Box.mk id (InsertBox.boxNumber boxData) (InsertBox.owner boxData)
      (InsertBox.room boxData) (InsertBox.contents boxData) boxStatus None
      now now in
  let this := with_boxes (JsMap.set id box (boxes this)) this in
  let (_, this) :=
    createActivity
      (InsertActivity.mk (Some id) "created"
         ("Box #" ++ Js.toString (Box.boxNumber box) ++ " created"))
      tAct this in
  (box, this).

Definition updateBox (id : Z) (boxData : PartialInsertBox.t) (now tAct : Z)
    (this : t) : option Box.t * t :=
  match JsMap.get id (boxes this) with
  | None => (None, this)
  | Some box =>
      let updatedBox :=
        Shared.set_updatedAt now (Shared.typeSafeData boxData box) in
      let this := with_boxes (JsMap.set id updatedBox (boxes this)) this in
      let (_, this) :=
        createActivity
          (InsertActivity.mk (Some id) "updated"
             ("Box #" ++ Js.toString (Box.boxNumber box) ++ " updated"))
          tAct this in
      (Some updatedBox, this)
  end.

Definition updateBoxPosition (id : Z) (position : BoxPosition.t)
    (status : option string) (now tAct : Z) (this : t) : option Box.t * t :=
  match JsMap.get id (boxes this) with
  | None => (None, this)
  | Some box =>
      let updatedBox :=
        Shared.set_updatedAt now (Shared.set_position position status box) in
      let this := with_boxes (JsMap.set id updatedBox (boxes this)) this in
      let (_, this) :=
        createActivity (Shared.positionActivity id box position status)
          tAct this in
      (Some updatedBox, this)
  end.

Definition updateBoxStatus (id : Z) (status : string) (now tAct : Z)
    (this : t) : option Box.t * t :=
  match JsMap.get id (boxes this) with
  | None => (None, this)
  | Some box =>
      let updatedBox :=
        Shared.set_updatedAt now (Shared.set_status box status box) in
      let this := with_boxes (JsMap.set id updatedBox (boxes this)) this in
      let (_, this) :=
        createActivity (Shared.statusActivity id box status) tAct this in
      (Some updatedBox, this)
  end.

(** The [forEach] of [deleteBox] over a snapshot [es] of the entries of
    [qrCodes]: the entries of the box are deleted by their key. *)
Definition qr_sweep (id : Z) (es : list (Z * QrCode.t)) (this : t) : t :=
  fold_left
    (fun this e =>
       if QrCode.boxId (snd e) =? id
       then with_qrCodes (JsMap.delete (fst e) (qrCodes this)) this
       else this)
    es this.

Definition deleteBox (id : Z) (tAct : Z) (this : t) : bool * t :=
  match JsMap.get id (boxes this) with
  | None => (false, this)
  | Some box =>
      let this := with_boxes (JsMap.delete id (boxes this)) this in
      let this := qr_sweep id (JsMap.entries (qrCodes this)) this in
      let (_, this) :=
        createActivity
          (InsertActivity.mk (Some id) "deleted"
             ("Box #" ++ Js.toString (Box.boxNumber box) ++ " deleted"))
          tAct this in
      (true, this)
  end.

(** *** QR code operations *)

Definition getQrCode (id : Z) (this : t) : option QrCode.t :=
  JsMap.get id (qrCodes this).

Definition getQrCodeByBoxId (boxId : Z) (this : t) : option QrCode.t :=
  find (fun qrCode => QrCode.boxId qrCode =? boxId)
    (JsMap.values (qrCodes this)).

Definition createQrCode (qrCodeData : InsertQrCode.t) (now : Z) (this : t)
    : QrCode.t * t :=
  let id := qrCodeCounter this in
  let this := with_qrCodeCounter (id + 1) this in
  let qrCode :=
    QrCode.mk id (InsertQrCode.boxId qrCodeData)
      (InsertQrCode.data qrCodeData) now in
  (qrCode, with_qrCodes (JsMap.set id qrCode (qrCodes this)) this).

(** *** Owner operations *)

Definition getOwners (this : t) : list Owner.t := JsMap.values (owners this).

Definition getOwner (id : Z) (this : t) : option Owner.t :=
  JsMap.get id (owners this).

Definition createOwner (ownerData : InsertOwner.t) (now : Z) (this : t)
    : Owner.t * t :=
  let id := ownerCounter this in
  let this := with_ownerCounter (id + 1) this in
  let owner :=
    Owner.mk id (InsertOwner.name ownerData) (InsertOwner.color ownerData)
      now now in
  (owner, with_owners (JsMap.set id owner (owners this)) this).

Definition updateOwner (id : Z) (ownerData : PartialInsertOwner.t) (now : Z)
    (this : t) : option Owner.t * t :=
  match JsMap.get id (owners this) with
  | None => (None, this)
  | Some owner =>
      let updatedOwner := Shared.mergeOwner ownerData now owner in
      (Some updatedOwner,
       with_owners (JsMap.set id updatedOwner (owners this)) this)
  end.

Definition deleteOwner (id : Z) (this : t) : bool * t :=
  match JsMap.get id (owners this) with
  | None => (false, this)
  | Some owner =>
      let boxesWithOwner :=
        filter
          (fun box =>
             String.eqb (Js.toLowerCase (Box.owner box))
               (Js.toLowerCase (Owner.name owner)))
          (JsMap.values (boxes this)) in
      if (0 <? length boxesWithOwner)%nat
      then (false, this)
      else (true, with_owners (JsMap.delete id (owners this)) this)
  end.

(** [swept id es k]: the sweep over [es] deletes key [k]. *)
Definition swept (id : Z) (es : list (Z * QrCode.t)) (k : Z) : bool :=
  existsb (fun e => (QrCode.boxId (snd e) =? id) && (fst e =? k)) es.

(** *** Representation invariant

    Every key of a map is below the counter that hands out the next id,
    and no key occurs twice. *)
Definition below {V} (c : Z) (m : JsMap.t V) : Prop :=
  Forall (fun k => k < c) (JsMap.keys m).

Record wf (this : t) : Prop := {
  wf_boxes : below (boxCounter this) (boxes this);
  wf_activities : below (activityCounter this) (activities this);
  wf_qrCodes : below (qrCodeCounter this) (qrCodes this);
  wf_owners : below (ownerCounter this) (owners this);
  wf_boxes_nodup : NoDup (JsMap.keys (boxes this));
  wf_activities_nodup : NoDup (JsMap.keys (activities this));
  wf_qrCodes_nodup : NoDup (JsMap.keys (qrCodes this));
  wf_owners_nodup : NoDup (JsMap.keys (owners this))
}.

(** The stores the program can be in: the fresh one, and what a call of
    the interface makes of one (reads change nothing). *)
Inductive reachable : t -> Prop :=
| reach_new : reachable new
| reach_createBox boxData now tAct this :
    reachable this -> reachable (snd (createBox boxData now tAct this))
| reach_updateBox id boxData now tAct this :
    reachable this -> reachable (snd (updateBox id boxData now tAct this))
| reach_updateBoxPosition id position status now tAct this :
    reachable this ->
    reachable (snd (updateBoxPosition id position status now tAct this))
| reach_updateBoxStatus id status now tAct this :
    reachable this -> reachable (snd (updateBoxStatus id status now tAct this))
| reach_deleteBox id tAct this :
    reachable this -> reachable (snd (deleteBox id tAct this))
| reach_createActivity activityData tAct this :
    reachable this -> reachable (snd (createActivity activityData tAct this))
| reach_createQrCode qrCodeData now this :
    reachable this -> reachable (snd (createQrCode qrCodeData now this))
| reach_createOwner ownerData now this :
    reachable this -> reachable (snd (createOwner ownerData now this))
| reach_updateOwner id ownerData now this :
    reachable this -> reachable (snd (updateOwner id ownerData now this))
| reach_deleteOwner id this :
    reachable this -> reachable (snd (deleteOwner id this)).

(** One call of the interface that may write, from the store before it to
    the store after it. *)
Inductive step : t -> t -> Prop :=
| step_createBox boxData now tAct this :
    step this (snd (createBox boxData now tAct this))
| step_updateBox id boxData now tAct this :
    step this (snd (updateBox id boxData now tAct this))
| step_updateBoxPosition id position status now tAct this :
    step this (snd (updateBoxPosition id position status now tAct this))
| step_updateBoxStatus id status now tAct this :
    step this (snd (updateBoxStatus id status now tAct this))
| step_deleteBox id tAct this :
    step this (snd (deleteBox id tAct this))
| step_createActivity activityData tAct this :
    step this (snd (createActivity activityData tAct this))
| step_createQrCode qrCodeData now this :
    step this (snd (createQrCode qrCodeData now this))
| step_createOwner ownerData now this :
    step this (snd (createOwner ownerData now this))
| step_updateOwner id ownerData now this :
    step this (snd (updateOwner id ownerData now this))
| step_deleteOwner id this :
    step this (snd (deleteOwner id this)).

(** Any number of calls, one after the other. *)
Inductive steps : t -> t -> Prop :=
| steps_refl this : steps this this
| steps_step this mid this' : steps this mid -> step mid this' -> steps this this'.

End MemStorage.

(** ** The PostgreSQL tables behind [DatabaseStorage]

  The tables of the schema: [id] is [serial] and the primary key of each
  table; [activities.box_id] (nullable) and [qr_codes.box_id] reference
  [boxes.id] with [ON DELETE CASCADE]; [id], [box_id] and [box_number] are
  [integer] columns of 32 bits.  Rows are kept in a list, in the order of
  insertion.  A select by primary key has at most one row; the select by
  box number, whose rows PostgreSQL may return in any order, is a relation
  ([DatabaseStorage.getBoxByNumber]).

  A [serial] sequence is a counter here: that the real one ends at
  2147483647 is not modelled, and a database counts as consistent ([wf])
  only while the next value of every sequence is still in that range. *)

Module Pg.

Inductive error : Type :=
| unique_violation (constraint : string)
| foreign_key_violation (constraint : string)
| numeric_value_out_of_range.

Inductive result (A : Type) : Type :=
| Ok (a : A)
| Raise (e : error).
Arguments Ok {A} a.
Arguments Raise {A} e.

Record Database : Type := mk {
  boxes : list Box.t;
  boxes_id_seq : Z;
  activities : list Activity.t;
  activities_id_seq : Z;
  qr_codes : list QrCode.t;
  qr_codes_id_seq : Z;
  owners : list Owner.t;
  owners_id_seq : Z
}.

(** A freshly migrated database: empty tables, sequences at 1. *)
Definition empty : Database := mk [] 1 [] 1 [] 1 [] 1.

Definition with_boxes (rows : list Box.t) (db : Database) : Database :=
  mk rows (boxes_id_seq db) (activities db) (activities_id_seq db)
    (qr_codes db) (qr_codes_id_seq db) (owners db) (owners_id_seq db).
Definition with_boxes_id_seq (c : Z) (db : Database) : Database :=
  mk (boxes db) c (activities db) (activities_id_seq db)
    (qr_codes db) (qr_codes_id_seq db) (owners db) (owners_id_seq db).
Definition with_activities (rows : list Activity.t) (db : Database) : Database :=
  mk (boxes db) (boxes_id_seq db) rows (activities_id_seq db)
    (qr_codes db) (qr_codes_id_seq db) (owners db) (owners_id_seq db).
Definition with_activities_id_seq (c : Z) (db : Database) : Database :=
  mk (boxes db) (boxes_id_seq db) (activities db) c
    (qr_codes db) (qr_codes_id_seq db) (owners db) (owners_id_seq db).
Definition with_qr_codes (rows : list QrCode.t) (db : Database) : Database :=
  mk (boxes db) (boxes_id_seq db) (activities db) (activities_id_seq db)
    rows (qr_codes_id_seq db) (owners db) (owners_id_seq db).
Definition with_qr_codes_id_seq (c : Z) (db : Database) : Database :=
  mk (boxes db) (boxes_id_seq db) (activities db) (activities_id_seq db)
    (qr_codes db) c (owners db) (owners_id_seq db).
Definition with_owners (rows : list Owner.t) (db : Database) : Database :=
  mk (boxes db) (boxes_id_seq db) (activities db) (activities_id_seq db)
    (qr_codes db) (qr_codes_id_seq db) rows (owners_id_seq db).
Definition with_owners_id_seq (c : Z) (db : Database) : Database :=
  mk (boxes db) (boxes_id_seq db) (activities db) (activities_id_seq db)
    (qr_codes db) (qr_codes_id_seq db) (owners db) c.

(** An awaited statement: a result or a raised error, and the database
    after it. *)
Definition query (A : Type) : Type := Database -> result A * Database.

Definition ret {A} (a : A) : query A := fun db => (Ok a, db).

Definition bind {A B} (m : query A) (k : A -> query B) : query B :=
  fun db =>
    match m db with
    | (Ok a, db') => k a db'
    | (Raise e, db') => (Raise e, db')
    end.

Definition has_box (id : Z) (db : Database) : bool :=
  existsb (fun row => Box.id row =? id) (boxes db).

(** The values of an [integer] column. *)
Definition int4 (n : Z) : bool :=
  (-2147483648 <=? n) && (n <=? 2147483647).

(** The numbers a statement carries for [integer] columns ([params]) are
    read by the server before the statement runs.  One that does not fit
    the 32 bits fails the statement there (SQLSTATE 22003): nothing is
    read or written, and no sequence value is used. *)
Definition bound {A} (params : list Z) (run : query A) : query A :=
  fun db =>
    if forallb int4 params then run db
    else (Raise numeric_value_out_of_range, db).

(** A number that a statement carries only when it is given. *)
Definition optional (n : option Z) : list Z :=
  match n with Some z => [z] | None => [] end.

(** [INSERT INTO boxes ... RETURNING *]: [box_number] is bound first; the
    row is then built from the next value of the sequence, which is
    consumed even when the insert fails. *)
Definition insert_boxes (values : Z -> Box.t) : query Box.t :=
  fun db =>
    let id := boxes_id_seq db in
    bound [Box.boxNumber (values id)]
      (fun db =>
         let db := with_boxes_id_seq (id + 1) db in
         if has_box id db
         then (Raise (unique_violation "boxes_pkey"), db)
         else (Ok (values id), with_boxes (boxes db ++ [values id]) db))
      db.

(** [SELECT * FROM boxes WHERE ...]; [params] are the numbers the
    condition compares [integer] columns with. *)
Definition select_boxes (params : list Z) (where_ : Box.t -> bool)
    : query (list Box.t) :=
  bound params (fun db => (Ok (filter where_ (boxes db)), db)).

(** [UPDATE boxes SET ... WHERE ... RETURNING *]; [params] are the numbers
    of the condition and of the assignments. *)
Definition update_boxes (params : list Z) (set : Box.t -> Box.t)
    (where_ : Box.t -> bool) : query (list Box.t) :=
  bound params
    (fun db =>
       (Ok (map set (filter where_ (boxes db))),
        with_boxes
          (map (fun row => if where_ row then set row else row) (boxes db))
          db)).

(** [DELETE FROM boxes WHERE ...], with the two cascades. *)
Definition delete_boxes (params : list Z) (where_ : Box.t -> bool)
    : query unit :=
  bound params (fun db =>
    let gone := map Box.id (filter where_ (boxes db)) in
    let is_gone id := existsb (Z.eqb id) gone in
    let db := with_boxes (filter (fun row => negb (where_ row)) (boxes db)) db in
    let db :=
      with_activities
        (filter
           (fun row =>
              match Activity.boxId row with
              | Some b => negb (is_gone b)
              | None => true
              end)
           (activities db))
        db in
    let db :=
      with_qr_codes
        (filter (fun row => negb (is_gone (QrCode.boxId row))) (qr_codes db))
        db in
    (Ok tt, db)).


(** [INSERT INTO activities ... RETURNING *]: [box_id] is bound first, the
    sequence value taken next, the keys checked last. *)
Definition insert_activities (values : Z -> Activity.t) : query Activity.t :=
  fun db =>
    let id := activities_id_seq db in
    bound (optional (Activity.boxId (values id)))
      (fun db =>
         let db := with_activities_id_seq (id + 1) db in
         if existsb (fun row => Activity.id row =? id) (activities db)
         then (Raise (unique_violation "activities_pkey"), db)
         else
           match Activity.boxId (values id) with
           | Some b =>
               if has_box b db
               then (Ok (values id),
                     with_activities (activities db ++ [values id]) db)
               else (Raise (foreign_key_violation "activities_box_id_boxes_id_fk"),
                     db)
           | None =>
               (Ok (values id), with_activities (activities db ++ [values id]) db)
           end)
      db.

Definition select_qr_codes (params : list Z) (where_ : QrCode.t -> bool)
    : query (list QrCode.t) :=
  bound params (fun db => (Ok (filter where_ (qr_codes db)), db)).

Definition insert_qr_codes (values : Z -> QrCode.t) : query QrCode.t :=
  fun db =>
    let id := qr_codes_id_seq db in
    bound [QrCode.boxId (values id)]
      (fun db =>
         let db := with_qr_codes_id_seq (id + 1) db in
         if existsb (fun row => QrCode.id row =? id) (qr_codes db)
         then (Raise (unique_violation "qr_codes_pkey"), db)
         else if has_box (QrCode.boxId (values id)) db
         then (Ok (values id), with_qr_codes (qr_codes db ++ [values id]) db)
         else (Raise (foreign_key_violation "qr_codes_box_id_boxes_id_fk"), db))
      db.

Definition select_owners (params : list Z) (where_ : Owner.t -> bool)
    : query (list Owner.t) :=
  bound params (fun db => (Ok (filter where_ (owners db)), db)).

Definition insert_owners (values : Z -> Owner.t) : query Owner.t :=
  fun db =>
    let id := owners_id_seq db in
    let db := with_owners_id_seq (id + 1) db in
    if existsb (fun row => Owner.id row =? id) (owners db)
    then (Raise (unique_violation "owners_pkey"), db)
    else (Ok (values id), with_owners (owners db ++ [values id]) db).

Definition update_owners (params : list Z) (set : Owner.t -> Owner.t)
    (where_ : Owner.t -> bool) : query (list Owner.t) :=
  bound params
    (fun db =>
       (Ok (map set (filter where_ (owners db))),
        with_owners
          (map (fun row => if where_ row then set row else row) (owners db))
          db)).

Definition delete_owners (params : list Z) (where_ : Owner.t -> bool)
    : query unit :=
  bound params
    (fun db =>
       (Ok tt,
        with_owners (filter (fun row => negb (where_ row)) (owners db)) db)).

(** [SELECT ... ORDER BY key DESC]: some arrangement of the rows with the
    keys in descending order.  SQL leaves the order of rows with equal
    keys open, so this is a relation between the table and the answer. *)
Definition order_by_desc {A} (key : A -> Z) (rows answer : list A) : Prop :=
  Permutation rows answer
  /\ StronglySorted (fun a b => key b <= key a) answer.

(** The next value of the sequence of [activities] is above every id in
    the table: the next insert cannot collide on the primary key. *)
Definition activities_fresh (db : Database) : Prop :=
  Forall (fun row => Activity.id row < activities_id_seq db) (activities db).

Definition boxes_fresh (db : Database) : Prop :=
  Forall (fun row => Box.id row < boxes_id_seq db) (boxes db).

(** The constraints of the schema: the keys, and the range of the two
    referencing columns.  Every statement keeps them. *)
Record constraints (db : Database) : Prop := {
  wf_boxes_seq : boxes_fresh db;
  wf_activities_seq : activities_fresh db;
  wf_qr_codes_seq :
    Forall (fun row => QrCode.id row < qr_codes_id_seq db) (qr_codes db);
  wf_owners_seq :
    Forall (fun row => Owner.id row < owners_id_seq db) (owners db);
  wf_boxes_pkey : NoDup (map Box.id (boxes db));
  wf_activities_pkey : NoDup (map Activity.id (activities db));
  wf_qr_codes_pkey : NoDup (map QrCode.id (qr_codes db));
  wf_owners_pkey : NoDup (map Owner.id (owners db));
  wf_activities_fk :
    Forall
      (fun row =>
         match Activity.boxId row with
         | Some b => has_box b db = true
         | None => True
         end)
      (activities db);
  wf_qr_codes_fk :
    Forall (fun row => has_box (QrCode.boxId row) db = true) (qr_codes db);
  wf_activities_box_id :
    Forall (fun row => forallb int4 (optional (Activity.boxId row)) = true)
      (activities db);
  wf_qr_codes_box_id :
    Forall (fun row => int4 (QrCode.boxId row) = true) (qr_codes db)
}.

(** A consistent database: the constraints hold and no sequence has left
    the range of its column, so that the next row can be written and read
    back by its id. *)
Record wf (db : Database) : Prop := {
  wf_constraints : constraints db;
  wf_boxes_id_seq : int4 (boxes_id_seq db) = true;
  wf_activities_id_seq : int4 (activities_id_seq db) = true;
  wf_qr_codes_id_seq : int4 (qr_codes_id_seq db) = true;
  wf_owners_id_seq : int4 (owners_id_seq db) = true
}.

(** A statement keeps the constraints, whatever it returns. *)
Definition preserves {A} (m : query A) : Prop :=
  forall db, constraints db -> constraints (snd (m db)).

End Pg.

Declare Scope query_scope.
Delimit Scope query_scope with query.
Notation "x <- m ;; k" := (Pg.bind m (fun x => k))
(at level 61, m at next level, right associativity) : query_scope.
Notation "' pat <- m ;; k" := (Pg.bind m (fun x => match x with pat => k end))
(at level 61, pat pattern, m at next level, right associativity) : query_scope.

(** ** [DatabaseStorage]: the persistent implementation *)

Module DatabaseStorage.

Import Pg.
Local Open Scope query_scope.

(** [result.length > 0 ? result[0] : undefined], and [const [row] = ...] *)
Definition first {A} (rows : list A) : option A := hd_error rows.

(** *** Activity operations *)

Definition createActivity (activityData : InsertActivity.t) (tAct : Z)
    : query Activity.t :=
  let boxId := InsertActivity.boxId activityData in
  insert_activities
    (fun id =>
       Activity.mk id boxId (InsertActivity.type activityData)
         (InsertActivity.description activityData) tAct).

(** [orderBy(desc(activities.timestamp))], with [query.limit(limit)] when
    [limit] is truthy; the query builder writes a [LIMIT] into the
    statement only for a limit that is not negative, so a negative limit
    lists everything. *)
Inductive getActivities (limit : option Z) (db : Database)
    : result (list Activity.t) -> Prop :=
| getActivities_all answer :
    Js.truthy_number limit = false ->
    order_by_desc Activity.timestamp (activities db) answer ->
    getActivities limit db (Ok answer)
| getActivities_limit n answer :
    limit = Some n -> 0 < n ->
    order_by_desc Activity.timestamp (activities db) answer ->
    getActivities limit db (Ok (firstn (Z.to_nat n) answer))
| getActivities_negative n answer :
    limit = Some n -> n < 0 ->
    order_by_desc Activity.timestamp (activities db) answer ->
    getActivities limit db (Ok answer).

(** *** Box operations *)

Definition getBoxes (db : Database) (answer : list Box.t) : Prop :=
  order_by_desc Box.updatedAt (boxes db) answer.

Definition getBox (id : Z) : query (option Box.t) :=
  result <- select_boxes [id] (fun row => Box.id row =? id) ;;
  ret (first result).

(** Box numbers are not unique and the select has no [ORDER BY]: the rows
    with the number come in an order of the server's choosing (it changes,
    for one, when a row is updated), and [result[0]] is the first of
    them. *)
Inductive getBoxByNumber (boxNumber : Z) (db : Database)
    : result (option Box.t) -> Prop :=
| getBoxByNumber_rows result :
    int4 boxNumber = true ->
    Permutation
      (filter (fun row => Box.boxNumber row =? boxNumber) (boxes db)) result ->
    getBoxByNumber boxNumber db (Ok (first result))
| getBoxByNumber_out_of_range :
    int4 boxNumber = false ->
    getBoxByNumber boxNumber db (Raise numeric_value_out_of_range).

Definition createBox (boxData : InsertBox.t) (now tAct : Z) : query Box.t :=
  let boxStatus := Shared.boxStatus boxData in
  box <- insert_boxes
           (fun id =>
              Box.mk id (InsertBox.boxNumber boxData) (InsertBox.owner boxData)
                (InsertBox.room boxData) (InsertBox.contents boxData)
                boxStatus None now now) ;;
  _ <- createActivity
         (InsertActivity.mk (Some (Box.id box)) "created"
            ("Box #" ++ Js.toString (Box.boxNumber box) ++ " created"))
         tAct ;;
  ret box.

Definition updateBox (id : Z) (boxData : PartialInsertBox.t) (now tAct : Z)
    : query (option Box.t) :=
  found <- getBox id ;;
  match found with
  | None => ret None
  | Some box =>
      updated <- update_boxes
                   (id :: optional (PartialInsertBox.boxNumber boxData))
                   (fun row =>
                      Shared.set_updatedAt now (Shared.typeSafeData boxData row))
                   (fun row => Box.id row =? id) ;;
      _ <- createActivity
             (InsertActivity.mk (Some id) "updated"
                ("Box #" ++ Js.toString (Box.boxNumber box) ++ " updated"))
             tAct ;;
      ret (first updated)
  end.

Definition updateBoxPosition (id : Z) (position : BoxPosition.t)
    (status : option string) (now tAct : Z) : query (option Box.t) :=
  found <- getBox id ;;
  match found with
  | None => ret None
  | Some box =>
      updated <- update_boxes [id]
                   (fun row =>
                      Shared.set_updatedAt now
                        (Shared.set_position position status row))
                   (fun row => Box.id row =? id) ;;
      _ <- createActivity (Shared.positionActivity id box position status)
             tAct ;;
      ret (first updated)
  end.

Definition updateBoxStatus (id : Z) (status : string) (now tAct : Z)
    : query (option Box.t) :=
  found <- getBox id ;;
  match found with
  | None => ret None
  | Some box =>
      updated <- update_boxes [id]
                   (fun row =>
                      Shared.set_updatedAt now (Shared.set_status box status row))
                   (fun row => Box.id row =? id) ;;
      _ <- createActivity (Shared.statusActivity id box status) tAct ;;
      ret (first updated)
  end.

Definition deleteBox (id : Z) (tAct : Z) : query bool :=
  found <- getBox id ;;
  match found with
  | None => ret false
  | Some box =>
      _ <- delete_boxes [id] (fun row => Box.id row =? id) ;;
      _ <- createActivity
             (InsertActivity.mk (Some id) "deleted"
                ("Box #" ++ Js.toString (Box.boxNumber box) ++ " deleted"))
             tAct ;;
      ret true
  end.

(** *** QR code operations *)

Definition getQrCode (id : Z) : query (option QrCode.t) :=
  result <- select_qr_codes [id] (fun row => QrCode.id row =? id) ;;
  ret (first result).

(** The codes of one box come in the order of their insertion: rows of
    [qr_codes] are never updated. *)
Definition getQrCodeByBoxId (boxId : Z) : query (option QrCode.t) :=
  result <- select_qr_codes [boxId] (fun row => QrCode.boxId row =? boxId) ;;
  ret (first result).

Definition createQrCode (qrCodeData : InsertQrCode.t) (now : Z)
    : query QrCode.t :=
  insert_qr_codes
    (fun id =>
       QrCode.mk id (InsertQrCode.boxId qrCodeData)
         (InsertQrCode.data qrCodeData) now).

(** *** Owner operations *)

Definition getOwners (db : Database) (answer : list Owner.t) : Prop :=
  order_by_desc Owner.updatedAt (owners db) answer.

Definition getOwner (id : Z) : query (option Owner.t) :=
  result <- select_owners [id] (fun row => Owner.id row =? id) ;;
  ret (first result).

Definition createOwner (ownerData : InsertOwner.t) (now : Z) : query Owner.t :=
  insert_owners
    (fun id =>
       Owner.mk id (InsertOwner.name ownerData) (InsertOwner.color ownerData)
         now now).

Definition updateOwner (id : Z) (ownerData : PartialInsertOwner.t) (now : Z)
    : query (option Owner.t) :=
  found <- getOwner id ;;
  match found with
  | None => ret None
  | Some owner =>
      updated <- update_owners [id] (Shared.mergeOwner ownerData now)
                   (fun row => Owner.id row =? id) ;;
      ret (first updated)
  end.

(** [eq(boxes.owner, owner.name)] is SQL equality of [text]. *)
Definition deleteOwner (id : Z) : query bool :=
  found <- getOwner id ;;
  match found with
  | None => ret false
  | Some owner =>
      boxesWithOwner <- select_boxes []
                          (fun row => String.eqb (Box.owner row)
                                        (Owner.name owner)) ;;
      if (0 <? length boxesWithOwner)%nat
      then ret false
      else
        _ <- delete_owners [id] (fun row => Owner.id row =? id) ;;
        ret true
  end.

(** The databases the program can leave behind, starting from the empty
    one; a call that raises leaves what it had written. *)
Inductive reachable : Database -> Prop :=
| reach_empty : reachable empty
| reach_createBox boxData now tAct db :
    reachable db -> reachable (snd (createBox boxData now tAct db))
| reach_updateBox id boxData now tAct db :
    reachable db -> reachable (snd (updateBox id boxData now tAct db))
| reach_updateBoxPosition id position status now tAct db :
    reachable db ->
    reachable (snd (updateBoxPosition id position status now tAct db))
| reach_updateBoxStatus id status now tAct db :
    reachable db -> reachable (snd (updateBoxStatus id status now tAct db))
| reach_deleteBox id tAct db :
    reachable db -> reachable (snd (deleteBox id tAct db))
| reach_createActivity activityData tAct db :
    reachable db -> reachable (snd (createActivity activityData tAct db))
| reach_createQrCode qrCodeData now db :
    reachable db -> reachable (snd (createQrCode qrCodeData now db))
| reach_createOwner ownerData now db :
    reachable db -> reachable (snd (createOwner ownerData now db))
| reach_updateOwner id ownerData now db :
    reachable db -> reachable (snd (updateOwner id ownerData now db))
| reach_deleteOwner id db :
    reachable db -> reachable (snd (deleteOwner id db)).

(** [where(eq(activities.boxId, boxId)).orderBy(desc(activities.timestamp))] *)
Inductive getBoxActivities (boxId : Z) (db : Database)
    : result (list Activity.t) -> Prop :=
| getBoxActivities_rows answer :
    int4 boxId = true ->
    order_by_desc Activity.timestamp
      (filter
         (fun row =>
            match Activity.boxId row with
            | Some b => b =? boxId
            | None => false
            end)
         (activities db))
      answer ->
    getBoxActivities boxId db (Ok answer)
| getBoxActivities_out_of_range :
    int4 boxId = false ->
    getBoxActivities boxId db (Raise numeric_value_out_of_range).

(** One call of the interface that may write; a call that raises counts
    with what it had written. *)
Inductive step : Database -> Database -> Prop :=
| step_createBox boxData now tAct db :
    step db (snd (createBox boxData now tAct db))
| step_updateBox id boxData now tAct db :
    step db (snd (updateBox id boxData now tAct db))
| step_updateBoxPosition id position status now tAct db :
    step db (snd (updateBoxPosition id position status now tAct db))
| step_updateBoxStatus id status now tAct db :
    step db (snd (updateBoxStatus id status now tAct db))
| step_deleteBox id tAct db :
    step db (snd (deleteBox id tAct db))
| step_createActivity activityData tAct db :
    step db (snd (createActivity activityData tAct db))
| step_createQrCode qrCodeData now db :
    step db (snd (createQrCode qrCodeData now db))
| step_createOwner ownerData now db :
    step db (snd (createOwner ownerData now db))
| step_updateOwner id ownerData now db :
    step db (snd (updateOwner id ownerData now db))
| step_deleteOwner id db :
    step db (snd (deleteOwner id db)).

Inductive steps : Database -> Database -> Prop :=
| steps_refl db : steps db db
| steps_step db mid db' : steps db mid -> step mid db' -> steps db db'.

End DatabaseStorage.

(** ** The box-mutating calls of [IStorage], as data

    One constructor per call; [mem] and [db] run the call on either
    implementation and keep, of what it returns, whether it succeeded and
    for which box id: the created box's id, the id passed to an update that
    returned a box, the id passed to a delete that returned [true]. *)

Module BoxMutation.

Inductive t : Type :=
| CreateBox (boxData : InsertBox.t)
| UpdateBox (id : Z) (boxData : PartialInsertBox.t)
| UpdateBoxStatus (id : Z) (status : string)
| UpdateBoxPosition (id : Z) (position : BoxPosition.t) (status : option string)
| DeleteBox (id : Z).

Definition updated (id : Z) (r : option Box.t) : option Z :=
  match r with Some _ => Some id | None => None end.

Definition deleted (id : Z) (r : bool) : option Z :=
  if r then Some id else None.


Definition db (op : t) (now tAct : Z) : Pg.query (option Z) :=
  match op with
  | CreateBox boxData =>
      Pg.bind (DatabaseStorage.createBox boxData now tAct)
        (fun box => Pg.ret (Some (Box.id box)))
  | UpdateBox id boxData =>
      Pg.bind (DatabaseStorage.updateBox id boxData now tAct)
        (fun r => Pg.ret (updated id r))
  | UpdateBoxStatus id status =>
      Pg.bind (DatabaseStorage.updateBoxStatus id status now tAct)
        (fun r => Pg.ret (updated id r))
  | UpdateBoxPosition id position status =>
      Pg.bind (DatabaseStorage.updateBoxPosition id position status now tAct)
        (fun r => Pg.ret (updated id r))
  | DeleteBox id =>
      Pg.bind (DatabaseStorage.deleteBox id tAct)
        (fun r => Pg.ret (deleted id r))
  end.



(** The box number a call carries, if it carries one. *)
Definition boxNumber (op : t) : option Z :=
  match op with
  | CreateBox boxData => Some (InsertBox.boxNumber boxData)
  | UpdateBox _ boxData => PartialInsertBox.boxNumber boxData
  | _ => None
  end.

End BoxMutation.

(** ** The helpers of the client ([lib/utils]) that read and write the
    formats of the store: QR text and position labels *)

Module Utils.

(** [c.toUpperCase()] of one ASCII character. *)
Definition upper_ascii (c : ascii) : ascii :=
  let n := nat_of_ascii c in
  if (Nat.leb 97 n && Nat.leb n 122)%bool then ascii_of_nat (n - 32) else c.

(** [s.charAt(0).toUpperCase() + s.slice(1)] *)
Definition capitalize (s : string) : string :=
  match s with
  | EmptyString => EmptyString
  | String c r => String (upper_ascii c) r
  end.

(** The [switch] of [formatPosition] on [position.vertical]. *)
Definition verticalLabel (vertical : string) : string :=
  if String.eqb vertical "high" then "Top"
  else if String.eqb vertical "mid" then "Middle"
  else if String.eqb vertical "low" then "Bottom"
  else vertical.

Definition formatPosition (position : option BoxPosition.t) : string :=
  match position with
  | None => "-"
  | Some position =>
      let verticalLabel :=
        verticalLabel (BoxPosition.vertical_str (BoxPosition.vertical position)) in
      let horizontalLabel :=
        capitalize (BoxPosition.horizontal_str (BoxPosition.horizontal position)) in
      let depthLabel :=
        capitalize (BoxPosition.depth_str (BoxPosition.depth position)) in
      verticalLabel ++ " " ++ depthLabel ++ " " ++ horizontalLabel
  end.

Definition generateQrCodeData (boxId : Z) : string :=
  "boxtracker-" ++ Js.toString boxId.

(** [\d] *)
Definition is_digit (c : ascii) : bool :=
  let n := nat_of_ascii c in (Nat.leb 48 n && Nat.leb n 57)%bool.

(** [\d+] at the start of [s], greedy: the longest run of digits there
    (empty when [s] does not start with a digit). *)
Fixpoint digits_prefix (s : string) : string :=
  match s with
  | EmptyString => EmptyString
  | String c r => if is_digit c then String c (digits_prefix r) else EmptyString
  end.

(** What is left of [s] after the literal [p], when [s] starts with it. *)
Fixpoint strip_prefix (p s : string) : option string :=
  match p, s with
  | EmptyString, _ => Some s
  | String a p', String b s' =>
      if Ascii.eqb a b then strip_prefix p' s' else None
  | String _ _, EmptyString => None
  end.

(** [data.match(/boxtracker-(\d+)/)]: the first capture group of the
    leftmost match, if there is a match. *)
Fixpoint match_boxtracker (data : string) : option string :=
  let here :=
    match strip_prefix "boxtracker-" data with
    | Some rest => digits_prefix rest
    | None => EmptyString
    end in
  match here with
  | String _ _ => Some here
  | EmptyString =>
      match data with
      | EmptyString => None
      | String _ r => match_boxtracker r
      end
  end.

(** [parseInt(ds, 10)] of a string of decimal digits: the number they
    denote.  This is what [parseInt] returns as long as that number is an
    exact integer of JavaScript (below 2^53); beyond, [parseInt] rounds
    and this function does not. *)
Fixpoint digits_value (acc : Z) (ds : string) : Z :=
  match ds with
  | EmptyString => acc
  | String c r => digits_value (10 * acc + (Z.of_nat (nat_of_ascii c) - 48)) r
  end.

Definition parseQrCodeData (data : string) : option Z :=
  match match_boxtracker data with
  | Some ds => Some (digits_value 0 ds)
  | None => None
  end.

End Utils.

(** ** The scanner's success callback ([components/qr-scanner]) *)

Module QRScanner.

(** What [onQrCodeSuccess] passes to [onScan]: the parsed id when it is
    truthy; [None] when the callback reports an invalid code instead. *)
Definition onQrCodeSuccess (decodedText : string) : option Z :=
  match Utils.parseQrCodeData decodedText with
  | Some boxId => if boxId =? 0 then None else Some boxId
  | None => None
  end.

End QRScanner.

(** ** The labels of the truck grid ([TruckView.renderTruckGrid]) *)

Module TruckView.

Definition getPositionLabel (depth horizontal vertical : string) : string :=
  let verticalLabel :=
    if String.eqb vertical "high" then "Top"
    else if String.eqb vertical "mid" then "Middle"
    else if String.eqb vertical "low" then "Bottom"
    else "" in
  let horizontalLabel := Utils.capitalize horizontal in
  let depthLabel := Utils.capitalize depth in
  verticalLabel ++ " " ++ depthLabel ++ " " ++ horizontalLabel.

End TruckView.

(** ** The actions the scan page offers ([pages/scan-qr]) *)

Module ScanQR.

Record action : Type := mk { label : string; value : string }.

(** [getAvailableActions] for a loaded box of the given status. *)
Definition getAvailableActions (status : string) : list action :=
  if String.eqb status "packed" then
    [mk "Mark as Staging" "staging"; mk "Load to Truck" "loaded"]
  else if String.eqb status "staging" then
    [mk "Load to Truck" "loaded"]
  else if String.eqb status "loaded" then
    [mk "Unload from Truck" "out"]
  else if String.eqb status "out" then
    [mk "Mark as Delivered" "delivered"; mk "Load back to Truck" "loaded"]
  else if String.eqb status "delivered" then
    [mk "Mark as Unpacked" "unpacked"]
  else [].

End ScanQR.

(** ** The QR-code route ([GET /api/boxes/:id/qrcode] of routes.ts), over
    either implementation of the store *)

Module Routes.

Inductive response : Type :=
| Json (status : Z) (qrCode : QrCode.t)
| Message (status : Z) (message : string).

(** [id] is what [parseInt(req.params.id, 10)] gave, [None] for [NaN]. *)
Definition getQrCode_mem (id : option Z) (now : Z) (this : MemStorage.t)
    : response * MemStorage.t :=
  match id with
  | None => (Message 400 "Invalid box ID", this)
  | Some id =>
      match MemStorage.getQrCodeByBoxId id this with
      | Some qrCode => (Json 200 qrCode, this)
      | None =>
          match MemStorage.getBox id this with
          | None => (Message 404 "Box not found", this)
          | Some _ =>
              let qrData := "boxtracker-" ++ Js.toString id in
              let (qrCode, this) :=
                MemStorage.createQrCode (InsertQrCode.mk id qrData) now this in
              (Json 200 qrCode, this)
          end
      end
  end.

(** The body of the [try] on the database. *)
Definition getQrCode_try (id : Z) (now : Z) : Pg.query response :=
  Pg.bind (DatabaseStorage.getQrCodeByBoxId id) (fun found =>
    match found with
    | Some qrCode => Pg.ret (Json 200 qrCode)
    | None =>
        Pg.bind (DatabaseStorage.getBox id) (fun box =>
          match box with
          | None => Pg.ret (Message 404 "Box not found")
          | Some _ =>
              let qrData := "boxtracker-" ++ Js.toString id in
              Pg.bind
                (DatabaseStorage.createQrCode (InsertQrCode.mk id qrData) now)
                (fun qrCode => Pg.ret (Json 200 qrCode))
          end)
    end).

(** ... and its [catch]. *)
Definition getQrCode_db (id : option Z) (now : Z) (db : Pg.Database)
    : response * Pg.Database :=
  match id with
  | None => (Message 400 "Invalid box ID", db)
  | Some id =>
      match getQrCode_try id now db with
      | (Pg.Ok r, db') => (r, db')
      | (Pg.Raise _, db') => (Message 500 "Failed to get QR code", db')
      end
  end.

(** A reply whose body is at most a message: the status code and the
    [message] of the JSON body ([None] for an empty body). *)
Inductive reply : Type := Reply (status : Z) (message : option string).

(** [DELETE /api/boxes/:id] *)
Definition deleteBox_mem (id : option Z) (tAct : Z) (this : MemStorage.t)
    : reply * MemStorage.t :=
  match id with
  | None => (Reply 400 (Some "Invalid box ID"), this)
  | Some id =>
      let (success, this) := MemStorage.deleteBox id tAct this in
      if success then (Reply 204 None, this)
      else (Reply 404 (Some "Box not found"), this)
  end.

Definition deleteBox_db (id : option Z) (tAct : Z) (db : Pg.Database)
    : reply * Pg.Database :=
  match id with
  | None => (Reply 400 (Some "Invalid box ID"), db)
  | Some id =>
      match DatabaseStorage.deleteBox id tAct db with
      | (Pg.Ok success, db') =>
          if success then (Reply 204 None, db')
          else (Reply 404 (Some "Box not found"), db')
      | (Pg.Raise _, db') => (Reply 500 (Some "Failed to delete box"), db')
      end
  end.

(** [DELETE /api/owners/:id] *)
Definition deleteOwner_mem (id : option Z) (this : MemStorage.t)
    : reply * MemStorage.t :=
  match id with
  | None => (Reply 400 (Some "Invalid owner ID"), this)
  | Some id =>
      let (success, this) := MemStorage.deleteOwner id this in
      if success then (Reply 204 None, this)
      else
        (Reply 400
           (Some "Cannot delete owner - it may be in use by one or more boxes"),
         this)
  end.

Definition deleteOwner_db (id : option Z) (db : Pg.Database)
    : reply * Pg.Database :=
  match id with
  | None => (Reply 400 (Some "Invalid owner ID"), db)
  | Some id =>
      match DatabaseStorage.deleteOwner id db with
      | (Pg.Ok success, db') =>
          if success then (Reply 204 None, db')
          else
            (Reply 400
               (Some
                  "Cannot delete owner - it may be in use by one or more boxes"),
             db')
      | (Pg.Raise _, db') => (Reply 500 (Some "Failed to delete owner"), db')
      end
  end.

(** A reply that carries a box, or a message (the [errors] array that
    accompanies a validation message is left out). *)
Inductive box_reply : Type :=
| BoxJson (status : Z) (box : Box.t)
| BoxMessage (status : Z) (message : string).

(** [z.enum([BoxStatus.Packed, ..., BoxStatus.Unpacked])] on the [status]
    of the body ([Js.Undefined] when the body has none). *)
Definition statusEnum (status : Js.value) : option string :=
  match status with
  | Js.Str s => if Js.includes BoxStatus.values s then Some s else None
  | _ => None
  end.

(** [PATCH /api/boxes/:id/status] *)
Definition patchStatus_mem (id : option Z) (status : Js.value) (now tAct : Z)
    (this : MemStorage.t) : box_reply * MemStorage.t :=
  match id with
  | None => (BoxMessage 400 "Invalid box ID", this)
  | Some id =>
      match statusEnum status with
      | None => (BoxMessage 400 "Invalid status data", this)
      | Some status =>
          let (updatedBox, this) :=
            MemStorage.updateBoxStatus id status now tAct this in
          match updatedBox with
          | None => (BoxMessage 404 "Box not found", this)
          | Some box => (BoxJson 200 box, this)
          end
      end
  end.

Definition patchStatus_db (id : option Z) (status : Js.value) (now tAct : Z)
    (db : Pg.Database) : box_reply * Pg.Database :=
  match id with
  | None => (BoxMessage 400 "Invalid box ID", db)
  | Some id =>
      match statusEnum status with
      | None => (BoxMessage 400 "Invalid status data", db)
      | Some status =>
          match DatabaseStorage.updateBoxStatus id status now tAct db with
          | (Pg.Ok None, db') => (BoxMessage 404 "Box not found", db')
          | (Pg.Ok (Some box), db') => (BoxJson 200 box, db')
          | (Pg.Raise _, db') =>
              (BoxMessage 500 "Failed to update box status", db')
          end
      end
  end.

(** The three [z.enum]s of the position and the optional status enum of
    [positionSchema]. *)
Definition depthEnum (v : Js.value) : option BoxPosition.depth_t :=
  match v with
  | Js.Str s =>
      if String.eqb s "front" then Some BoxPosition.front
      else if String.eqb s "middle" then Some BoxPosition.middle
      else if String.eqb s "back" then Some BoxPosition.back
      else None
  | _ => None
  end.

Definition horizontalEnum (v : Js.value) : option BoxPosition.horizontal_t :=
  match v with
  | Js.Str s =>
      if String.eqb s "left" then Some BoxPosition.left
      else if String.eqb s "center" then Some BoxPosition.center
      else if String.eqb s "right" then Some BoxPosition.right
      else None
  | _ => None
  end.

Definition verticalEnum (v : Js.value) : option BoxPosition.vertical_t :=
  match v with
  | Js.Str s =>
      if String.eqb s "low" then Some BoxPosition.low
      else if String.eqb s "mid" then Some BoxPosition.mid
      else if String.eqb s "high" then Some BoxPosition.high
      else None
  | _ => None
  end.

(** [positionSchema.parse(req.body)]: [None] is a [ZodError]. *)
Definition positionSchema (depth horizontal vertical status : Js.value)
    : option (BoxPosition.t * option string) :=
  match depthEnum depth, horizontalEnum horizontal, verticalEnum vertical with
  | Some d, Some h, Some v =>
      match status with
      | Js.Undefined => Some (BoxPosition.mk d h v, None)
      | _ =>
          match statusEnum status with
          | Some s => Some (BoxPosition.mk d h v, Some s)
          | None => None
          end
      end
  | _, _, _ => None
  end.

(** [PATCH /api/boxes/:id/position] *)
Definition patchPosition_mem (id : option Z)
    (depth horizontal vertical status : Js.value) (now tAct : Z)
    (this : MemStorage.t) : box_reply * MemStorage.t :=
  match id with
  | None => (BoxMessage 400 "Invalid box ID", this)
  | Some id =>
      match positionSchema depth horizontal vertical status with
      | None => (BoxMessage 400 "Invalid position data", this)
      | Some (position, status) =>
          let (updatedBox, this) :=
            MemStorage.updateBoxPosition id position status now tAct this in
          match updatedBox with
          | None => (BoxMessage 404 "Box not found", this)
          | Some box => (BoxJson 200 box, this)
          end
      end
  end.

Definition patchPosition_db (id : option Z)
    (depth horizontal vertical status : Js.value) (now tAct : Z)
    (db : Pg.Database) : box_reply * Pg.Database :=
  match id with
  | None => (BoxMessage 400 "Invalid box ID", db)
  | Some id =>
      match positionSchema depth horizontal vertical status with
      | None => (BoxMessage 400 "Invalid position data", db)
      | Some (position, status) =>
          match
            DatabaseStorage.updateBoxPosition id position status now tAct db
          with
          | (Pg.Ok None, db') => (BoxMessage 404 "Box not found", db')
          | (Pg.Ok (Some box), db') => (BoxJson 200 box, db')
          | (Pg.Raise _, db') =>
              (BoxMessage 500 "Failed to update box position", db')
          end
      end
  end.

End Routes.

(** ** Concrete stores

  The scenario of the specification (a kitchen box of Alex) and a few
  small stores reached from the empty one by the operations themselves. *)

Module Example.

Definition kitchen : InsertBox.t :=
  InsertBox.mk 1 "Alex" "Kitchen" "Mugs" (Js.Str "packed").

Definition garage : InsertBox.t :=
  InsertBox.mk 2 "alex" "Garage" "Tools" (Js.Str "staging").

Definition front_left_high : BoxPosition.t :=
  BoxPosition.mk BoxPosition.front BoxPosition.left BoxPosition.high.

(** In memory: one box, created at time 1000. *)
Definition mem1 : MemStorage.t :=
  snd (MemStorage.createBox kitchen 1000 1000 MemStorage.new).

(** ... then loaded onto the truck. *)
Definition mem_loaded : MemStorage.t :=
  snd (MemStorage.updateBoxPosition 1 front_left_high (Some "loaded")
         2000 2000 mem1).

(** Two boxes, the second created after the first. *)
Definition mem2 : MemStorage.t :=
  snd (MemStorage.createBox garage 3000 3000 mem1).

(** Two activities written within the same millisecond. *)
Definition mem_tie : MemStorage.t :=
  snd (MemStorage.createBox garage 1000 1000 mem1).

(** One box of "alex" and the owner "Alex". *)
Definition mem_owner : MemStorage.t :=
  snd (MemStorage.createOwner (InsertOwner.mk "Alex" "#ff0000") 500
         (snd (MemStorage.createBox garage 400 400 MemStorage.new))).

(** The same stores in the database. *)
Definition db1 : Pg.Database :=
  snd (DatabaseStorage.createBox kitchen 1000 1000 Pg.empty).

Definition db_loaded : Pg.Database :=
  snd (DatabaseStorage.updateBoxPosition 1 front_left_high (Some "loaded")
         2000 2000 db1).

Definition db_owner : Pg.Database :=
  snd (DatabaseStorage.createOwner (InsertOwner.mk "Alex" "#ff0000") 500
         (snd (DatabaseStorage.createBox garage 400 400 Pg.empty))).

Definition db2 : Pg.Database :=
  snd (DatabaseStorage.createBox garage 3000 3000 db1).

(** The kitchen box with its QR code. *)
Definition kitchen_qr : InsertQrCode.t := InsertQrCode.mk 1 "boxtracker-1".

Definition mem_qr : MemStorage.t :=
  snd (MemStorage.createQrCode kitchen_qr 1500 mem1).

Definition db_qr : Pg.Database :=
  snd (DatabaseStorage.createQrCode kitchen_qr 1500 db1).

(** A request whose status is not one of the six. *)
Definition attic : InsertBox.t :=
  InsertBox.mk 3 "Sam" "Attic" "Books" (Js.Str "lost").

(** An update that carries a status outside the enum. *)
Definition bogus : PartialInsertBox.t :=
  PartialInsertBox.mk None None None None (Some "bogus").


End Example.

(** ** What the specification asks for, in its own words *)

Module Spec.

(** Position/status coupling: a status change clears the position exactly
    when it leaves "loaded"; otherwise the position is left untouched. *)
Definition position_coupling (before : Box.t) (status : string) (after : Box.t)
    : Prop :=
  (Box.status before = "loaded" -> status <> "loaded" ->
   Box.position after = None)
  /\ (Box.status before <> "loaded" ->
      Box.position after = Box.position before)
  /\ (status = "loaded" -> Box.position after = Box.position before).

(** The six valid status strings. *)
Definition valid_status (s : string) : Prop :=
  s = "packed" \/ s = "staging" \/ s = "loaded" \/ s = "out"
  \/ s = "delivered" \/ s = "unpacked".





(** Newest first: timestamps in descending order. *)
Definition newest_first (l : list Activity.t) : Prop :=
  StronglySorted (fun a b => Activity.timestamp b <= Activity.timestamp a) l.





(** Most recently updated first. *)
Definition recently_updated_first (l : list Box.t) : Prop :=
  StronglySorted (fun a b => Box.updatedAt b <= Box.updatedAt a) l.

(** Partial update: a provided field replaces the stored one, an absent
    one leaves it; id, position and creation time stay; the update time is
    the clock's. *)
Definition merged (before : Box.t) (boxData : PartialInsertBox.t) (now : Z)
    (after : Box.t) : Prop :=
  Box.id after = Box.id before
  /\ Box.position after = Box.position before
  /\ Box.createdAt after = Box.createdAt before
  /\ Box.updatedAt after = now
  /\ Box.boxNumber after
     = match PartialInsertBox.boxNumber boxData with
       | Some n => n | None => Box.boxNumber before end
  /\ Box.owner after
     = match PartialInsertBox.owner boxData with
       | Some o => o | None => Box.owner before end
  /\ Box.room after
     = match PartialInsertBox.room boxData with
       | Some r => r | None => Box.room before end
  /\ Box.contents after
     = match PartialInsertBox.contents boxData with
       | Some c => c | None => Box.contents before end.

(** The owner is in use: some box names it, up to the case of letters. *)
Definition in_use (owner : Owner.t) (boxes : list Box.t) : Prop :=
  exists box,
    In box boxes
    /\ Js.toLowerCase (Box.owner box) = Js.toLowerCase (Owner.name owner).

End Spec.

(** * Properties *)

(** ** The insertion-ordered map *)

Section JsMapFacts.

Context {V : Type}.
Implicit Types (m : JsMap.t V) (k : Z) (v : V).

Lemma get_None_iff k m : JsMap.get k m = None <-> ~ In k (JsMap.keys m).
Proof.
  induction m as [|[k' v'] m IH]; simpl.
  - tauto.
  - destruct (Z.eqb_spec k' k) as [->|Hne].
    + split; [discriminate | intros H; exfalso; apply H; now left].
    + rewrite IH. split; intros H; [intros [E|E]; auto | auto].
Qed.

Lemma get_Some_In k v m : JsMap.get k m = Some v -> In k (JsMap.keys m).
Proof.
  intros H. destruct (in_dec Z.eq_dec k (JsMap.keys m)) as [Hin|Hn]; auto.
  apply get_None_iff in Hn. congruence.
Qed.

Lemma get_set_eq k v m : JsMap.get k (JsMap.set k v m) = Some v.
Proof.
  induction m as [|[k' v'] m IH]; simpl.
  - now rewrite Z.eqb_refl.
  - destruct (Z.eqb_spec k' k) as [->|Hne]; simpl.
    + now rewrite Z.eqb_refl.
    + destruct (Z.eqb_spec k' k); [contradiction | exact IH].
Qed.

Lemma get_set_ne k k' v m :
  k <> k' -> JsMap.get k' (JsMap.set k v m) = JsMap.get k' m.
Proof.
  intros Hne. induction m as [|[k0 v0] m IH]; simpl.
  - destruct (Z.eqb_spec k k'); [contradiction | reflexivity].
  - destruct (Z.eqb_spec k0 k) as [->|Hk]; simpl.
    + destruct (Z.eqb_spec k k'); [contradiction | reflexivity].
    + destruct (Z.eqb_spec k0 k'); [reflexivity | exact IH].
Qed.

Lemma set_fresh k v m :
  ~ In k (JsMap.keys m) -> JsMap.set k v m = (m ++ [(k, v)])%list.
Proof.
  induction m as [|[k' v'] m IH]; simpl; intros Hn.
  - reflexivity.
  - destruct (Z.eqb_spec k' k) as [->|Hne].
    + exfalso. apply Hn. now left.
    + f_equal. apply IH. intros Hin. apply Hn. now right.
Qed.

Lemma keys_set_present k v m :
  In k (JsMap.keys m) -> JsMap.keys (JsMap.set k v m) = JsMap.keys m.
Proof.
  induction m as [|[k' v'] m IH]; simpl; intros Hin.
  - contradiction.
  - destruct (Z.eqb_spec k' k) as [->|Hne]; simpl.
    + reflexivity.
    + f_equal. apply IH. destruct Hin; [contradiction | assumption].
Qed.

Lemma keys_set_fresh k v m :
  ~ In k (JsMap.keys m) ->
  JsMap.keys (JsMap.set k v m) = (JsMap.keys m ++ [k])%list.
Proof.
  intros Hn. rewrite (set_fresh _ _ _ Hn). unfold JsMap.keys.
  now rewrite map_app.
Qed.

Lemma keys_delete k m :
  JsMap.keys (JsMap.delete k m) = filter (fun k' => negb (k' =? k)) (JsMap.keys m).
Proof.
  induction m as [|[k' v'] m IH]; simpl.
  - reflexivity.
  - destruct (k' =? k); simpl; now rewrite ?IH.
Qed.

Lemma get_delete_eq k m : JsMap.get k (JsMap.delete k m) = None.
Proof.
  apply get_None_iff. rewrite keys_delete. intros Hin.
  apply filter_In in Hin as [_ Hk]. now rewrite Z.eqb_refl in Hk.
Qed.

Lemma get_delete_ne k k' m :
  k <> k' -> JsMap.get k' (JsMap.delete k m) = JsMap.get k' m.
Proof.
  intros Hne. induction m as [|[k0 v0] m IH]; simpl.
  - reflexivity.
  - destruct (Z.eqb_spec k0 k) as [->|Hk]; simpl.
    + destruct (Z.eqb_spec k k'); [contradiction | exact IH].
    + destruct (Z.eqb_spec k0 k'); [reflexivity | exact IH].
Qed.

Lemma below_fresh c m : MemStorage.below c m -> ~ In c (JsMap.keys m).
Proof.
  unfold MemStorage.below. rewrite Forall_forall. intros H Hin.
  specialize (H _ Hin). lia.
Qed.

Lemma below_set c k v m :
  MemStorage.below c m -> k < c -> MemStorage.below c (JsMap.set k v m).
Proof.
  unfold MemStorage.below. intros H Hk.
  destruct (in_dec Z.eq_dec k (JsMap.keys m)) as [Hin|Hn].
  - now rewrite keys_set_present.
  - rewrite keys_set_fresh by assumption. apply Forall_app. split; auto.
Qed.

Lemma below_mono c c' m :
  MemStorage.below c m -> c <= c' -> MemStorage.below c' m.
Proof.
  unfold MemStorage.below. intros H Hc. eapply Forall_impl; [|exact H].
  simpl. intros. lia.
Qed.

Lemma below_delete c k m :
  MemStorage.below c m -> MemStorage.below c (JsMap.delete k m).
Proof.
  unfold MemStorage.below. rewrite keys_delete, !Forall_forall.
  intros H x Hx. apply filter_In in Hx as [Hx _]. auto.
Qed.

Lemma nodup_set k v m :
  NoDup (JsMap.keys m) -> NoDup (JsMap.keys (JsMap.set k v m)).
Proof.
  intros H. destruct (in_dec Z.eq_dec k (JsMap.keys m)) as [Hin|Hn].
  - now rewrite keys_set_present.
  - rewrite keys_set_fresh by assumption.
    apply NoDup_app; [assumption | repeat constructor; simpl; tauto |].
    intros x Hx [<-|[]]. contradiction.
Qed.

Lemma nodup_keys_filter (f : Z * V -> bool) m :
  NoDup (JsMap.keys m) -> NoDup (JsMap.keys (filter f m)).
Proof.
  unfold JsMap.keys. induction m as [|e m IH]; simpl; intros H.
  - constructor.
  - inversion H as [|? ? Hn Hnd]; subst. destruct (f e); simpl; auto.
    constructor; auto. intros Hin. apply in_map_iff in Hin as [e' [E He']].
    apply filter_In in He' as [He' _]. apply Hn. rewrite <- E.
    now apply in_map.
Qed.

Lemma below_filter c (f : Z * V -> bool) m :
  MemStorage.below c m -> MemStorage.below c (filter f m).
Proof.
  unfold MemStorage.below, JsMap.keys. rewrite !Forall_forall.
  intros H k Hk. apply H. apply in_map_iff in Hk as [e [<- He]].
  apply filter_In in He as [He _]. now apply in_map.
Qed.

Lemma nodup_delete k m :
  NoDup (JsMap.keys m) -> NoDup (JsMap.keys (JsMap.delete k m)).
Proof. intros H. rewrite keys_delete. now apply NoDup_filter. Qed.

End JsMapFacts.

(** ** [MemStorage]: the log grows at its end, the invariant is kept *)

Section MemFacts.

Import MemStorage.

Lemma createActivity_appends d tAct this :
  below (activityCounter this) (activities this) ->
  createActivity d tAct this =
    (let a :=
       Activity.mk (activityCounter this) (InsertActivity.boxId d)
         (InsertActivity.type d) (InsertActivity.description d) tAct in
     (a,
      with_activities (activities this ++ [(activityCounter this, a)])%list
        (with_activityCounter (activityCounter this + 1) this))).
Proof.
  intros Hb. unfold createActivity. simpl.
  now rewrite (set_fresh _ _ _ (below_fresh _ _ Hb)).
Qed.

Lemma get_below {V} k (v : V) c m :
  below c m -> JsMap.get k m = Some v -> k < c.
Proof.
  unfold below. rewrite Forall_forall. intros H Hg.
  apply H. eapply get_Some_In; eauto.
Qed.

Lemma wf_new : wf new.
Proof. constructor; simpl; constructor. Qed.

Lemma wf_createActivity d tAct this :
  wf this -> wf (snd (createActivity d tAct this)).
Proof.
  intros []. constructor; simpl; auto.
  - apply below_set; [eapply below_mono; eauto|]; lia.
  - now apply nodup_set.
Qed.

Lemma wf_with_boxes_set id box this :
  wf this -> id < boxCounter this ->
  wf (with_boxes (JsMap.set id box (boxes this)) this).
Proof.
  intros [] Hid. constructor; simpl; auto.
  - now apply below_set.
  - now apply nodup_set.
Qed.

Lemma wf_createBox boxData now tAct this :
  wf this -> wf (snd (createBox boxData now tAct this)).
Proof.
  intros H. unfold createBox.
  match goal with
  | |- context [createActivity ?d ?t ?s] =>
      pose proof (wf_createActivity d t s) as Hw;
      destruct (createActivity d t s) as [a s']
  end.
  simpl in *. apply Hw. clear Hw.
  destruct H. constructor; simpl; auto.
  - apply below_set; [eapply below_mono; eauto|]; lia.
  - now apply nodup_set.
Qed.

Ltac wf_update H :=
  match goal with
  | |- context [createActivity ?d ?t ?s] =>
      pose proof (wf_createActivity d t s) as Hw;
      destruct (createActivity d t s) as [a s'];
      simpl in *; apply Hw; clear Hw;
      apply wf_with_boxes_set; [exact H|];
      eapply get_below; [apply (wf_boxes _ H) | eassumption]
  end.

Lemma wf_updateBox id boxData now tAct this :
  wf this -> wf (snd (updateBox id boxData now tAct this)).
Proof.
  intros H. unfold updateBox.
  destruct (JsMap.get id (boxes this)) as [box|] eqn:Hg; [|exact H].
  wf_update H.
Qed.

Lemma wf_updateBoxPosition id position status now tAct this :
  wf this -> wf (snd (updateBoxPosition id position status now tAct this)).
Proof.
  intros H. unfold updateBoxPosition.
  destruct (JsMap.get id (boxes this)) as [box|] eqn:Hg; [|exact H].
  wf_update H.
Qed.

Lemma wf_updateBoxStatus id status now tAct this :
  wf this -> wf (snd (updateBoxStatus id status now tAct this)).
Proof.
  intros H. unfold updateBoxStatus.
  destruct (JsMap.get id (boxes this)) as [box|] eqn:Hg; [|exact H].
  wf_update H.
Qed.

(** The [forEach] of [deleteBox] only touches [qrCodes], and what it
    removes are the keys of the entries that belong to the box. *)
Lemma qr_sweep_spec id es this :
  qr_sweep id es this =
    with_qrCodes
      (filter (fun e => negb (swept id es (fst e))) (qrCodes this)) this.
Proof.
  revert this. induction es as [|[k q] es IH]; intros this; simpl.
  - unfold swept; simpl. destruct this; unfold with_qrCodes; simpl.
    f_equal. induction qrCodes0 as [|e l IHl]; simpl; congruence.
  - unfold qr_sweep in *. simpl. rewrite IH. clear IH.
    destruct (QrCode.boxId q =? id); simpl.
    + unfold with_qrCodes, JsMap.delete; simpl. f_equal.
      induction (qrCodes this) as [|e l IHl]; simpl; [reflexivity|].
      rewrite (Z.eqb_sym k (fst e)).
      destruct (fst e =? k); simpl; [exact IHl|].
      destruct (swept id es (fst e)); simpl; now rewrite IHl.
    + reflexivity.
Qed.

Lemma swept_self id (m : JsMap.t QrCode.t) :
  NoDup (JsMap.keys m) ->
  filter (fun e => negb (swept id m (fst e))) m =
    filter (fun e => negb (QrCode.boxId (snd e) =? id)) m.
Proof.
  intros Hnd. apply filter_ext_in. intros [k q] Hin. simpl. f_equal.
  unfold swept. destruct (QrCode.boxId q =? id) eqn:Hq.
  - apply existsb_exists. exists (k, q). simpl.
    now rewrite Hq, Z.eqb_refl.
  - apply not_true_is_false. intros Hex.
    apply existsb_exists in Hex as [[k' q'] [Hin' Hc]]. simpl in Hc.
    apply andb_prop in Hc as [Hq' Hk]. apply Z.eqb_eq in Hk. subst k'.
    assert (q' = q); [|congruence].
    clear -Hnd Hin Hin'. induction m as [|[k0 q0] m IH]; simpl in *.
    + contradiction.
    + inversion Hnd as [|? ? Hn Hnd']; subst.
      destruct Hin as [E|Hin], Hin' as [E'|Hin'].
      * congruence.
      * inversion E; subst. exfalso. apply Hn.
        change k with (fst (k, q')). now apply in_map.
      * inversion E'; subst. exfalso. apply Hn.
        change k with (fst (k, q)). now apply in_map.
      * auto.
Qed.

Lemma wf_deleteBox id tAct this :
  wf this -> wf (snd (deleteBox id tAct this)).
Proof.
  intros H. unfold deleteBox.
  destruct (JsMap.get id (boxes this)) as [box|] eqn:Hg; [|exact H].
  rewrite qr_sweep_spec.
  match goal with
  | |- context [createActivity ?d ?t ?s] =>
      pose proof (wf_createActivity d t s) as Hw;
      destruct (createActivity d t s) as [a s']
  end.
  simpl in *. apply Hw. clear Hw. destruct H.
  constructor; simpl; auto.
  - now apply below_delete.
  - now apply below_filter.
  - now apply nodup_delete.
  - now apply nodup_keys_filter.
Qed.

Lemma wf_createQrCode d now this : wf this -> wf (snd (createQrCode d now this)).
Proof.
  intros []. constructor; simpl; auto.
  - apply below_set; [eapply below_mono; eauto|]; lia.
  - now apply nodup_set.
Qed.

Lemma wf_createOwner d now this : wf this -> wf (snd (createOwner d now this)).
Proof.
  intros []. constructor; simpl; auto.
  - apply below_set; [eapply below_mono; eauto|]; lia.
  - now apply nodup_set.
Qed.

Lemma wf_updateOwner id d now this :
  wf this -> wf (snd (updateOwner id d now this)).
Proof.
  intros H. unfold updateOwner.
  destruct (JsMap.get id (owners this)) as [o|] eqn:Hg; [|exact H].
  destruct H. constructor; simpl; auto.
  - apply below_set; auto. eapply get_below; eauto.
  - now apply nodup_set.
Qed.

Lemma wf_deleteOwner id this : wf this -> wf (snd (deleteOwner id this)).
Proof.
  intros H. unfold deleteOwner.
  destruct (JsMap.get id (owners this)) as [o|] eqn:Hg; [|exact H].
  match goal with |- context [if ?c then _ else _] => destruct c end;
    [exact H|].
  destruct H. constructor; simpl; auto.
  - now apply below_delete.
  - now apply nodup_delete.
Qed.

(** Every store the program can be in satisfies the invariant. *)
Lemma reachable_wf this : reachable this -> wf this.
Proof.
  induction 1;
    auto using wf_new, wf_createBox, wf_updateBox, wf_updateBoxPosition,
      wf_updateBoxStatus, wf_deleteBox, wf_createActivity, wf_createQrCode,
      wf_createOwner, wf_updateOwner, wf_deleteOwner.
Qed.

End MemFacts.

(** ** The tables: statements that succeed on a consistent database *)

Section PgFacts.

Import Pg.

Lemma existsb_fresh {A} (key : A -> Z) c (rows : list A) :
  Forall (fun row => key row < c) rows ->
  existsb (fun row => key row =? c) rows = false.
Proof.
  induction 1 as [|row rows Hlt _ IH]; simpl; [reflexivity|].
  rewrite IH. destruct (Z.eqb_spec (key row) c); [lia | reflexivity].
Qed.

Lemma has_box_In id db :
  has_box id db = true <-> In id (map Box.id (boxes db)).
Proof.
  unfold has_box. rewrite existsb_exists, in_map_iff.
  split; intros [row [H1 H2]]; exists row.
  - apply Z.eqb_eq in H2. tauto.
  - rewrite Z.eqb_eq. tauto.
Qed.

Lemma first_filter_Some {A} (f : A -> bool) rows row :
  DatabaseStorage.first (filter f rows) = Some row -> In row rows /\ f row = true.
Proof.
  unfold DatabaseStorage.first. intros H. apply filter_In.
  destruct (filter f rows); simpl in H; [discriminate|].
  inversion H; subst. now left.
Qed.

Lemma first_filter_None {A} (f : A -> bool) rows :
  DatabaseStorage.first (filter f rows) = None <-> existsb f rows = false.
Proof.
  unfold DatabaseStorage.first.
  induction rows as [|row rows IH]; simpl; [tauto|].
  destruct (f row); simpl; [split; discriminate | exact IH].
Qed.

Lemma found_has_box id db box :
  DatabaseStorage.first (filter (fun row => Box.id row =? id) (boxes db))
    = Some box ->
  has_box id db = true /\ Box.id box = id.
Proof.
  intros H. apply first_filter_Some in H as [Hin Hid].
  apply Z.eqb_eq in Hid. split; [|assumption].
  apply has_box_In. rewrite <- Hid. now apply in_map.
Qed.

(** An update that keeps the primary key keeps the set of ids. *)
Lemma ids_update (set : Box.t -> Box.t) (where_ : Box.t -> bool) rows :
  (forall row, Box.id (set row) = Box.id row) ->
  map Box.id (map (fun row => if where_ row then set row else row) rows)
    = map Box.id rows.
Proof.
  intros Hset. rewrite map_map. apply map_ext.
  intros row. destruct (where_ row); auto.
Qed.

Lemma first_map {A B} (f : A -> B) rows :
  DatabaseStorage.first (map f rows) = option_map f (DatabaseStorage.first rows).
Proof. destruct rows; reflexivity. Qed.

(** Binding: a statement whose numbers fit runs; one with a number that
    does not fit raises and leaves the database alone. *)
Lemma bound_fits {A} params (run : query A) db :
  forallb int4 params = true -> bound params run db = run db.
Proof. intros H. unfold bound. now rewrite H. Qed.

Lemma bound_out_of_range {A} params (run : query A) db :
  forallb int4 params = false ->
  bound params run db = (Raise numeric_value_out_of_range, db).
Proof. intros H. unfold bound. now rewrite H. Qed.

Lemma bound_one {A} n (run : query A) db :
  bound [n] run db
  = if int4 n then run db else (Raise numeric_value_out_of_range, db).
Proof. unfold bound. simpl. now rewrite andb_true_r. Qed.

Lemma int4_spec n : int4 n = true <-> -2147483648 <= n <= 2147483647.
Proof. unfold int4. rewrite andb_true_iff, !Z.leb_le. reflexivity. Qed.

(** An activity without a box, or for a box that is there, is stored. *)
Lemma insert_activities_ok (values : Z -> Activity.t) db :
  Forall (fun row => Activity.id row < activities_id_seq db) (activities db) ->
  match Activity.boxId (values (activities_id_seq db)) with
  | Some b => int4 b = true /\ has_box b db = true
  | None => True
  end ->
  insert_activities values db =
    (Ok (values (activities_id_seq db)),
     with_activities (activities db ++ [values (activities_id_seq db)])%list
       (with_activities_id_seq (activities_id_seq db + 1) db)).
Proof.
  intros Hseq Hfk. unfold insert_activities. cbv zeta.
  destruct (Activity.boxId (values (activities_id_seq db))) as [b|] eqn:Hb.
  - destruct Hfk as [Hfit Hfk]. simpl optional. rewrite bound_one, Hfit.
    cbn [activities with_activities_id_seq].
    rewrite (existsb_fresh Activity.id _ _ Hseq).
    unfold has_box in *. simpl. now rewrite Hfk.
  - simpl optional. rewrite bound_fits by reflexivity.
    cbn [activities with_activities_id_seq].
    now rewrite (existsb_fresh Activity.id _ _ Hseq).
Qed.

Lemma insert_boxes_ok (values : Z -> Box.t) db :
  Forall (fun row => Box.id row < boxes_id_seq db) (boxes db) ->
  int4 (Box.boxNumber (values (boxes_id_seq db))) = true ->
  insert_boxes values db =
    (Ok (values (boxes_id_seq db)),
     with_boxes (boxes db ++ [values (boxes_id_seq db)])%list
       (with_boxes_id_seq (boxes_id_seq db + 1) db)).
Proof.
  intros Hseq Hfit. unfold insert_boxes. cbv zeta. rewrite bound_one, Hfit.
  unfold has_box. simpl. now rewrite (existsb_fresh Box.id _ _ Hseq).
Qed.

(** A box number that does not fit the column: nothing is inserted. *)
Lemma insert_boxes_out_of_range (values : Z -> Box.t) db :
  int4 (Box.boxNumber (values (boxes_id_seq db))) = false ->
  insert_boxes values db = (Raise numeric_value_out_of_range, db).
Proof.
  intros Hfit. unfold insert_boxes. cbv zeta. now rewrite bound_one, Hfit.
Qed.

(** After [DELETE FROM boxes WHERE id = ...] no row has that id. *)
Lemma delete_boxes_gone id db :
  int4 id = true ->
  has_box id (snd (delete_boxes [id] (fun row => Box.id row =? id) db)) = false.
Proof.
  intros Hfit. unfold delete_boxes. rewrite bound_one, Hfit.
  unfold has_box. simpl.
  apply not_true_is_false. intros H.
  apply existsb_exists in H as [row [Hin Hid]].
  apply filter_In in Hin as [_ Hn]. now rewrite Hid in Hn.
Qed.

(** Inserting an activity for a box that is not there: the key is
    violated, after the sequence value was taken. *)
Lemma insert_activities_orphan (values : Z -> Activity.t) b db :
  Activity.boxId (values (activities_id_seq db)) = Some b ->
  int4 b = true ->
  has_box b db = false ->
  exists e,
    insert_activities values db =
      (Raise e, with_activities_id_seq (activities_id_seq db + 1) db).
Proof.
  intros Hb Hfit Hno. unfold insert_activities. cbv zeta.
  rewrite Hb. simpl optional. rewrite bound_one, Hfit. simpl.
  destruct (existsb _ (activities db)); [eauto|].
  unfold has_box in *. simpl. rewrite Hno. eauto.
Qed.

(** The ids removed by [DELETE FROM boxes WHERE id = ...]. *)
Lemma gone_ids id rows b :
  existsb (fun row => Box.id row =? id) rows = true ->
  existsb (Z.eqb b) (map Box.id (filter (fun row => Box.id row =? id) rows))
  = (b =? id).
Proof.
  intros Hex. destruct (Z.eqb_spec b id) as [->|Hne].
  - apply existsb_exists in Hex as [row [Hin Hid]].
    apply existsb_exists. exists (Box.id row). split.
    + apply in_map. apply filter_In. tauto.
    + apply Z.eqb_eq in Hid. now apply Z.eqb_eq.
  - apply not_true_is_false. intros H.
    apply existsb_exists in H as [k [Hin Hk]]. apply Z.eqb_eq in Hk. subst k.
    apply in_map_iff in Hin as [row [Hid Hrow]].
    apply filter_In in Hrow as [_ Hrow]. apply Z.eqb_eq in Hrow. congruence.
Qed.

End PgFacts.

(** ** [DatabaseStorage]: what each box operation evaluates to *)

Section DatabaseFacts.

Import Pg DatabaseStorage.

Lemma getBox_eval id db :
  getBox id db
  = if int4 id
    then (Ok (first (filter (fun row => Box.id row =? id) (boxes db))), db)
    else (Raise numeric_value_out_of_range, db).
Proof.
  unfold getBox, bind, select_boxes. rewrite bound_one.
  now destruct (int4 id).
Qed.

Lemma getBox_run id db :
  int4 id = true ->
  getBox id db
  = (Ok (first (filter (fun row => Box.id row =? id) (boxes db))), db).
Proof. intros H. now rewrite getBox_eval, H. Qed.

(** A lookup that answers was asked with an id that fits the column. *)
Lemma getBox_fits id db r : fst (getBox id db) = Ok r -> int4 id = true.
Proof. rewrite getBox_eval. now destruct (int4 id). Qed.

Lemma getBox_found id db box :
  fst (getBox id db) = Ok (Some box) ->
  first (filter (fun row => Box.id row =? id) (boxes db)) = Some box.
Proof.
  intros H. pose proof (getBox_fits _ _ _ H) as Hfit.
  rewrite getBox_run in H by assumption. simpl in H. congruence.
Qed.

Lemma getBox_absent id db :
  int4 id = true ->
  has_box id db = false <-> fst (getBox id db) = Ok None.
Proof.
  intros Hfit. rewrite getBox_run by assumption. simpl. unfold has_box.
  rewrite <- first_filter_None. split; congruence.
Qed.

(** The shape shared by the three updates: read the box, update the rows
    with its id, log, return the first updated row. *)
Lemma update_found id params (set : Box.t -> Box.t) (act : InsertActivity.t)
    tAct db box :
  activities_fresh db ->
  int4 id = true ->
  forallb int4 params = true ->
  (forall row, Box.id (set row) = Box.id row) ->
  InsertActivity.boxId act = Some id ->
  first (filter (fun row => Box.id row =? id) (boxes db)) = Some box ->
  bind (update_boxes params set (fun row => Box.id row =? id))
    (fun updated => bind (createActivity act tAct) (fun _ => ret (first updated)))
    db
  = (Ok (Some (set box)),
     with_activities
       (activities db
          ++ [Activity.mk (activities_id_seq db) (Some id)
                (InsertActivity.type act) (InsertActivity.description act) tAct])%list
       (with_activities_id_seq (activities_id_seq db + 1)
          (with_boxes
             (map (fun row => if Box.id row =? id then set row else row)
                (boxes db))
             db))).
Proof.
  intros Hfresh Hfit Hparams Hset Hact Hfound.
  unfold bind at 1. unfold update_boxes. rewrite bound_fits by assumption.
  unfold bind, createActivity.
  rewrite insert_activities_ok; simpl.
  - rewrite first_map, Hfound, Hact. reflexivity.
  - exact Hfresh.
  - rewrite Hact. split; [assumption|].
    apply has_box_In. simpl. rewrite ids_update by assumption.
    apply has_box_In. now apply found_has_box in Hfound.
Qed.

Lemma set_updatedAt_id now row : Box.id (Shared.set_updatedAt now row) = Box.id row.
Proof. reflexivity. Qed.

Lemma updateBox_found id boxData now tAct db box :
  activities_fresh db ->
  forallb int4 (optional (PartialInsertBox.boxNumber boxData)) = true ->
  fst (getBox id db) = Ok (Some box) ->
  updateBox id boxData now tAct db =
    (Ok (Some (Shared.set_updatedAt now (Shared.typeSafeData boxData box))),
     with_activities
       (activities db
          ++ [Activity.mk (activities_id_seq db) (Some id) "updated"
                ("Box #" ++ Js.toString (Box.boxNumber box) ++ " updated") tAct])%list
       (with_activities_id_seq (activities_id_seq db + 1)
          (with_boxes
             (map (fun row =>
                     if Box.id row =? id
                     then Shared.set_updatedAt now (Shared.typeSafeData boxData row)
                     else row)
                (boxes db))
             db))).
Proof.
  intros Hfresh Hnum Hfound. pose proof (getBox_fits _ _ _ Hfound) as Hfit.
  apply getBox_found in Hfound.
  unfold updateBox. unfold bind at 1. rewrite getBox_run, Hfound by assumption.
  rewrite (update_found id _ _ _ tAct db box Hfresh); auto.
  simpl. now rewrite Hfit.
Qed.

(** A new box number that does not fit the column: the update is refused
    when its numbers are bound, nothing is written or logged. *)
Lemma updateBox_out_of_range id boxData now tAct db box :
  forallb int4 (optional (PartialInsertBox.boxNumber boxData)) = false ->
  fst (getBox id db) = Ok (Some box) ->
  updateBox id boxData now tAct db = (Raise numeric_value_out_of_range, db).
Proof.
  intros Hnum Hfound. pose proof (getBox_fits _ _ _ Hfound) as Hfit.
  apply getBox_found in Hfound.
  unfold updateBox. unfold bind at 1. rewrite getBox_run, Hfound by assumption.
  unfold bind at 1. unfold update_boxes. rewrite bound_out_of_range; [reflexivity|].
  simpl. rewrite Hnum. apply andb_false_r.
Qed.

Lemma updateBoxPosition_found id position status now tAct db box :
  activities_fresh db ->
  fst (getBox id db) = Ok (Some box) ->
  updateBoxPosition id position status now tAct db =
    (Ok (Some (Shared.set_updatedAt now (Shared.set_position position status box))),
     with_activities
       (activities db
          ++ [Activity.mk (activities_id_seq db) (Some id)
                (InsertActivity.type (Shared.positionActivity id box position status))
                (InsertActivity.description
                   (Shared.positionActivity id box position status))
                tAct])%list
       (with_activities_id_seq (activities_id_seq db + 1)
          (with_boxes
             (map (fun row =>
                     if Box.id row =? id
                     then Shared.set_updatedAt now
                            (Shared.set_position position status row)
                     else row)
                (boxes db))
             db))).
Proof.
  intros Hfresh Hfound. pose proof (getBox_fits _ _ _ Hfound) as Hfit.
  apply getBox_found in Hfound.
  unfold updateBoxPosition. unfold bind at 1.
  rewrite getBox_run, Hfound by assumption.
  rewrite (update_found id _ _ _ tAct db box Hfresh); auto.
  - simpl. now rewrite Hfit.
  - unfold Shared.positionActivity.
    now destruct (match status with Some s => _ | None => _ end).
Qed.

Lemma updateBoxStatus_found id status now tAct db box :
  activities_fresh db ->
  fst (getBox id db) = Ok (Some box) ->
  updateBoxStatus id status now tAct db =
    (Ok (Some (Shared.set_updatedAt now (Shared.set_status box status box))),
     with_activities
       (activities db
          ++ [Activity.mk (activities_id_seq db) (Some id)
                (Js.toLowerCase status)
                ("Box #" ++ Js.toString (Box.boxNumber box) ++ " marked as "
                   ++ status)
                tAct])%list
       (with_activities_id_seq (activities_id_seq db + 1)
          (with_boxes
             (map (fun row =>
                     if Box.id row =? id
                     then Shared.set_updatedAt now (Shared.set_status box status row)
                     else row)
                (boxes db))
             db))).
Proof.
  intros Hfresh Hfound. pose proof (getBox_fits _ _ _ Hfound) as Hfit.
  apply getBox_found in Hfound.
  unfold updateBoxStatus. unfold bind at 1.
  rewrite getBox_run, Hfound by assumption.
  rewrite (update_found id _ _ _ tAct db box Hfresh); auto.
  simpl. now rewrite Hfit.
Qed.

Lemma createBox_eval boxData now tAct db :
  boxes_fresh db ->
  activities_fresh db ->
  int4 (boxes_id_seq db) = true ->
  int4 (InsertBox.boxNumber boxData) = true ->
  createBox boxData now tAct db =
    (let box :=
       Box.mk (boxes_id_seq db) (InsertBox.boxNumber boxData)
         (InsertBox.owner boxData) (InsertBox.room boxData)
         (InsertBox.contents boxData) (Shared.boxStatus boxData) None now now in
     (Ok box,
      with_activities
        (activities db
           ++ [Activity.mk (activities_id_seq db) (Some (boxes_id_seq db))
                 "created"
                 ("Box #" ++ Js.toString (InsertBox.boxNumber boxData) ++ " created")
                 tAct])%list
        (with_activities_id_seq (activities_id_seq db + 1)
           (with_boxes (boxes db ++ [box])%list
              (with_boxes_id_seq (boxes_id_seq db + 1) db))))).
Proof.
  intros Hb Ha Hseq Hnum. unfold createBox. unfold bind at 1.
  rewrite insert_boxes_ok by assumption.
  unfold bind, createActivity. rewrite insert_activities_ok; simpl; auto.
  split; [assumption|].
  apply has_box_In. simpl. rewrite map_app, in_app_iff. right. now left.
Qed.

(** A box number that does not fit the column: [createBox] raises before
    anything is written. *)
Lemma createBox_out_of_range boxData now tAct db :
  int4 (InsertBox.boxNumber boxData) = false ->
  createBox boxData now tAct db = (Raise numeric_value_out_of_range, db).
Proof.
  intros Hnum. unfold createBox. unfold bind at 1.
  now rewrite insert_boxes_out_of_range.
Qed.

(** On an existing box, [deleteBox] removes the row and then fails to log:
    the activity it inserts references the id that is gone. *)
Lemma deleteBox_found_raises id tAct db box :
  fst (getBox id db) = Ok (Some box) ->
  exists e,
    deleteBox id tAct db =
      (Raise e,
       with_activities_id_seq (activities_id_seq db + 1)
         (snd (delete_boxes [id] (fun row => Box.id row =? id) db))).
Proof.
  intros Hfound. pose proof (getBox_fits _ _ _ Hfound) as Hfit.
  apply getBox_found in Hfound.
  unfold deleteBox. unfold bind at 1. rewrite getBox_run, Hfound by assumption.
  unfold bind at 1.
  pose proof (delete_boxes_gone id db Hfit) as Hgone.
  destruct (delete_boxes [id] (fun row => Box.id row =? id) db) as [r db'] eqn:Hd.
  assert (r = Ok tt /\ activities_id_seq db' = activities_id_seq db) as [-> Hseq].
  { unfold delete_boxes in Hd. rewrite bound_one, Hfit in Hd.
    inversion Hd. split; reflexivity. }
  simpl in Hgone. unfold bind, createActivity.
  destruct (insert_activities_orphan
              (fun id0 => Activity.mk id0 (Some id) "deleted"
                 ("Box #" ++ Js.toString (Box.boxNumber box) ++ " deleted") tAct)
              id db' eq_refl Hfit Hgone) as [e He].
  simpl in He |- *. rewrite He. exists e. now rewrite Hseq.
Qed.

(** ... and these are the tables it leaves behind. *)
Lemma deleteBox_found_tables id tAct db box :
  fst (getBox id db) = Ok (Some box) ->
  boxes (snd (deleteBox id tAct db))
  = filter (fun row => negb (Box.id row =? id)) (boxes db)
  /\ activities (snd (deleteBox id tAct db))
     = filter
         (fun row =>
            match Activity.boxId row with
            | Some b => negb (b =? id)
            | None => true
            end)
         (activities db)
  /\ qr_codes (snd (deleteBox id tAct db))
     = filter (fun row => negb (QrCode.boxId row =? id)) (qr_codes db)
  /\ owners (snd (deleteBox id tAct db)) = owners db.
Proof.
  intros Hfound. pose proof (getBox_fits _ _ _ Hfound) as Hfit.
  destruct (deleteBox_found_raises id tAct db box Hfound) as [e He].
  rewrite He. cbn [snd]. unfold delete_boxes. rewrite bound_one, Hfit.
  apply getBox_found in Hfound.
  assert (existsb (fun row => Box.id row =? id) (boxes db) = true) as Hex.
  { destruct (existsb (fun row => Box.id row =? id) (boxes db)) eqn:E;
      [reflexivity|].
    apply first_filter_None in E. congruence. }
  simpl. split; [reflexivity|]. split; [|split; [|reflexivity]].
  - apply filter_ext. intros row.
    destruct (Activity.boxId row) as [b|]; [|reflexivity].
    now rewrite (gone_ids id (boxes db) b Hex).
  - apply filter_ext. intros row.
    now rewrite (gone_ids id (boxes db) (QrCode.boxId row) Hex).
Qed.

(** An id that fits the column and that no box has: every call answers
    not-found and leaves the database alone. *)
Lemma update_absent id db :
  int4 id = true ->
  has_box id db = false ->
  forall boxData position status s now tAct,
    updateBox id boxData now tAct db = (Ok None, db)
    /\ updateBoxPosition id position status now tAct db = (Ok None, db)
    /\ updateBoxStatus id s now tAct db = (Ok None, db)
    /\ deleteBox id tAct db = (Ok false, db).
Proof.
  intros Hfit Hno. apply getBox_absent in Hno; [|assumption].
  rewrite getBox_run in Hno by assumption.
  simpl in Hno. inversion Hno as [Hnone]. intros.
  repeat split;
    [unfold updateBox | unfold updateBoxPosition | unfold updateBoxStatus
    | unfold deleteBox];
    unfold bind at 1; now rewrite getBox_run, Hnone.
Qed.

(** An id that does not fit the column: the lookup that opens every call
    is refused, the call raises and leaves the database alone. *)
Lemma update_out_of_range id db :
  int4 id = false ->
  forall boxData position status s now tAct,
    updateBox id boxData now tAct db = (Raise numeric_value_out_of_range, db)
    /\ updateBoxPosition id position status now tAct db
       = (Raise numeric_value_out_of_range, db)
    /\ updateBoxStatus id s now tAct db = (Raise numeric_value_out_of_range, db)
    /\ deleteBox id tAct db = (Raise numeric_value_out_of_range, db).
Proof.
  intros Hfit. intros.
  repeat split;
    [unfold updateBox | unfold updateBoxPosition | unfold updateBoxStatus
    | unfold deleteBox];
    unfold bind at 1; now rewrite getBox_eval, Hfit.
Qed.

(** The lookups of owners and QR codes, and [deleteOwner]. *)
Lemma getOwner_eval id db :
  getOwner id db
  = if int4 id
    then (Ok (first (filter (fun row => Owner.id row =? id) (owners db))), db)
    else (Raise numeric_value_out_of_range, db).
Proof.
  unfold getOwner, bind, select_owners. rewrite bound_one.
  now destruct (int4 id).
Qed.

Lemma getOwner_run id db :
  int4 id = true ->
  getOwner id db
  = (Ok (first (filter (fun row => Owner.id row =? id) (owners db))), db).
Proof. intros H. now rewrite getOwner_eval, H. Qed.

Lemma getOwner_fits id db r : fst (getOwner id db) = Ok r -> int4 id = true.
Proof. rewrite getOwner_eval. now destruct (int4 id). Qed.

Lemma getOwner_found id db owner :
  fst (getOwner id db) = Ok (Some owner) ->
  first (filter (fun row => Owner.id row =? id) (owners db)) = Some owner.
Proof.
  intros H. pose proof (getOwner_fits _ _ _ H) as Hfit.
  rewrite getOwner_run in H by assumption. simpl in H. congruence.
Qed.

Lemma getQrCodeByBoxId_eval boxId db :
  getQrCodeByBoxId boxId db
  = if int4 boxId
    then (Ok (first (filter (fun row => QrCode.boxId row =? boxId)
                       (qr_codes db))),
          db)
    else (Raise numeric_value_out_of_range, db).
Proof.
  unfold getQrCodeByBoxId, bind, select_qr_codes. rewrite bound_one.
  now destruct (int4 boxId).
Qed.

Lemma getQrCodeByBoxId_run boxId db :
  int4 boxId = true ->
  getQrCodeByBoxId boxId db
  = (Ok (first (filter (fun row => QrCode.boxId row =? boxId) (qr_codes db))),
     db).
Proof. intros H. now rewrite getQrCodeByBoxId_eval, H. Qed.

Lemma createQrCode_eval qrCodeData now db :
  Forall (fun row => QrCode.id row < qr_codes_id_seq db) (qr_codes db) ->
  createQrCode qrCodeData now db
  = if int4 (InsertQrCode.boxId qrCodeData)
    then
      if has_box (InsertQrCode.boxId qrCodeData) db
      then
        (let qrCode :=
           QrCode.mk (qr_codes_id_seq db) (InsertQrCode.boxId qrCodeData)
             (InsertQrCode.data qrCodeData) now in
         (Ok qrCode,
          with_qr_codes (qr_codes db ++ [qrCode])%list
            (with_qr_codes_id_seq (qr_codes_id_seq db + 1) db)))
      else
        (Raise (foreign_key_violation "qr_codes_box_id_boxes_id_fk"),
         with_qr_codes_id_seq (qr_codes_id_seq db + 1) db)
    else (Raise numeric_value_out_of_range, db).
Proof.
  intros Hseq. unfold createQrCode, insert_qr_codes. cbv zeta.
  rewrite bound_one. cbn [QrCode.boxId].
  destruct (int4 _); [|reflexivity].
  cbn [qr_codes with_qr_codes_id_seq].
  rewrite (existsb_fresh QrCode.id _ _ Hseq).
  change (has_box (InsertQrCode.boxId qrCodeData)
            (with_qr_codes_id_seq (qr_codes_id_seq db + 1) db))
    with (has_box (InsertQrCode.boxId qrCodeData) db).
  now destruct (has_box _ db).
Qed.

Lemma deleteOwner_eval id db :
  deleteOwner id db
  = if int4 id
    then
      match first (filter (fun row => Owner.id row =? id) (owners db)) with
      | None => (Ok false, db)
      | Some owner =>
          if (0 <? length
                     (filter
                        (fun row => String.eqb (Box.owner row) (Owner.name owner))
                        (boxes db)))%nat
          then (Ok false, db)
          else (Ok true,
                with_owners
                  (filter (fun row => negb (Owner.id row =? id)) (owners db)) db)
      end
    else (Raise numeric_value_out_of_range, db).
Proof.
  unfold deleteOwner, getOwner, bind, select_owners, select_boxes,
    delete_owners, ret, bound.
  cbn [forallb]. destruct (int4 id); [|reflexivity]. simpl.
  destruct (first _) as [owner|]; [|reflexivity].
  now destruct (0 <? _)%nat.
Qed.

End DatabaseFacts.

(** ** The constraints of the schema are kept by every operation *)

Section PgInvariant.

Import Pg DatabaseStorage.

Lemma constraints_empty : constraints empty.
Proof. constructor; simpl; constructor. Qed.


Lemma preserves_ret {A} (a : A) : preserves (ret a).
Proof. intros db H. exact H. Qed.

Lemma preserves_bind {A B} (m : query A) (k : A -> query B) :
  preserves m -> (forall a, preserves (k a)) -> preserves (bind m k).
Proof.
  intros Hm Hk db H. unfold bind. specialize (Hm db H).
  destruct (m db) as [[a|e] db']; simpl in *; [now apply Hk | exact Hm].
Qed.

(** A statement that is refused when its numbers are bound changes
    nothing. *)
Lemma preserves_bound {A} params (run : query A) :
  (forallb int4 params = true -> preserves run) -> preserves (bound params run).
Proof.
  intros Hrun db H. unfold bound.
  destruct (forallb int4 params); [now apply Hrun | exact H].
Qed.

Lemma preserves_select_boxes params f : preserves (select_boxes params f).
Proof. apply preserves_bound. intros _ db H. exact H. Qed.

Lemma preserves_select_owners params f : preserves (select_owners params f).
Proof. apply preserves_bound. intros _ db H. exact H. Qed.

Lemma preserves_select_qr_codes params f : preserves (select_qr_codes params f).
Proof. apply preserves_bound. intros _ db H. exact H. Qed.

Lemma Forall_lt_mono {A} (key : A -> Z) c rows :
  Forall (fun row => key row < c) rows ->
  Forall (fun row => key row < c + 1) rows.
Proof. intros H. eapply Forall_impl; [|exact H]. simpl. intros. lia. Qed.

Lemma NoDup_snoc_fresh {A} (key : A -> Z) c rows row :
  Forall (fun r => key r < c) rows -> key row = c ->
  NoDup (map key rows) -> NoDup (map key (rows ++ [row])).
Proof.
  intros Hlt Hk Hnd. rewrite map_app. simpl.
  apply NoDup_app; [assumption | repeat constructor; simpl; tauto |].
  intros x Hx [<-|[]]. apply in_map_iff in Hx as [r [Hr Hin]].
  rewrite Forall_forall in Hlt. specialize (Hlt _ Hin). lia.
Qed.

Lemma Forall_snoc_fresh {A} (key : A -> Z) c rows row :
  Forall (fun r => key r < c) rows -> key row = c ->
  Forall (fun r => key r < c + 1) (rows ++ [row]).
Proof.
  intros Hlt Hk. apply Forall_app. split.
  - now apply Forall_lt_mono.
  - repeat constructor. lia.
Qed.

Lemma preserves_insert_boxes values :
  (forall id, Box.id (values id) = id) -> preserves (insert_boxes values).
Proof.
  intros Hid db Hc. unfold insert_boxes. cbv zeta.
  rewrite bound_one. destruct (int4 _); [|exact Hc].
  destruct Hc.
  destruct (has_box _ _).
  - constructor; simpl; auto. now apply Forall_lt_mono.
  - constructor; unfold boxes_fresh, activities_fresh, has_box in *;
      simpl; auto.
    + now apply Forall_snoc_fresh.
    + eapply NoDup_snoc_fresh; eauto.
    + eapply Forall_impl; [|exact wf_activities_fk0]. simpl.
      intros row. destruct (Activity.boxId row); auto.
      rewrite existsb_app. intros ->. reflexivity.
    + eapply Forall_impl; [|exact wf_qr_codes_fk0]. simpl.
      intros row. rewrite existsb_app. intros ->. reflexivity.
Qed.

Lemma has_box_update (set : Box.t -> Box.t) (where_ : Box.t -> bool) b rows :
  (forall row, Box.id (set row) = Box.id row) ->
  existsb (fun row => Box.id row =? b)
    (map (fun row => if where_ row then set row else row) rows)
  = existsb (fun row => Box.id row =? b) rows.
Proof.
  intros Hset. induction rows as [|row rows IH]; simpl; [reflexivity|].
  rewrite IH. destruct (where_ row); now rewrite ?Hset.
Qed.

Lemma preserves_update_boxes params set where_ :
  (forall row, Box.id (set row) = Box.id row) ->
  preserves (update_boxes params set where_).
Proof.
  intros Hset. apply preserves_bound. intros _ db [].
  constructor; unfold boxes_fresh, activities_fresh, has_box in *;
    simpl; auto.
  - rewrite Forall_forall in *. intros row Hin.
    apply in_map_iff in Hin as [r [<- Hr]].
    destruct (where_ r); rewrite ?Hset; auto.
  - now rewrite ids_update.
  - eapply Forall_impl; [|exact wf_activities_fk0]. simpl.
    intros row. destruct (Activity.boxId row); auto.
    now rewrite has_box_update.
  - eapply Forall_impl; [|exact wf_qr_codes_fk0]. simpl.
    intros row. now rewrite has_box_update.
Qed.

Lemma NoDup_map_filter {A} (key : A -> Z) (f : A -> bool) rows :
  NoDup (map key rows) -> NoDup (map key (filter f rows)).
Proof.
  induction rows as [|row rows IH]; simpl; intros H; [constructor|].
  inversion H as [|? ? Hn Hnd]; subst. destruct (f row); simpl; auto.
  constructor; auto. intros Hin. apply Hn.
  apply in_map_iff in Hin as [r [E Hr]]. apply filter_In in Hr as [Hr _].
  rewrite <- E. now apply in_map.
Qed.

Lemma Forall_filter {A} (P : A -> Prop) (f : A -> bool) rows :
  Forall P rows -> Forall P (filter f rows).
Proof.
  rewrite !Forall_forall. intros H x Hx. apply filter_In in Hx as [Hx _]. auto.
Qed.

(** A box that is referenced and not among the deleted ids is still there. *)
Lemma has_box_survives (where_ : Box.t -> bool) b rows :
  existsb (fun row => Box.id row =? b) rows = true ->
  existsb (Z.eqb b) (map Box.id (filter where_ rows)) = false ->
  existsb (fun row => Box.id row =? b)
    (filter (fun row => negb (where_ row)) rows) = true.
Proof.
  intros Hin Hgone. apply existsb_exists in Hin as [row [Hrow Hid]].
  apply existsb_exists. exists row. split; [|assumption].
  apply filter_In. split; [assumption|].
  destruct (where_ row) eqn:Hw; [|reflexivity]. exfalso.
  apply Z.eqb_eq in Hid.
  assert (existsb (Z.eqb b) (map Box.id (filter where_ rows)) = true);
    [|congruence].
  apply existsb_exists. exists (Box.id row). split.
  - apply in_map. apply filter_In. tauto.
  - apply Z.eqb_eq. congruence.
Qed.

Lemma preserves_delete_boxes params where_ :
  preserves (delete_boxes params where_).
Proof.
  apply preserves_bound. intros _ db [].
  constructor; unfold boxes_fresh, activities_fresh, has_box in *;
    simpl; auto using Forall_filter, NoDup_map_filter.
  - rewrite Forall_forall in *. intros row Hin.
    apply filter_In in Hin as [Hin Hkeep].
    specialize (wf_activities_fk0 _ Hin).
    destruct (Activity.boxId row) as [b|]; [|exact I].
    apply has_box_survives; [assumption|].
    now apply negb_true_iff in Hkeep.
  - rewrite Forall_forall in *. intros row Hin.
    apply filter_In in Hin as [Hin Hkeep].
    apply has_box_survives; [now apply wf_qr_codes_fk0|].
    now apply negb_true_iff in Hkeep.
Qed.

Lemma preserves_insert_activities values :
  (forall id, Activity.id (values id) = id) -> preserves (insert_activities values).
Proof.
  intros Hid db Hwf. unfold insert_activities. cbv zeta.
  set (row := values (activities_id_seq db)).
  unfold bound. destruct (forallb int4 _) eqn:Hfit; [|exact Hwf].
  cbv beta zeta.
  assert (constraints (with_activities_id_seq (activities_id_seq db + 1) db))
    as Hseq.
  { destruct Hwf. constructor; simpl; auto. now apply Forall_lt_mono. }
  cbn [activities with_activities_id_seq].
  destruct (existsb _ (activities db)); [exact Hseq|].
  assert (match Activity.boxId row with
          | Some b => has_box b db = true
          | None => True
          end ->
          constraints
            (with_activities (activities db ++ [row])
               (with_activities_id_seq (activities_id_seq db + 1) db))) as Hins.
  { intros Hfk. destruct Hwf. constructor; simpl; auto.
    - apply Forall_snoc_fresh; [assumption | apply Hid].
    - eapply NoDup_snoc_fresh; [eassumption | apply Hid | assumption].
    - apply Forall_app. split; [assumption|]. repeat constructor. exact Hfk.
    - apply Forall_app. split; [assumption|]. repeat constructor. exact Hfit. }
  destruct (Activity.boxId row) as [b|]; [|now apply Hins].
  change (has_box b (with_activities_id_seq (activities_id_seq db + 1) db))
    with (has_box b db).
  destruct (has_box b db); [now apply Hins | exact Hseq].
Qed.

Lemma preserves_insert_qr_codes values :
  (forall id, QrCode.id (values id) = id) -> preserves (insert_qr_codes values).
Proof.
  intros Hid db Hwf. unfold insert_qr_codes. cbv zeta.
  rewrite bound_one. destruct (int4 _) eqn:Hfit; [|exact Hwf].
  destruct Hwf.
  assert (constraints (with_qr_codes_id_seq (qr_codes_id_seq db + 1) db))
    as Hseq.
  { constructor; simpl; auto. now apply Forall_lt_mono. }
  cbn [qr_codes with_qr_codes_id_seq].
  destruct (existsb _ (qr_codes db)); [exact Hseq|].
  destruct (has_box _ _) eqn:Hhas; [|exact Hseq].
  constructor; simpl; auto.
  - now apply Forall_snoc_fresh.
  - eapply NoDup_snoc_fresh; eauto.
  - apply Forall_app. split; [assumption|]. repeat constructor. exact Hhas.
  - apply Forall_app. split; [assumption|]. repeat constructor. exact Hfit.
Qed.

Lemma preserves_insert_owners values :
  (forall id, Owner.id (values id) = id) -> preserves (insert_owners values).
Proof.
  intros Hid db []. unfold insert_owners. cbv zeta.
  destruct (existsb _ (owners _)).
  - constructor; simpl; auto. now apply Forall_lt_mono.
  - constructor; simpl; auto.
    + now apply Forall_snoc_fresh.
    + eapply NoDup_snoc_fresh; eauto.
Qed.

Lemma preserves_update_owners params set where_ :
  (forall row, Owner.id (set row) = Owner.id row) ->
  preserves (update_owners params set where_).
Proof.
  intros Hset. apply preserves_bound. intros _ db [].
  constructor; simpl; auto.
  - rewrite Forall_forall in *. intros row Hin.
    apply in_map_iff in Hin as [r [<- Hr]].
    destruct (where_ r); rewrite ?Hset; auto.
  - rewrite map_map.
    erewrite map_ext; [exact wf_owners_pkey0|].
    intros row. simpl. destruct (where_ row); auto.
Qed.

Lemma preserves_delete_owners params where_ :
  preserves (delete_owners params where_).
Proof.
  apply preserves_bound. intros _ db [].
  constructor; simpl; auto using Forall_filter, NoDup_map_filter.
Qed.

Lemma preserves_createActivity d tAct : preserves (createActivity d tAct).
Proof. now apply preserves_insert_activities. Qed.

Create HintDb pg_wf.

Hint Resolve preserves_ret preserves_select_boxes preserves_select_owners
  preserves_select_qr_codes preserves_createActivity preserves_delete_boxes
  preserves_delete_owners : pg_wf.

Ltac preserves_step :=
  match goal with
  | |- preserves (bind _ _) => apply preserves_bind; [|intros ?]
  | |- preserves (match ?x with _ => _ end) => destruct x
  | |- preserves (insert_boxes _) => apply preserves_insert_boxes; reflexivity
  | |- preserves (insert_qr_codes _) => apply preserves_insert_qr_codes; reflexivity
  | |- preserves (insert_owners _) => apply preserves_insert_owners; reflexivity
  | |- preserves (update_boxes _ _ _) => apply preserves_update_boxes; reflexivity
  | |- preserves (update_owners _ _ _) => apply preserves_update_owners; reflexivity
  | |- _ => solve [auto with pg_wf]
  end.

Lemma wf_createBox_db boxData now tAct : preserves (createBox boxData now tAct).
Proof. unfold createBox. repeat preserves_step. Qed.

Lemma wf_getBox_db id : preserves (getBox id).
Proof. unfold getBox. repeat preserves_step. Qed.

Lemma wf_updateBox_db id boxData now tAct :
  preserves (updateBox id boxData now tAct).
Proof. unfold updateBox, getBox. repeat preserves_step. Qed.

Lemma wf_updateBoxPosition_db id position status now tAct :
  preserves (updateBoxPosition id position status now tAct).
Proof. unfold updateBoxPosition, getBox. repeat preserves_step. Qed.

Lemma wf_updateBoxStatus_db id status now tAct :
  preserves (updateBoxStatus id status now tAct).
Proof. unfold updateBoxStatus, getBox. repeat preserves_step. Qed.

Lemma wf_deleteBox_db id tAct : preserves (deleteBox id tAct).
Proof. unfold deleteBox, getBox. repeat preserves_step. Qed.

Lemma wf_createQrCode_db d now : preserves (createQrCode d now).
Proof. unfold createQrCode. repeat preserves_step. Qed.

Lemma wf_createOwner_db d now : preserves (createOwner d now).
Proof. unfold createOwner. repeat preserves_step. Qed.

Lemma wf_updateOwner_db id d now : preserves (updateOwner id d now).
Proof. unfold updateOwner, getOwner. repeat preserves_step. Qed.

Lemma wf_deleteOwner_db id : preserves (deleteOwner id).
Proof. unfold deleteOwner, getOwner. repeat preserves_step. Qed.

(** Every database the program can leave behind satisfies the constraints
    of the schema ... *)
Lemma reachable_constraints db : reachable db -> constraints db.
Proof.
  induction 1 as [|? ? ? ? ? IH|? ? ? ? ? ? IH|? ? ? ? ? ? ? IH|? ? ? ? ? ? IH
                 |? ? ? ? IH|? ? ? ? IH|? ? ? ? IH|? ? ? ? IH|? ? ? ? ? IH
                 |? ? ? IH].
  - apply constraints_empty.
  - now apply wf_createBox_db.
  - now apply wf_updateBox_db.
  - now apply wf_updateBoxPosition_db.
  - now apply wf_updateBoxStatus_db.
  - now apply wf_deleteBox_db.
  - now apply preserves_createActivity.
  - now apply wf_createQrCode_db.
  - now apply wf_createOwner_db.
  - now apply wf_updateOwner_db.
  - now apply wf_deleteOwner_db.
Qed.

(** ... and is consistent as long as its sequences have values left. *)
Lemma reachable_db_wf db :
  reachable db ->
  int4 (boxes_id_seq db) = true ->
  int4 (activities_id_seq db) = true ->
  int4 (qr_codes_id_seq db) = true ->
  int4 (owners_id_seq db) = true ->
  wf db.
Proof. intros H. constructor; auto using reachable_constraints. Qed.

End PgInvariant.

(** ** The concrete stores are consistent *)

Section ExampleFacts.

Import Example.

Lemma wf_mem1 : MemStorage.wf mem1.
Proof. apply wf_createBox, wf_new. Qed.

Lemma wf_mem_loaded : MemStorage.wf mem_loaded.
Proof. apply wf_updateBoxPosition, wf_mem1. Qed.

Lemma wf_mem2 : MemStorage.wf mem2.
Proof. apply wf_createBox, wf_mem1. Qed.

Lemma wf_mem_tie : MemStorage.wf mem_tie.
Proof. apply wf_createBox, wf_mem1. Qed.


Lemma wf_db1 : Pg.wf db1.
Proof.
  apply reachable_db_wf; [|reflexivity..].
  apply DatabaseStorage.reach_createBox, DatabaseStorage.reach_empty.
Qed.

Lemma wf_db_loaded : Pg.wf db_loaded.
Proof.
  apply reachable_db_wf; [|reflexivity..].
  apply DatabaseStorage.reach_updateBoxPosition, DatabaseStorage.reach_createBox,
    DatabaseStorage.reach_empty.
Qed.

Lemma wf_db2 : Pg.wf db2.
Proof.
  apply reachable_db_wf; [|reflexivity..].
  apply DatabaseStorage.reach_createBox, DatabaseStorage.reach_createBox,
    DatabaseStorage.reach_empty.
Qed.



End ExampleFacts.

(** ** Updates of a box that is not there *)

Section NotFound.

(** C10, as amended: [updateBox], [updateBoxStatus] and
    [updateBoxPosition] called with an id that no stored box has leave the
    whole store as it was -- in particular no activity is logged.  In
    memory they return the not-found signal.  In the database they return
    it when the id fits the 32-bit id column; for an id outside that range
    the lookup that opens each of them is refused and the call raises. *)
Theorem C10_update_of_absent_box_is_a_noop
    (id : Z) (boxData : PartialInsertBox.t) (position : BoxPosition.t)
    (optStatus : option string) (status : string) (now tAct : Z)
    (this : MemStorage.t) (db : Pg.Database) :
  ~ In id (JsMap.keys (MemStorage.boxes this)) ->
  Pg.has_box id db = false ->
  (MemStorage.updateBox id boxData now tAct this = (None, this)
   /\ MemStorage.updateBoxStatus id status now tAct this = (None, this)
   /\ MemStorage.updateBoxPosition id position optStatus now tAct this
      = (None, this))
  /\ (Pg.int4 id = true ->
      DatabaseStorage.updateBox id boxData now tAct db = (Pg.Ok None, db)
      /\ DatabaseStorage.updateBoxStatus id status now tAct db = (Pg.Ok None, db)
      /\ DatabaseStorage.updateBoxPosition id position optStatus now tAct db
         = (Pg.Ok None, db))
  /\ (Pg.int4 id = false ->
      DatabaseStorage.updateBox id boxData now tAct db
      = (Pg.Raise Pg.numeric_value_out_of_range, db)
      /\ DatabaseStorage.updateBoxStatus id status now tAct db
         = (Pg.Raise Pg.numeric_value_out_of_range, db)
      /\ DatabaseStorage.updateBoxPosition id position optStatus now tAct db
         = (Pg.Raise Pg.numeric_value_out_of_range, db)).
Proof.
  intros Hmem Hdb. split; [|split].
  - apply get_None_iff in Hmem.
    unfold MemStorage.updateBox, MemStorage.updateBoxStatus,
      MemStorage.updateBoxPosition.
    rewrite Hmem. auto.
  - intros Hfit.
    destruct (update_absent id db Hfit Hdb boxData position optStatus status
                now tAct) as (H1 & H2 & H3 & _).
    auto.
  - intros Hfit.
    destruct (update_out_of_range id db Hfit boxData position optStatus status
                now tAct) as (H1 & H2 & H3 & _).
    auto.
Qed.

Lemma C10_witness :
  MemStorage.updateBoxStatus 7 "out" 5000 5000 Example.mem1
    = (None, Example.mem1)
  /\ DatabaseStorage.updateBoxStatus 7 "out" 5000 5000 Example.db1
     = (Pg.Ok None, Example.db1)
  /\ DatabaseStorage.updateBoxStatus 2147483648 "out" 5000 5000 Example.db1
     = (Pg.Raise Pg.numeric_value_out_of_range, Example.db1).
Proof.
  destruct (C10_update_of_absent_box_is_a_noop 7 Example.bogus
              Example.front_left_high None "out" 5000 5000
              Example.mem1 Example.db1) as [(_ & Hm & _) [Hd _]].
  - simpl. intros [H|[]]. discriminate H.
  - reflexivity.
  - destruct (C10_update_of_absent_box_is_a_noop 2147483648 Example.bogus
                Example.front_left_high None "out" 5000 5000
                Example.mem1 Example.db1) as (_ & _ & Hr).
    + simpl. intros [H|[]]. discriminate H.
    + reflexivity.
    + destruct (Hd eq_refl) as (_ & Hd' & _).
      destruct (Hr eq_refl) as (_ & Hr' & _).
      split; [exact Hm | split; [exact Hd' | exact Hr']].
Defined.

(** C10 as worded fails on the database: no box has the id 2147483648,
    yet [updateBoxStatus] does not return the not-found signal for it. *)
Lemma C10_counterexample :
  Pg.has_box 2147483648 Example.db1 = false
  /\ fst (DatabaseStorage.updateBoxStatus 2147483648 "out" 5000 5000 Example.db1)
     <> Pg.Ok None.
Proof. split; [reflexivity | discriminate]. Qed.

End NotFound.

(** ** Status changes and the position *)

Section StatusChange.

Lemma shouldClearPosition_true box status :
  Shared.shouldClearPosition box status = true
  <-> Box.status box = "loaded" /\ status <> "loaded".
Proof.
  unfold Shared.shouldClearPosition.
  rewrite andb_true_iff, negb_true_iff, String.eqb_eq, String.eqb_neq.
  reflexivity.
Qed.

Lemma set_status_coupling box status now :
  Spec.position_coupling box status
    (Shared.set_updatedAt now (Shared.set_status box status box)).
Proof.
  unfold Spec.position_coupling. simpl.
  destruct (Shared.shouldClearPosition box status) eqn:Hc.
  - apply shouldClearPosition_true in Hc as [Hl Hs].
    repeat split; intros; congruence.
  - repeat split; intros; try reflexivity.
    assert (Shared.shouldClearPosition box status = true) as Ht
      by (apply shouldClearPosition_true; auto).
    congruence.
Qed.

(** Reading back the row that an update by id has just rewritten. *)
Lemma first_filter_update id (set : Box.t -> Box.t) rows :
  (forall row, Box.id (set row) = Box.id row) ->
  DatabaseStorage.first
    (filter (fun row => Box.id row =? id)
       (map (fun row => if Box.id row =? id then set row else row) rows))
  = option_map set
      (DatabaseStorage.first (filter (fun row => Box.id row =? id) rows)).
Proof.
  intros Hset. induction rows as [|row rows IH]; simpl; [reflexivity|].
  destruct (Box.id row =? id) eqn:Hid; simpl.
  - now rewrite Hset, Hid.
  - now rewrite Hid.
Qed.

(** C1: a status change on a box that is "loaded" to any other status
    yields a box without position; on a box that is not "loaded" it leaves
    the position as it was (a null position stays null); a change to
    "loaded" keeps it too.  The same holds in memory and in the database,
    where the stored record is the returned one. *)
Theorem C1_status_change_clears_position_only_when_leaving_loaded
    (id : Z) (status : string) (now tAct : Z)
    (this : MemStorage.t) (db : Pg.Database) (box row : Box.t) :
  MemStorage.getBox id this = Some box ->
  Pg.wf db ->
  fst (DatabaseStorage.getBox id db) = Pg.Ok (Some row) ->
  (exists box' this',
      MemStorage.updateBoxStatus id status now tAct this = (Some box', this')
      /\ MemStorage.getBox id this' = Some box'
      /\ Box.status box' = status
      /\ Spec.position_coupling box status box')
  /\ (exists row' db',
         DatabaseStorage.updateBoxStatus id status now tAct db
           = (Pg.Ok (Some row'), db')
         /\ fst (DatabaseStorage.getBox id db') = Pg.Ok (Some row')
         /\ Box.status row' = status
         /\ Spec.position_coupling row status row').
Proof.
  intros Hbox Hwf Hrow. split.
  - unfold MemStorage.getBox in Hbox. unfold MemStorage.updateBoxStatus.
    rewrite Hbox. simpl. eexists. eexists. split; [reflexivity|].
    unfold MemStorage.getBox. simpl. rewrite get_set_eq.
    repeat split; try reflexivity; apply (set_status_coupling box status now).
  - rewrite (updateBoxStatus_found id status now tAct db row
               (Pg.wf_activities_seq _ (Pg.wf_constraints _ Hwf)) Hrow).
    eexists. eexists. split; [reflexivity|].
    rewrite getBox_run by exact (getBox_fits _ _ _ Hrow).
    simpl. rewrite first_filter_update by reflexivity.
    rewrite (getBox_found _ _ _ Hrow). simpl.
    repeat split; try reflexivity; apply (set_status_coupling row status now).
Qed.

Lemma C1_witness :
  (exists box',
      fst (MemStorage.updateBoxStatus 1 "out" 3000 3000 Example.mem_loaded)
        = Some box'
      /\ Box.position box' = None)
  /\ (exists row',
         fst (DatabaseStorage.updateBoxStatus 1 "out" 3000 3000 Example.db_loaded)
           = Pg.Ok (Some row')
         /\ Box.position row' = None).
Proof.
  destruct (C1_status_change_clears_position_only_when_leaving_loaded
              1 "out" 3000 3000 Example.mem_loaded Example.db_loaded _ _
              eq_refl wf_db_loaded eq_refl)
    as [(box' & this' & Hm & _ & _ & Hcm & _) (row' & db' & Hd & _ & _ & Hcd & _)].
  split.
  - exists box'. rewrite Hm. split; [reflexivity|].
    apply Hcm; [reflexivity | discriminate].
  - exists row'. rewrite Hd. split; [reflexivity|].
    apply Hcd; [reflexivity | discriminate].
Defined.

End StatusChange.

(** ** Creating a box *)

Section CreateBox.

Lemma includes_valid s :
  Js.includes BoxStatus.values s = true <-> Spec.valid_status s.
Proof.
  unfold Js.includes, Spec.valid_status. simpl.
  rewrite !orb_true_iff, !String.eqb_eq. intuition discriminate.
Qed.






End CreateBox.

(** ** Placing a box in the truck *)

Section UpdatePosition.









End UpdatePosition.

(** ** One activity per mutation of a box *)

Section ActivityAppend.







End ActivityAppend.

Section ActivityDiscipline.





End ActivityDiscipline.

(** ** Sorting newest first *)

Section Sorting.

Context {A : Type} (key : A -> Z).

Let cmp (a b : A) : Z := key b - key a.
Let desc (a b : A) : Prop := key b <= key a.

Lemma sort_insert_perm x l : Permutation (x :: l) (Js.sort_insert cmp x l).
Proof.
  induction l as [|y l IH]; simpl; [reflexivity|].
  destruct (cmp x y <=? 0); [reflexivity|].
  rewrite perm_swap. now apply perm_skip.
Qed.

Lemma sort_perm l : Permutation l (Js.sort cmp l).
Proof.
  induction l as [|x l IH]; simpl; [constructor|].
  rewrite <- sort_insert_perm. now apply perm_skip.
Qed.

Lemma sort_insert_sorted x l :
  StronglySorted desc l -> StronglySorted desc (Js.sort_insert cmp x l).
Proof.
  induction 1 as [|y l Hs IH Hy]; simpl.
  - repeat constructor.
  - unfold cmp at 1. destruct (Z.leb_spec (key y - key x) 0) as [Hle|Hgt].
    + constructor; [now constructor|].
      constructor; [unfold desc; lia|].
      eapply Forall_impl; [|exact Hy]. unfold desc. simpl. intros. lia.
    + constructor; [exact IH|].
      eapply Permutation_Forall; [apply sort_insert_perm|].
      constructor; [unfold desc; lia | exact Hy].
Qed.

Lemma sort_sorted l : StronglySorted desc (Js.sort cmp l).
Proof.
  induction l as [|x l IH]; simpl; [constructor|].
  now apply sort_insert_sorted.
Qed.





(** An ordered select always has an answer. *)
Lemma order_by_desc_total rows : Pg.order_by_desc key rows (Js.sort cmp rows).
Proof. split; [apply sort_perm | apply sort_sorted]. Qed.

End Sorting.

(** ** Listing the activity log *)

Section ListActivities.

Lemma getActivities_all this :
  MemStorage.getActivities None this
  = Js.sort MemStorage.newestFirst (JsMap.values (MemStorage.activities this)).
Proof. reflexivity. Qed.

Lemma getActivities_zero this :
  MemStorage.getActivities (Some 0) this = MemStorage.getActivities None this.
Proof. reflexivity. Qed.






End ListActivities.

(** ** Listing the boxes *)

Section ListBoxes.

(** In memory a new box is listed last, whatever the clock says. *)
Lemma getBoxes_createBox boxData now tAct this :
  MemStorage.wf this ->
  MemStorage.getBoxes (snd (MemStorage.createBox boxData now tAct this))
  = (MemStorage.getBoxes this
       ++ [fst (MemStorage.createBox boxData now tAct this)])%list.
Proof.
  intros Hwf. unfold MemStorage.createBox. simpl.
  unfold MemStorage.getBoxes. simpl.
  rewrite (set_fresh _ _ _ (below_fresh _ _ (MemStorage.wf_boxes _ Hwf))).
  unfold JsMap.values. now rewrite map_app.
Qed.

(** In memory an update leaves the box at its place in the list. *)
Lemma keys_updateBoxStatus id status now tAct this :
  JsMap.keys (MemStorage.boxes
                (snd (MemStorage.updateBoxStatus id status now tAct this)))
  = JsMap.keys (MemStorage.boxes this).
Proof.
  unfold MemStorage.updateBoxStatus.
  destruct (JsMap.get id (MemStorage.boxes this)) as [box|] eqn:Hg;
    [|reflexivity].
  simpl. apply keys_set_present. eapply get_Some_In; eauto.
Qed.

(** The database lists the boxes most recently updated first, and all of
    them. *)
Lemma getBoxes_db_sorted db answer :
  DatabaseStorage.getBoxes db answer ->
  Permutation (Pg.boxes db) answer /\ Spec.recently_updated_first answer.
Proof. intros [Hp Hs]. split; assumption. Qed.

Lemma getBoxes_db_total db : exists answer, DatabaseStorage.getBoxes db answer.
Proof. eexists. apply (order_by_desc_total Box.updatedAt). Qed.

(** C6 at a store of two boxes created at times 1000 and 3000: the
    in-memory [getBoxes] lists the older box first, so its answer is not in
    most-recently-updated-first order; the database [getBoxes] answers with
    the newer box first and cannot answer with the table order. *)
Theorem C6_memory_getBoxes_lists_in_insertion_order :
  map Box.id (MemStorage.getBoxes Example.mem2) = [1; 2]
  /\ map Box.updatedAt (MemStorage.getBoxes Example.mem2) = [1000; 3000]
  /\ ~ Spec.recently_updated_first (MemStorage.getBoxes Example.mem2)
  /\ DatabaseStorage.getBoxes Example.db2 (rev (Pg.boxes Example.db2))
  /\ ~ DatabaseStorage.getBoxes Example.db2 (Pg.boxes Example.db2).
Proof.
  assert (forall l : list Box.t,
             map Box.updatedAt l = [1000; 3000] ->
             ~ Spec.recently_updated_first l) as Hno.
  { intros l Hl H. destruct l as [|a [|b l]]; try discriminate.
    injection Hl as Ha Hb _. inversion H as [|? ? _ Hall]; subst.
    inversion Hall as [|? ? Hle _]; subst. lia. }
  split; [reflexivity|]. split; [reflexivity|]. split; [|split].
  - now apply Hno.
  - split; [apply Permutation_rev|].
    simpl. repeat constructor; simpl; lia.
  - intros [_ H]. revert H. now apply Hno.
Qed.

End ListBoxes.

(** ** Updating the fields of a box *)

Section UpdateBox.

Lemma typeSafeData_merged box boxData now :
  Spec.merged box boxData now
    (Shared.set_updatedAt now (Shared.typeSafeData boxData box)).
Proof. unfold Spec.merged. simpl. repeat split. Qed.

(** What [updateBox] does on an existing box: it merges the provided
    fields, sets the update time, stores the result and logs one "updated"
    activity; a provided status is stored as it is.  (In the database a
    provided box number has to fit its column.) *)
Lemma updateBox_merges id boxData now tAct this db box row :
  MemStorage.wf this ->
  MemStorage.getBox id this = Some box ->
  Pg.wf db ->
  fst (DatabaseStorage.getBox id db) = Pg.Ok (Some row) ->
  forallb Pg.int4 (Pg.optional (PartialInsertBox.boxNumber boxData)) = true ->
  (exists box' this' a,
      MemStorage.updateBox id boxData now tAct this = (Some box', this')
      /\ MemStorage.getBox id this' = Some box'
      /\ Spec.merged box boxData now box'
      /\ Box.status box'
         = match PartialInsertBox.status boxData with
           | Some s => s | None => Box.status box end
      /\ MemStorage.activities this'
         = (MemStorage.activities this ++ [(Activity.id a, a)])%list
      /\ Activity.boxId a = Some id /\ Activity.type a = "updated")
  /\ (exists row' db' a,
         DatabaseStorage.updateBox id boxData now tAct db
           = (Pg.Ok (Some row'), db')
         /\ fst (DatabaseStorage.getBox id db') = Pg.Ok (Some row')
         /\ Spec.merged row boxData now row'
         /\ Box.status row'
            = match PartialInsertBox.status boxData with
              | Some s => s | None => Box.status row end
         /\ Pg.activities db' = (Pg.activities db ++ [a])%list
         /\ Activity.boxId a = Some id /\ Activity.type a = "updated").
Proof.
  intros Hmem Hbox Hdb Hrow Hnum. split.
  - unfold MemStorage.getBox in Hbox. unfold MemStorage.updateBox.
    rewrite Hbox.
    rewrite createActivity_appends
      by (simpl; apply (MemStorage.wf_activities _ Hmem)).
    cbv zeta. eexists. eexists.
    exists (Activity.mk (MemStorage.activityCounter this) (Some id) "updated"
              ("Box #" ++ Js.toString (Box.boxNumber box) ++ " updated") tAct).
    split; [reflexivity|]. unfold MemStorage.getBox. simpl.
    rewrite get_set_eq. split; [reflexivity|].
    split; [apply typeSafeData_merged|]. repeat split.
  - rewrite (updateBox_found id boxData now tAct db row
               (Pg.wf_activities_seq _ (Pg.wf_constraints _ Hdb)) Hnum Hrow).
    eexists. eexists.
    exists (Activity.mk (Pg.activities_id_seq db) (Some id) "updated"
              ("Box #" ++ Js.toString (Box.boxNumber row) ++ " updated") tAct).
    split; [reflexivity|].
    rewrite getBox_run by exact (getBox_fits _ _ _ Hrow). simpl.
    rewrite first_filter_update by reflexivity.
    rewrite (getBox_found _ _ _ Hrow). simpl. split; [reflexivity|].
    split; [apply typeSafeData_merged|]. repeat split.
Qed.

(** C5 at the store of the kitchen box, updated with the status "bogus":
    both implementations return and store a box whose status is "bogus",
    which is none of the six valid strings; [createBox] given the same
    status stores "packed". *)
Theorem C5_updateBox_stores_a_status_outside_the_enum :
  ~ Spec.valid_status "bogus"
  /\ (exists box',
         MemStorage.updateBox 1 Example.bogus 2000 2000 Example.mem1
           = (Some box',
              snd (MemStorage.updateBox 1 Example.bogus 2000 2000 Example.mem1))
         /\ MemStorage.getBox 1
              (snd (MemStorage.updateBox 1 Example.bogus 2000 2000 Example.mem1))
            = Some box'
         /\ Box.status box' = "bogus")
  /\ (exists row',
         DatabaseStorage.updateBox 1 Example.bogus 2000 2000 Example.db1
           = (Pg.Ok (Some row'),
              snd (DatabaseStorage.updateBox 1 Example.bogus 2000 2000
                     Example.db1))
         /\ fst (DatabaseStorage.getBox 1
                   (snd (DatabaseStorage.updateBox 1 Example.bogus 2000 2000
                           Example.db1)))
            = Pg.Ok (Some row')
         /\ Box.status row' = "bogus")
  /\ Shared.boxStatus (InsertBox.mk 1 "Alex" "Kitchen" "Mugs" (Js.Str "bogus"))
     = "packed".
Proof.
  split.
  - unfold Spec.valid_status. intuition discriminate.
  - split; [|split]; [eexists; repeat split; reflexivity .. | reflexivity].
Qed.

End UpdateBox.

(** ** Deleting an owner *)

Section DeleteOwner.

(** In memory an owner in use is kept: the call returns [false] and the
    store is the one it was given. *)
Lemma deleteOwner_mem_guard id this owner :
  MemStorage.getOwner id this = Some owner ->
  Spec.in_use owner (MemStorage.getBoxes this) ->
  MemStorage.deleteOwner id this = (false, this)
  /\ MemStorage.getOwner id (snd (MemStorage.deleteOwner id this)) = Some owner.
Proof.
  intros Hown (box & Hin & Hname).
  assert (MemStorage.deleteOwner id this = (false, this)) as E.
  { unfold MemStorage.deleteOwner. unfold MemStorage.getOwner in Hown.
    rewrite Hown.
    match goal with |- context [filter ?f ?l] =>
      assert (In box (filter f l)) as Hf
    end.
    { apply filter_In. split; [exact Hin|]. now apply String.eqb_eq. }
    destruct (filter _ _); [contradiction | reflexivity]. }
  rewrite E. split; [reflexivity | exact Hown].
Qed.

(** The database keeps an owner only when a box carries exactly its name. *)
Lemma deleteOwner_db_guard id db owner :
  fst (DatabaseStorage.getOwner id db) = Pg.Ok (Some owner) ->
  (exists box, In box (Pg.boxes db) /\ Box.owner box = Owner.name owner) ->
  DatabaseStorage.deleteOwner id db = (Pg.Ok false, db).
Proof.
  intros Hown (box & Hin & Hname).
  rewrite deleteOwner_eval, (getOwner_fits _ _ _ Hown),
    (getOwner_found _ _ _ Hown).
  match goal with |- context [filter ?f ?l] =>
    assert (In box (filter f l)) as Hf
  end.
  { apply filter_In. split; [exact Hin|]. now apply String.eqb_eq. }
  destruct (filter _ _); [contradiction | reflexivity].
Qed.

(** C3 at a store with the owner "Alex" and a box of "alex": the owner is
    in use in the sense of the specification, the in-memory [deleteOwner]
    refuses and changes nothing, and the database [deleteOwner] returns
    [true] and the owner is gone. *)
Theorem C3_database_deleteOwner_compares_names_exactly :
  (exists owner,
      MemStorage.getOwner 1 Example.mem_owner = Some owner
      /\ Spec.in_use owner (MemStorage.getBoxes Example.mem_owner))
  /\ MemStorage.deleteOwner 1 Example.mem_owner = (false, Example.mem_owner)
  /\ (exists owner,
         fst (DatabaseStorage.getOwner 1 Example.db_owner) = Pg.Ok (Some owner)
         /\ Spec.in_use owner (Pg.boxes Example.db_owner))
  /\ fst (DatabaseStorage.deleteOwner 1 Example.db_owner) = Pg.Ok true
  /\ fst (DatabaseStorage.getOwner 1
            (snd (DatabaseStorage.deleteOwner 1 Example.db_owner)))
     = Pg.Ok None
  /\ Pg.owners (snd (DatabaseStorage.deleteOwner 1 Example.db_owner)) = [].
Proof.
  split; [|split; [|split]].
  - eexists. split; [reflexivity|].
    eexists. split; [left; reflexivity | reflexivity].
  - reflexivity.
  - eexists. split; [reflexivity|].
    eexists. split; [left; reflexivity | reflexivity].
  - repeat split; reflexivity.
Qed.

End DeleteOwner.

(** ** Deleting a box *)

Section DeleteBox.

Lemma find_swept id (m : JsMap.t QrCode.t) :
  find (fun qrCode => QrCode.boxId qrCode =? id)
    (JsMap.values (filter (fun e => negb (QrCode.boxId (snd e) =? id)) m))
  = None.
Proof.
  induction m as [|[k q] m IH]; simpl; [reflexivity|].
  destruct (QrCode.boxId q =? id) eqn:Hq; simpl; [exact IH|].
  now rewrite Hq.
Qed.

(** In memory, deleting an existing box removes it and the QR codes that
    reference it, and appends one "deleted" activity for its id; deleting
    an absent one returns [false] and changes nothing. *)
Lemma deleteBox_mem id tAct this :
  MemStorage.wf this ->
  (forall box,
      MemStorage.getBox id this = Some box ->
      exists this' a,
        MemStorage.deleteBox id tAct this = (true, this')
        /\ MemStorage.getBox id this' = None
        /\ MemStorage.qrCodes this'
           = filter (fun e => negb (QrCode.boxId (snd e) =? id))
               (MemStorage.qrCodes this)
        /\ MemStorage.getQrCodeByBoxId id this' = None
        /\ MemStorage.activities this'
           = (MemStorage.activities this ++ [(Activity.id a, a)])%list
        /\ Activity.boxId a = Some id
        /\ Activity.type a = "deleted")
  /\ (MemStorage.getBox id this = None ->
      MemStorage.deleteBox id tAct this = (false, this)).
Proof.
  intros Hwf. unfold MemStorage.getBox, MemStorage.deleteBox. split.
  - intros box ->. rewrite qr_sweep_spec.
    rewrite createActivity_appends
      by (simpl; apply (MemStorage.wf_activities _ Hwf)).
    cbv zeta. simpl. unfold JsMap.entries.
    rewrite (swept_self id _ (MemStorage.wf_qrCodes_nodup _ Hwf)).
    eexists.
    exists (Activity.mk (MemStorage.activityCounter this) (Some id) "deleted"
              ("Box #" ++ Js.toString (Box.boxNumber box) ++ " deleted") tAct).
    split; [reflexivity|]. simpl.
    split; [apply get_delete_eq|]. split; [reflexivity|].
    split; [apply find_swept|]. repeat split.
  - now intros ->.
Qed.

(** C7 at the database that holds the kitchen box, its "created" activity
    and its QR code: [deleteBox] removes the box, the cascades remove the
    QR code and the activity, and the insert of the "deleted" activity is
    rejected by the foreign key of [activities.box_id]; the call raises and
    the log holds no "deleted" activity.  The in-memory [deleteBox] on the
    same store returns [true] and logs it. *)
Theorem C7_database_deleteBox_cannot_log_the_deletion :
  fst (DatabaseStorage.getBox 1 Example.db_qr) <> Pg.Ok None
  /\ fst (DatabaseStorage.deleteBox 1 2500 Example.db_qr)
     = Pg.Raise (Pg.foreign_key_violation "activities_box_id_boxes_id_fk")
  /\ Pg.boxes (snd (DatabaseStorage.deleteBox 1 2500 Example.db_qr)) = []
  /\ Pg.qr_codes (snd (DatabaseStorage.deleteBox 1 2500 Example.db_qr)) = []
  /\ Pg.activities (snd (DatabaseStorage.deleteBox 1 2500 Example.db_qr)) = []
  /\ fst (MemStorage.deleteBox 1 2500 Example.mem_qr) = true
  /\ map Activity.type
       (MemStorage.getActivities None
          (snd (MemStorage.deleteBox 1 2500 Example.mem_qr)))
     = ["deleted"; "created"]
  /\ MemStorage.getQrCodeByBoxId 1
       (snd (MemStorage.deleteBox 1 2500 Example.mem_qr)) = None.
Proof. split; [discriminate | repeat split; reflexivity]. Qed.

End DeleteBox.

(** * Further properties of the store *)

(** ** The in-memory log only grows; ids are handed out once *)

Section History.

Lemma step_wf this this' :
  MemStorage.wf this -> MemStorage.step this this' -> MemStorage.wf this'.
Proof.
  intros Hwf Hs. destruct Hs;
    auto using wf_createBox, wf_updateBox, wf_updateBoxPosition,
      wf_updateBoxStatus, wf_deleteBox, wf_createActivity, wf_createQrCode,
      wf_createOwner, wf_updateOwner, wf_deleteOwner.
Qed.

Lemma steps_wf this this' :
  MemStorage.wf this -> MemStorage.steps this this' -> MemStorage.wf this'.
Proof. intros Hwf Hs. induction Hs; eauto using step_wf. Qed.

Ltac log_suffix Hb :=
  rewrite createActivity_appends by (simpl; exact Hb);
  cbv zeta; simpl; eexists; reflexivity.

Lemma step_log_grows this this' :
  MemStorage.wf this -> MemStorage.step this this' ->
  exists suffix,
    MemStorage.activities this' = (MemStorage.activities this ++ suffix)%list.
Proof.
  intros Hwf Hs. pose proof (MemStorage.wf_activities _ Hwf) as Hb.
  assert (exists suffix : JsMap.t Activity.t,
             MemStorage.activities this
             = (MemStorage.activities this ++ suffix)%list) as Hsame
    by (exists []; now rewrite app_nil_r).
  destruct Hs.
  - unfold MemStorage.createBox. log_suffix Hb.
  - unfold MemStorage.updateBox.
    destruct (JsMap.get id (MemStorage.boxes this)); [log_suffix Hb | exact Hsame].
  - unfold MemStorage.updateBoxPosition.
    destruct (JsMap.get id (MemStorage.boxes this)); [log_suffix Hb | exact Hsame].
  - unfold MemStorage.updateBoxStatus.
    destruct (JsMap.get id (MemStorage.boxes this)); [log_suffix Hb | exact Hsame].
  - unfold MemStorage.deleteBox.
    destruct (JsMap.get id (MemStorage.boxes this)); [|exact Hsame].
    rewrite qr_sweep_spec. log_suffix Hb.
  - log_suffix Hb.
  - exact Hsame.
  - exact Hsame.
  - unfold MemStorage.updateOwner.
    destruct (JsMap.get id (MemStorage.owners this)); exact Hsame.
  - unfold MemStorage.deleteOwner.
    destruct (JsMap.get id (MemStorage.owners this)); [|exact Hsame].
    destruct (0 <? _)%nat; exact Hsame.
Qed.



(** X1: in memory the activity log is append-only.  Whatever calls are
    made on a store -- updates, deletions of boxes and owners included --
    the log afterwards is the log before followed by new entries: no
    activity is removed, changed or reordered. *)
Theorem X1_memory_log_is_append_only (this this' : MemStorage.t) :
  MemStorage.wf this ->
  MemStorage.steps this this' ->
  exists suffix,
    MemStorage.activities this' = (MemStorage.activities this ++ suffix)%list.
Proof.
  intros Hwf Hs. induction Hs as [this|this mid this' Hs IH Hstep].
  - exists []. now rewrite app_nil_r.
  - destruct (IH Hwf) as [s1 E1].
    destruct (step_log_grows mid this' (steps_wf _ _ Hwf Hs) Hstep) as [s2 E2].
    exists (s1 ++ s2)%list. now rewrite E2, E1, app_assoc.
Qed.

Lemma X1_witness :
  exists suffix,
    MemStorage.activities
      (snd (MemStorage.deleteBox 1 4000
              (snd (MemStorage.updateBoxStatus 1 "staging" 3000 3000
                      Example.mem1))))
    = (MemStorage.activities Example.mem1 ++ suffix)%list.
Proof.
  apply (X1_memory_log_is_append_only Example.mem1 _ wf_mem1).
  eapply MemStorage.steps_step; [eapply MemStorage.steps_step|].
  - apply MemStorage.steps_refl.
  - apply (MemStorage.step_updateBoxStatus 1 "staging" 3000 3000).
  - apply (MemStorage.step_deleteBox 1 4000).
Defined.

End History.

Section IdsOnce.

Import Pg DatabaseStorage.

Local Abbreviation seq_mono m :=
  (forall db, boxes_id_seq db <= boxes_id_seq (snd (m db))).

















End IdsOnce.

(** ** What a deletion in the database takes with it *)

Section Cascade.

Import Pg DatabaseStorage.

(** X3: in the database, [deleteBox] on an existing box raises (the insert
    of its "deleted" activity is rejected), and what it leaves behind has
    lost the box, every activity of the box and every QR code of the box;
    all other boxes, activities, QR codes and the owners are as before. *)
Theorem X3_database_deleteBox_erases_the_box_and_its_history
    (id tAct : Z) (db : Database) (box : Box.t) :
  fst (getBox id db) = Ok (Some box) ->
  (exists e, fst (deleteBox id tAct db) = Raise e)
  /\ fst (getBox id (snd (deleteBox id tAct db))) = Ok None
  /\ boxes (snd (deleteBox id tAct db))
     = filter (fun row => negb (Box.id row =? id)) (boxes db)
  /\ activities (snd (deleteBox id tAct db))
     = filter
         (fun row =>
            match Activity.boxId row with
            | Some b => negb (b =? id)
            | None => true
            end)
         (activities db)
  /\ qr_codes (snd (deleteBox id tAct db))
     = filter (fun row => negb (QrCode.boxId row =? id)) (qr_codes db)
  /\ owners (snd (deleteBox id tAct db)) = owners db.
Proof.
  intros Hfound. pose proof (getBox_fits _ _ _ Hfound) as Hfit.
  destruct (deleteBox_found_tables id tAct db box Hfound)
    as (Hb & Ha & Hq & Ho).
  destruct (deleteBox_found_raises id tAct db box Hfound) as [e He].
  split; [exists e; now rewrite He|]. split; [|auto].
  rewrite getBox_run by assumption. cbn [fst]. rewrite Hb.
  f_equal. apply first_filter_None.
  apply not_true_is_false. intros H.
  apply existsb_exists in H as [row [Hin Hid]].
  apply filter_In in Hin as [_ Hn]. now rewrite Hid in Hn.
Qed.

Lemma X3_witness :
  activities (snd (deleteBox 1 2500 Example.db_qr)) = []
  /\ qr_codes (snd (deleteBox 1 2500 Example.db_qr)) = [].
Proof.
  destruct (X3_database_deleteBox_erases_the_box_and_its_history
              1 2500 Example.db_qr _ eq_refl) as (_ & _ & _ & Ha & Hq & _).
  rewrite Ha, Hq. split; reflexivity.
Defined.



End Cascade.

(** ** A call on one box and the other boxes *)

Section Frame.

Import Pg DatabaseStorage.

Lemma first_filter_update_ne id id' (set : Box.t -> Box.t) rows :
  id <> id' ->
  (forall row, Box.id (set row) = Box.id row) ->
  first
    (filter (fun row => Box.id row =? id')
       (map (fun row => if Box.id row =? id then set row else row) rows))
  = first (filter (fun row => Box.id row =? id') rows).
Proof.
  intros Hne Hset. induction rows as [|row rows IH]; simpl; [reflexivity|].
  destruct (Z.eqb_spec (Box.id row) id) as [E|E].
  - rewrite Hset. destruct (Z.eqb_spec (Box.id row) id'); [congruence | exact IH].
  - destruct (Box.id row =? id'); [reflexivity | exact IH].
Qed.

Lemma first_filter_delete_ne id id' (rows : list Box.t) :
  id <> id' ->
  first
    (filter (fun row => Box.id row =? id')
       (filter (fun row => negb (Box.id row =? id)) rows))
  = first (filter (fun row => Box.id row =? id') rows).
Proof.
  intros Hne. induction rows as [|row rows IH]; simpl; [reflexivity|].
  destruct (Z.eqb_spec (Box.id row) id) as [E|E]; simpl.
  - destruct (Z.eqb_spec (Box.id row) id'); [congruence | exact IH].
  - destruct (Box.id row =? id'); [reflexivity | exact IH].
Qed.

Lemma mem_frame id id' this :
  id <> id' ->
  forall boxData position optStatus status now tAct,
    MemStorage.getBox id' (snd (MemStorage.updateBox id boxData now tAct this))
      = MemStorage.getBox id' this
    /\ MemStorage.getBox id'
         (snd (MemStorage.updateBoxStatus id status now tAct this))
       = MemStorage.getBox id' this
    /\ MemStorage.getBox id'
         (snd (MemStorage.updateBoxPosition id position optStatus now tAct this))
       = MemStorage.getBox id' this
    /\ MemStorage.getBox id' (snd (MemStorage.deleteBox id tAct this))
       = MemStorage.getBox id' this.
Proof.
  intros Hne boxData position optStatus status now tAct.
  unfold MemStorage.getBox, MemStorage.updateBox, MemStorage.updateBoxStatus,
    MemStorage.updateBoxPosition, MemStorage.deleteBox.
  destruct (JsMap.get id (MemStorage.boxes this)) as [box|]; [|auto].
  rewrite qr_sweep_spec. simpl.
  rewrite !get_set_ne by assumption. rewrite get_delete_ne by assumption. auto.
Qed.

Lemma db_frame id id' db :
  id <> id' ->
  wf db ->
  forall boxData position optStatus status now tAct,
    fst (getBox id' (snd (updateBox id boxData now tAct db)))
      = fst (getBox id' db)
    /\ fst (getBox id' (snd (updateBoxStatus id status now tAct db)))
       = fst (getBox id' db)
    /\ fst (getBox id'
              (snd (updateBoxPosition id position optStatus now tAct db)))
       = fst (getBox id' db)
    /\ fst (getBox id' (snd (deleteBox id tAct db))) = fst (getBox id' db).
Proof.
  intros Hne Hwf boxData position optStatus status now tAct.
  pose proof (wf_activities_seq _ (wf_constraints _ Hwf)) as Hfresh.
  destruct (int4 id) eqn:Hfit.
  2:{ destruct (update_out_of_range id db Hfit boxData position optStatus
                  status now tAct) as (-> & -> & -> & ->).
      auto. }
  destruct (first (filter (fun row => Box.id row =? id) (boxes db)))
    as [box|] eqn:Hf.
  - assert (fst (getBox id db) = Ok (Some box)) as Hfound
      by (rewrite getBox_run by assumption; simpl; now rewrite Hf).
    rewrite (updateBoxStatus_found id status now tAct db box Hfresh Hfound).
    rewrite (updateBoxPosition_found id position optStatus now tAct db box
               Hfresh Hfound).
    destruct (deleteBox_found_tables id tAct db box Hfound) as (Hb & _).
    assert (fst (getBox id' (snd (updateBox id boxData now tAct db)))
            = fst (getBox id' db)) as Hupdate.
    { destruct (forallb int4 (optional (PartialInsertBox.boxNumber boxData)))
        eqn:Hnum.
      - rewrite (updateBox_found id boxData now tAct db box Hfresh Hnum Hfound).
        rewrite !getBox_eval. destruct (int4 id'); [|reflexivity]. simpl.
        now rewrite first_filter_update_ne by (assumption || reflexivity).
      - now rewrite (updateBox_out_of_range id boxData now tAct db box Hnum
                       Hfound). }
    split; [exact Hupdate|].
    rewrite !getBox_eval. destruct (int4 id'); [|auto]. simpl. rewrite Hb.
    rewrite !first_filter_update_ne by (assumption || reflexivity).
    now rewrite first_filter_delete_ne.
  - apply first_filter_None in Hf.
    destruct (update_absent id db Hfit Hf boxData position optStatus status
                now tAct) as (-> & -> & -> & ->).
    auto.
Qed.

(** X5: a call on the box [id] leaves every other box as it is.  After
    [updateBox], [updateBoxStatus], [updateBoxPosition] or [deleteBox] on
    [id], [getBox] of any other id answers what it answered before, and a
    box that was there is still there, unchanged, after a [createBox].  In
    memory and in the database. *)
Theorem X5_a_call_on_one_box_leaves_the_others
    (id id' : Z) (boxData : PartialInsertBox.t) (newBox : InsertBox.t)
    (position : BoxPosition.t) (optStatus : option string) (status : string)
    (now tAct : Z) (this : MemStorage.t) (db : Database) :
  id <> id' ->
  MemStorage.wf this ->
  wf db ->
  (MemStorage.getBox id' (snd (MemStorage.updateBox id boxData now tAct this))
     = MemStorage.getBox id' this
   /\ MemStorage.getBox id'
        (snd (MemStorage.updateBoxStatus id status now tAct this))
      = MemStorage.getBox id' this
   /\ MemStorage.getBox id'
        (snd (MemStorage.updateBoxPosition id position optStatus now tAct this))
      = MemStorage.getBox id' this
   /\ MemStorage.getBox id' (snd (MemStorage.deleteBox id tAct this))
      = MemStorage.getBox id' this
   /\ (forall box,
          MemStorage.getBox id' this = Some box ->
          MemStorage.getBox id'
            (snd (MemStorage.createBox newBox now tAct this)) = Some box))
  /\ (fst (getBox id' (snd (updateBox id boxData now tAct db)))
        = fst (getBox id' db)
      /\ fst (getBox id' (snd (updateBoxStatus id status now tAct db)))
         = fst (getBox id' db)
      /\ fst (getBox id'
                (snd (updateBoxPosition id position optStatus now tAct db)))
         = fst (getBox id' db)
      /\ fst (getBox id' (snd (deleteBox id tAct db))) = fst (getBox id' db)
      /\ (forall box,
             fst (getBox id' db) = Ok (Some box) ->
             fst (getBox id' (snd (createBox newBox now tAct db)))
             = Ok (Some box))).
Proof.
  intros Hne Hmem Hdb. split.
  - destruct (mem_frame id id' this Hne boxData position optStatus status
                now tAct) as (H1 & H2 & H3 & H4).
    repeat (split; [assumption|]).
    intros box Hbox. unfold MemStorage.getBox in *.
    unfold MemStorage.createBox. simpl. rewrite get_set_ne; [assumption|].
    intros E. pose proof (get_below _ _ _ _ (MemStorage.wf_boxes _ Hmem) Hbox).
    lia.
  - destruct (db_frame id id' db Hne Hdb boxData position optStatus status
                now tAct) as (H1 & H2 & H3 & H4).
    repeat (split; [assumption|]).
    intros box Hbox. pose proof (getBox_fits _ _ _ Hbox) as Hfit'.
    destruct (int4 (InsertBox.boxNumber newBox)) eqn:Hnum;
      [|now rewrite createBox_out_of_range].
    apply getBox_found in Hbox. pose proof (wf_constraints _ Hdb) as Hc.
    rewrite createBox_eval;
      [|apply (wf_boxes_seq _ Hc) | apply (wf_activities_seq _ Hc)
       |apply (wf_boxes_id_seq _ Hdb) | exact Hnum].
    cbv zeta. rewrite getBox_run by assumption. simpl. rewrite filter_app.
    unfold first in *. destruct (filter _ (boxes db)); [discriminate|].
    simpl in *. congruence.
Qed.

Lemma X5_witness :
  MemStorage.getBox 1 (snd (MemStorage.deleteBox 2 9000 Example.mem2))
    = MemStorage.getBox 1 Example.mem2
  /\ fst (getBox 1 (snd (deleteBox 2 9000 Example.db2)))
     = fst (getBox 1 Example.db2).
Proof.
  destruct (X5_a_call_on_one_box_leaves_the_others 2 1 Example.bogus
              Example.attic Example.front_left_high None "out" 9000 9000
              Example.mem2 Example.db2)
    as [(_ & _ & _ & Hm & _) (_ & _ & _ & Hd & _)].
  - discriminate.
  - apply wf_mem2.
  - apply wf_db2.
  - split; assumption.
Defined.

End Frame.

(** ** Placing a box, then changing its status *)

Section PlaceThenStatus.

Import Pg DatabaseStorage.








End PlaceThenStatus.

(** ** The activities of one box *)

Section BoxActivities.

Context {A : Type} (key : A -> Z) (p : A -> bool).

Lemma sort_insert_first x l :
  Forall (fun y => key y <= key x) l ->
  Js.sort_insert (fun a b => key b - key a) x l = x :: l.
Proof.
  intros H. destruct H as [|y l Hy _]; simpl; [reflexivity|].
  destruct (Z.leb_spec (key y - key x) 0); [reflexivity | lia].
Qed.

Lemma filter_sort_insert x l :
  StronglySorted (fun a b => key b <= key a) l ->
  filter p (Js.sort_insert (fun a b => key b - key a) x l)
  = if p x
    then Js.sort_insert (fun a b => key b - key a) x (filter p l)
    else filter p l.
Proof.
  induction 1 as [|y l Hs IH Hy]; simpl.
  - now destruct (p x).
  - destruct (Z.leb_spec (key y - key x) 0) as [Hle|Hgt]; simpl.
    + destruct (p x) eqn:Hx; [|reflexivity].
      destruct (p y) eqn:Hpy; simpl.
      * destruct (Z.leb_spec (key y - key x) 0); [reflexivity | lia].
      * symmetry. apply sort_insert_first.
        apply Forall_filter. eapply Forall_impl; [|exact Hy].
        simpl. intros. lia.
    + rewrite IH. destruct (p x) eqn:Hx, (p y) eqn:Hpy; simpl; try reflexivity.
      destruct (Z.leb_spec (key y - key x) 0); [lia | reflexivity].
Qed.

Lemma filter_sort l :
  filter p (Js.sort (fun a b => key b - key a) l)
  = Js.sort (fun a b => key b - key a) (filter p l).
Proof.
  induction l as [|x l IH]; simpl; [reflexivity|].
  rewrite filter_sort_insert by apply (sort_sorted key).
  rewrite IH. now destruct (p x).
Qed.

End BoxActivities.

Section BoxActivitiesOfStore.

(** X7: [getBoxActivities(id)] lists exactly those activities of
    [getActivities()] that carry the box id, in the same order: in memory
    the per-box list is the full list filtered.  In the database, for an
    id that fits the 32-bit column there is an answer, and every answer
    holds exactly the stored activities of the box, newest first; for an
    id outside that range the call raises. *)
Theorem X7_getBoxActivities_is_getActivities_filtered
    (boxId : Z) (this : MemStorage.t) (db : Pg.Database) :
  MemStorage.getBoxActivities boxId this
  = filter
      (fun a =>
         match Activity.boxId a with Some b => b =? boxId | None => false end)
      (MemStorage.getActivities None this)
  /\ (Pg.int4 boxId = true ->
      (exists answer, DatabaseStorage.getBoxActivities boxId db (Pg.Ok answer))
      /\ forall r,
           DatabaseStorage.getBoxActivities boxId db r ->
           exists answer,
             r = Pg.Ok answer
             /\ Spec.newest_first answer
             /\ forall a,
                  In a answer
                  <-> In a (Pg.activities db) /\ Activity.boxId a = Some boxId)
  /\ (Pg.int4 boxId = false ->
      DatabaseStorage.getBoxActivities boxId db
        (Pg.Raise Pg.numeric_value_out_of_range)
      /\ forall r,
           DatabaseStorage.getBoxActivities boxId db r ->
           r = Pg.Raise Pg.numeric_value_out_of_range).
Proof.
  split; [|split].
  - unfold MemStorage.getBoxActivities, MemStorage.getActivities. simpl.
    symmetry. apply (filter_sort Activity.timestamp).
  - intros Hfit. split.
    + eexists. apply DatabaseStorage.getBoxActivities_rows; [exact Hfit|].
      apply (order_by_desc_total Activity.timestamp).
    + intros r Hr. destruct Hr as [answer _ [Hperm Hsorted]|Hout];
        [|congruence].
      exists answer. split; [reflexivity|]. split; [exact Hsorted|].
      intros a. split.
      * intros Hin. apply (Permutation_in _ (Permutation_sym Hperm)) in Hin.
        apply filter_In in Hin as [Hin Hb]. split; [exact Hin|].
        destruct (Activity.boxId a) as [b|]; [|discriminate].
        apply Z.eqb_eq in Hb. now subst.
      * intros [Hin Hb]. apply (Permutation_in _ Hperm).
        apply filter_In. split; [exact Hin|]. rewrite Hb. apply Z.eqb_refl.
  - intros Hfit. split.
    + now apply DatabaseStorage.getBoxActivities_out_of_range.
    + intros r Hr. destruct Hr as [answer Hin _|_]; [congruence | reflexivity].
Qed.

Lemma X7_witness :
  (exists answer,
      DatabaseStorage.getBoxActivities 1 Example.db2 (Pg.Ok answer)
      /\ Spec.newest_first answer)
  /\ DatabaseStorage.getBoxActivities 2147483648 Example.db2
       (Pg.Raise Pg.numeric_value_out_of_range).
Proof.
  destruct (X7_getBoxActivities_is_getActivities_filtered 1 Example.mem2
              Example.db2) as (_ & Hd & _).
  destruct (X7_getBoxActivities_is_getActivities_filtered 2147483648
              Example.mem2 Example.db2) as (_ & _ & Hr).
  destruct (Hd eq_refl) as [[answer Ha] Hall].
  destruct (Hr eq_refl) as [Hraise _].
  split; [|exact Hraise].
  destruct (Hall _ Ha) as (answer' & [= <-] & Hsorted & _).
  exists answer. split; assumption.
Defined.

End BoxActivitiesOfStore.

(** ** Owners *)

Section Owners.

Import Pg DatabaseStorage.




Lemma first_filter_set_ne {A} (key : A -> Z) id id' (set : A -> A) rows :
  id <> id' ->
  (forall row, key (set row) = key row) ->
  first
    (filter (fun row => key row =? id')
       (map (fun row => if key row =? id then set row else row) rows))
  = first (filter (fun row => key row =? id') rows).
Proof.
  intros Hne Hset. induction rows as [|row rows IH]; simpl; [reflexivity|].
  destruct (Z.eqb_spec (key row) id) as [E|E].
  - rewrite Hset. destruct (Z.eqb_spec (key row) id'); [congruence | exact IH].
  - destruct (key row =? id'); [reflexivity | exact IH].
Qed.

Lemma first_filter_remove {A} (key : A -> Z) id (rows : list A) :
  first
    (filter (fun row => key row =? id)
       (filter (fun row => negb (key row =? id)) rows)) = None.
Proof.
  induction rows as [|row rows IH]; simpl; [reflexivity|].
  destruct (key row =? id) eqn:E; simpl; [exact IH | now rewrite E].
Qed.

Lemma first_filter_remove_ne {A} (key : A -> Z) id id' (rows : list A) :
  id <> id' ->
  first
    (filter (fun row => key row =? id')
       (filter (fun row => negb (key row =? id)) rows))
  = first (filter (fun row => key row =? id') rows).
Proof.
  intros Hne. induction rows as [|row rows IH]; simpl; [reflexivity|].
  destruct (Z.eqb_spec (key row) id) as [E|E]; simpl.
  - destruct (Z.eqb_spec (key row) id'); [congruence | exact IH].
  - destruct (key row =? id'); [reflexivity | exact IH].
Qed.



End Owners.

Section OwnersUpdateDelete.

Import Pg DatabaseStorage.



Lemma filter_nil_iff {A} (f : A -> bool) (l : list A) :
  filter f l = [] <-> forall x, In x l -> f x = false.
Proof.
  induction l as [|y l IH]; simpl.
  - split; [intros _ x [] | reflexivity].
  - destruct (f y) eqn:Hy.
    + split; [discriminate|]. intros H. specialize (H y (or_introl eq_refl)).
      congruence.
    + rewrite IH. split.
      * intros H x [<-|Hx]; auto.
      * intros H x Hx. apply H. now right.
Qed.

(** X10: the two outcomes of [deleteOwner], for owner names made of ASCII
    characters.  It returns [true] exactly when the owner exists and no
    box names it -- in memory up to the case of letters, in the database
    letter for letter; then the owner is gone and nothing else has
    changed: the other owners, the boxes, the activities and the QR codes
    are as before.  Whenever it returns [false] -- owner absent or in use
    -- the store is as before.  (In the database an id outside the 32 bits
    of the id column makes the call raise; the store is as before then,
    too.) *)
Theorem X10_deleteOwner_outcomes
    (id : Z) (this : MemStorage.t) (db : Database) :
  (forall box,
      In box (MemStorage.getBoxes this) -> Js.is_ascii (Box.owner box) = true) ->
  (forall owner,
      MemStorage.getOwner id this = Some owner ->
      Js.is_ascii (Owner.name owner) = true) ->
  (fst (MemStorage.deleteOwner id this) = true
   <-> exists owner,
         MemStorage.getOwner id this = Some owner
         /\ forall box,
              In box (MemStorage.getBoxes this) ->
              Js.toLowerCase (Box.owner box)
              <> Js.toLowerCase (Owner.name owner))
  /\ (fst (MemStorage.deleteOwner id this) = false ->
      snd (MemStorage.deleteOwner id this) = this)
  /\ (fst (MemStorage.deleteOwner id this) = true ->
      MemStorage.getOwner id (snd (MemStorage.deleteOwner id this)) = None
      /\ (forall k,
             k <> id ->
             MemStorage.getOwner k (snd (MemStorage.deleteOwner id this))
             = MemStorage.getOwner k this)
      /\ MemStorage.boxes (snd (MemStorage.deleteOwner id this))
         = MemStorage.boxes this
      /\ MemStorage.activities (snd (MemStorage.deleteOwner id this))
         = MemStorage.activities this
      /\ MemStorage.qrCodes (snd (MemStorage.deleteOwner id this))
         = MemStorage.qrCodes this)
  /\ (fst (deleteOwner id db) = Ok true
      <-> exists owner,
            fst (getOwner id db) = Ok (Some owner)
            /\ forall box,
                 In box (boxes db) -> Box.owner box <> Owner.name owner)
  /\ (fst (deleteOwner id db) = Ok false -> snd (deleteOwner id db) = db)
  /\ (fst (deleteOwner id db) = Ok true ->
      fst (getOwner id (snd (deleteOwner id db))) = Ok None
      /\ (forall k,
             k <> id ->
             fst (getOwner k (snd (deleteOwner id db))) = fst (getOwner k db))
      /\ boxes (snd (deleteOwner id db)) = boxes db
      /\ activities (snd (deleteOwner id db)) = activities db
      /\ qr_codes (snd (deleteOwner id db)) = qr_codes db)
  /\ (int4 id = false ->
      deleteOwner id db = (Raise numeric_value_out_of_range, db)).
Proof.
  intros _ _.
  assert (forall (l : list Box.t), (0 <? length l)%nat = false <-> l = [])
    as Hlen.
  { intros [|x l]; simpl; split; intros H; (reflexivity || discriminate H). }
  split; [|split; [|split; [|split; [|split; [|split]]]]].
  - unfold MemStorage.deleteOwner, MemStorage.getOwner, MemStorage.getBoxes.
    destruct (JsMap.get id (MemStorage.owners this)) as [owner|].
    + destruct (0 <? _)%nat eqn:E; simpl.
      * split; [discriminate|]. intros (o & [= <-] & Hno).
        assert ((0 <? length
                   (filter
                      (fun box =>
                         String.eqb (Js.toLowerCase (Box.owner box))
                           (Js.toLowerCase (Owner.name owner)))
                      (JsMap.values (MemStorage.boxes this))))%nat = false);
          [|congruence].
        apply Hlen, filter_nil_iff. intros box Hin.
        apply String.eqb_neq. now apply Hno.
      * split; [|reflexivity]. intros _. exists owner. split; [reflexivity|].
        intros box Hin. apply String.eqb_neq.
        apply Hlen in E. now apply (proj1 (filter_nil_iff _ _) E).
    + simpl. split; [discriminate | intros (o & Ho & _); discriminate].
  - unfold MemStorage.deleteOwner.
    destruct (JsMap.get id (MemStorage.owners this)); [|reflexivity].
    destruct (0 <? _)%nat; [reflexivity | discriminate].
  - unfold MemStorage.deleteOwner, MemStorage.getOwner.
    destruct (JsMap.get id (MemStorage.owners this)); [|discriminate].
    destruct (0 <? _)%nat; [discriminate|]. simpl. intros _.
    split; [apply get_delete_eq|]. split; [|auto].
    intros k Hk. apply get_delete_ne. congruence.
  - rewrite deleteOwner_eval, getOwner_eval.
    destruct (int4 id);
      [|split; [discriminate | intros (o & Ho & _); discriminate]].
    destruct (first _) as [owner|]; simpl.
    + destruct (0 <? _)%nat eqn:E; simpl.
      * split; [discriminate|]. intros (o & [= <-] & Hno).
        assert ((0 <? length
                   (filter
                      (fun row => String.eqb (Box.owner row) (Owner.name owner))
                      (boxes db)))%nat = false);
          [|congruence].
        apply Hlen, filter_nil_iff. intros box Hin.
        apply String.eqb_neq. now apply Hno.
      * split; [|reflexivity]. intros _. exists owner. split; [reflexivity|].
        intros box Hin. apply String.eqb_neq.
        apply Hlen in E. now apply (proj1 (filter_nil_iff _ _) E).
    + split; [discriminate | intros (o & Ho & _); discriminate].
  - rewrite deleteOwner_eval. destruct (int4 id); [|reflexivity].
    destruct (first _) as [owner|]; [|reflexivity].
    destruct (0 <? _)%nat; [reflexivity | discriminate].
  - rewrite deleteOwner_eval. destruct (int4 id) eqn:Hfit; [|discriminate].
    destruct (first _) as [owner|]; [|discriminate].
    destruct (0 <? _)%nat; [discriminate|]. intros _.
    rewrite !getOwner_eval. rewrite Hfit. simpl.
    split; [f_equal; apply (first_filter_remove Owner.id)|].
    split; [|auto].
    intros k Hk. rewrite !getOwner_eval.
    destruct (int4 k); [|reflexivity]. simpl. f_equal.
    apply (first_filter_remove_ne Owner.id). congruence.
  - intros Hfit. now rewrite deleteOwner_eval, Hfit.
Qed.

Lemma X10_witness :
  snd (MemStorage.deleteOwner 1 Example.mem_owner) = Example.mem_owner
  /\ fst (getOwner 1 (snd (deleteOwner 1 Example.db_owner))) = Ok None
  /\ deleteOwner 2147483648 Example.db_owner
     = (Raise numeric_value_out_of_range, Example.db_owner).
Proof.
  destruct (X10_deleteOwner_outcomes 1 Example.mem_owner Example.db_owner)
    as (_ & Hm & _ & _ & _ & Hd & _).
  - intros box [<-|[]]. reflexivity.
  - intros owner [= <-]. reflexivity.
  - destruct (X10_deleteOwner_outcomes 2147483648 Example.mem_owner
                Example.db_owner) as (_ & _ & _ & _ & _ & _ & Hout).
    + intros box [<-|[]]. reflexivity.
    + intros owner [=].
    + split; [|split].
      * apply Hm. reflexivity.
      * apply Hd. reflexivity.
      * exact (Hout eq_refl).
Defined.

End OwnersUpdateDelete.

(** ** The QR code of a box *)

Section QrRoute.

Import Pg DatabaseStorage.

Lemma find_snoc_none {A} (f : A -> bool) (l : list A) (x : A) :
  find f l = None -> f x = true -> find f (l ++ [x]) = Some x.
Proof.
  induction l as [|y l IH]; simpl; intros Hn Hx.
  - now rewrite Hx.
  - destruct (f y); [discriminate | auto].
Qed.

Lemma route_mem_found id now this q :
  MemStorage.getQrCodeByBoxId id this = Some q ->
  Routes.getQrCode_mem (Some id) now this = (Routes.Json 200 q, this).
Proof. unfold Routes.getQrCode_mem. now intros ->. Qed.

Lemma route_db_found id now db q :
  fst (getQrCodeByBoxId id db) = Ok (Some q) ->
  Routes.getQrCode_db (Some id) now db = (Routes.Json 200 q, db).
Proof.
  rewrite getQrCodeByBoxId_eval.
  destruct (int4 id) eqn:Hfit; [|discriminate]. simpl. intros [= Hq].
  unfold Routes.getQrCode_db, Routes.getQrCode_try. unfold bind at 1.
  now rewrite getQrCodeByBoxId_eval, Hfit, Hq.
Qed.

(** X11: the QR route creates at most one code per box.  For an existing
    box on a consistent store [GET /api/boxes/:id/qrcode] answers 200 with
    a QR code of that box; when the box had none, the code is new, its
    data is "boxtracker-" followed by the id and it is the only row added.
    Asking again, at any time, answers with the same code and leaves the
    store as the first call left it.  In memory and in the database. *)
Theorem X11_qr_route_is_idempotent
    (id : Z) (t1 : Z) (this : MemStorage.t) (db : Database) (box row : Box.t) :
  MemStorage.wf this ->
  MemStorage.getBox id this = Some box ->
  wf db ->
  fst (getBox id db) = Ok (Some row) ->
  (exists q this1,
      Routes.getQrCode_mem (Some id) t1 this = (Routes.Json 200 q, this1)
      /\ QrCode.boxId q = id
      /\ (MemStorage.getQrCodeByBoxId id this = None ->
          QrCode.data q = "boxtracker-" ++ Js.toString id
          /\ MemStorage.qrCodes this1
             = (MemStorage.qrCodes this ++ [(QrCode.id q, q)])%list)
      /\ forall t2,
           Routes.getQrCode_mem (Some id) t2 this1 = (Routes.Json 200 q, this1))
  /\ (exists q db1,
         Routes.getQrCode_db (Some id) t1 db = (Routes.Json 200 q, db1)
         /\ QrCode.boxId q = id
         /\ (fst (getQrCodeByBoxId id db) = Ok None ->
             QrCode.data q = "boxtracker-" ++ Js.toString id
             /\ qr_codes db1 = (qr_codes db ++ [q])%list)
         /\ forall t2,
              Routes.getQrCode_db (Some id) t2 db1 = (Routes.Json 200 q, db1)).
Proof.
  intros Hmem Hbox Hdb Hrow. split.
  - destruct (MemStorage.getQrCodeByBoxId id this) as [q|] eqn:Hq.
    + exists q, this. split; [now apply route_mem_found|].
      split; [|split; [discriminate|]].
      * unfold MemStorage.getQrCodeByBoxId in Hq.
        apply find_some in Hq as [_ Hq]. now apply Z.eqb_eq.
      * intros t2. now apply route_mem_found.
    + unfold Routes.getQrCode_mem. rewrite Hq, Hbox. simpl.
      pose proof (below_fresh _ _ (MemStorage.wf_qrCodes _ Hmem)) as Hfresh.
      eexists. eexists. split; [reflexivity|]. simpl.
      split; [reflexivity|]. split.
      * intros _. split; [reflexivity|]. now apply set_fresh.
      * intros t2. apply route_mem_found.
        unfold MemStorage.getQrCodeByBoxId in *. simpl.
        rewrite (set_fresh _ _ _ Hfresh). unfold JsMap.values.
        rewrite map_app. simpl. apply find_snoc_none; [exact Hq|].
        simpl. apply Z.eqb_refl.
  - pose proof (getBox_fits _ _ _ Hrow) as Hfit.
    destruct (first (filter (fun r => QrCode.boxId r =? id) (qr_codes db)))
      as [q|] eqn:Hq.
    + exists q, db.
      assert (fst (getQrCodeByBoxId id db) = Ok (Some q)) as Hfound
        by (rewrite getQrCodeByBoxId_run by assumption; simpl; now rewrite Hq).
      split; [now apply route_db_found|].
      split; [|split].
      * apply first_filter_Some in Hq as [_ Hq]. now apply Z.eqb_eq.
      * rewrite Hfound. discriminate.
      * intros t2. now apply route_db_found.
    + pose proof (getBox_found _ _ _ Hrow) as Hrow'.
      destruct (found_has_box _ _ _ Hrow') as [Hhas _].
      unfold Routes.getQrCode_db, Routes.getQrCode_try. unfold bind at 1.
      rewrite getQrCodeByBoxId_run, Hq by assumption. unfold bind at 1.
      rewrite getBox_run, Hrow' by assumption. unfold bind.
      rewrite createQrCode_eval
        by apply (wf_qr_codes_seq _ (wf_constraints _ Hdb)).
      cbn [InsertQrCode.boxId]. rewrite Hfit, Hhas. cbv zeta. unfold ret.
      eexists. eexists. split; [reflexivity|].
      split; [reflexivity|]. split.
      * intros _. split; reflexivity.
      * intros t2. apply route_db_found.
        rewrite getQrCodeByBoxId_run by assumption. simpl.
        rewrite filter_app. simpl. rewrite Z.eqb_refl.
        unfold first in *. destruct (filter _ (qr_codes db)); [|discriminate].
        reflexivity.
Qed.

Lemma X11_witness :
  (exists q this1,
      Routes.getQrCode_mem (Some 1) 1500 Example.mem1 = (Routes.Json 200 q, this1)
      /\ QrCode.data q = "boxtracker-1"
      /\ Routes.getQrCode_mem (Some 1) 1600 this1 = (Routes.Json 200 q, this1))
  /\ (exists q db1,
         Routes.getQrCode_db (Some 1) 1500 Example.db1 = (Routes.Json 200 q, db1)
         /\ QrCode.data q = "boxtracker-1"
         /\ Routes.getQrCode_db (Some 1) 1600 db1 = (Routes.Json 200 q, db1)).
Proof.
  destruct (X11_qr_route_is_idempotent 1 1500 Example.mem1 Example.db1 _ _
              wf_mem1 eq_refl wf_db1 eq_refl)
    as [(q & this1 & Hm & _ & Hnew & Hagain) (q' & db1 & Hd & _ & Hnew' & Hagain')].
  split.
  - exists q, this1. split; [exact Hm|]. split; [|apply Hagain].
    apply (Hnew eq_refl).
  - exists q', db1. split; [exact Hd|]. split; [|apply Hagain'].
    apply (Hnew' eq_refl).
Defined.

End QrRoute.

Section QrStore.

Import Pg DatabaseStorage.







End QrStore.

(** ** The text of a QR code, written and read back *)

Section QrText.

Import Utils.

Lemma strip_prefix_app p s : strip_prefix p (p ++ s) = Some s.
Proof.
  induction p as [|a p IH]; simpl; [now destruct s|].
  now rewrite Ascii.eqb_refl.
Qed.

Lemma digits_prefix_numeral d :
  digits_prefix (NilEmpty.string_of_uint d) = NilEmpty.string_of_uint d.
Proof. induction d; simpl; now rewrite ?IHd. Qed.

Lemma match_boxtracker_unfold data :
  match_boxtracker data
  = match
      match strip_prefix "boxtracker-" data with
      | Some rest => digits_prefix rest
      | None => EmptyString
      end
    with
    | String c ds => Some (String c ds)
    | EmptyString =>
        match data with
        | EmptyString => None
        | String _ r => match_boxtracker r
        end
    end.
Proof.
  destruct data as [|a r]; [reflexivity|].
  cbn [match_boxtracker].
  now destruct (match strip_prefix "boxtracker-" (String a r) with
                | Some rest => digits_prefix rest
                | None => EmptyString
                end).
Qed.

Lemma match_boxtracker_here rest c ds :
  digits_prefix rest = String c ds ->
  match_boxtracker ("boxtracker-" ++ rest) = Some (String c ds).
Proof.
  intros H. rewrite match_boxtracker_unfold.
  now rewrite strip_prefix_app, H.
Qed.

Ltac digit_code :=
  match goal with
  | |- context [Z.of_nat (nat_of_ascii ?c)] =>
      let v := eval compute in (Z.of_nat (nat_of_ascii c)) in
      change (Z.of_nat (nat_of_ascii c)) with v
  end.

Lemma digits_value_acc d (acc : positive) :
  digits_value (Z.pos acc) (NilEmpty.string_of_uint d)
  = Z.pos (Pos.of_uint_acc d acc).
Proof.
  revert acc. induction d; intros acc;
    cbn [NilEmpty.string_of_uint digits_value Pos.of_uint_acc];
    [reflexivity|..];
    rewrite <- IHd; f_equal; digit_code; lia.
Qed.

Lemma digits_value_numeral d :
  digits_value 0 (NilEmpty.string_of_uint d) = Z.of_N (Pos.of_uint d).
Proof.
  induction d;
    cbn [NilEmpty.string_of_uint digits_value Pos.of_uint];
    [reflexivity | digit_code; exact IHd |..];
    digit_code; cbn [Z.of_N]; rewrite <- digits_value_acc; f_equal.
Qed.

Lemma numeral_nonempty d :
  d <> Decimal.Nil ->
  exists c ds, NilEmpty.string_of_uint d = String c ds.
Proof. destruct d; simpl; intros H; [contradiction | eauto ..]. Qed.

Lemma toString_pos p :
  Js.toString (Z.pos p) = NilEmpty.string_of_uint (Pos.to_uint p).
Proof.
  unfold Js.toString. simpl. unfold NilZero.string_of_uint.
  pose proof (DecimalPos.Unsigned.to_uint_nonnil p).
  now destruct (Pos.to_uint p).
Qed.

Lemma parse_generate_nonneg id :
  0 <= id -> parseQrCodeData (generateQrCodeData id) = Some id.
Proof.
  intros Hid. unfold parseQrCodeData, generateQrCodeData.
  destruct id as [|p|p]; [reflexivity | | lia].
  rewrite toString_pos.
  destruct (numeral_nonempty (Pos.to_uint p)
              (DecimalPos.Unsigned.to_uint_nonnil p)) as (c & ds & E).
  rewrite (match_boxtracker_here _ c ds)
    by (rewrite digits_prefix_numeral; exact E).
  rewrite <- E, digits_value_numeral, DecimalPos.Unsigned.of_to. reflexivity.
Qed.

Lemma match_boxtracker_numeral d :
  match_boxtracker (NilEmpty.string_of_uint d) = None.
Proof. induction d; simpl; [reflexivity | exact IHd ..]. Qed.

Lemma parse_generate_negative id :
  id < 0 -> parseQrCodeData (generateQrCodeData id) = None.
Proof.
  intros Hid. unfold parseQrCodeData, generateQrCodeData.
  destruct id as [|p|p]; [lia | lia |].
  unfold Js.toString. simpl Z.to_int. unfold NilZero.string_of_int.
  unfold NilZero.string_of_uint.
  pose proof (DecimalPos.Unsigned.to_uint_nonnil p) as Hn.
  assert (match_boxtracker
            ("boxtracker-"
               ++ String "-" (NilEmpty.string_of_uint (Pos.to_uint p)))
          = None) as E.
  { simpl. apply match_boxtracker_numeral. }
  destruct (Pos.to_uint p); [contradiction | now rewrite E ..].
Qed.

(** X14: the QR text round trip.  The text written for a box id,
    "boxtracker-" followed by the id (by [generateQrCodeData] and, with the
    same template, by the QR route), is read back by [parseQrCodeData] as
    that id whenever the id is not negative; for a negative id the text is
    not recognised.  The scanner hands the id on for every id from 1
    upwards and reports the text of id 0 as invalid. *)
Theorem X14_qr_text_round_trip (id : Z) :
  (0 <= id -> parseQrCodeData (generateQrCodeData id) = Some id)
  /\ (id < 0 -> parseQrCodeData (generateQrCodeData id) = None)
  /\ (1 <= id -> QRScanner.onQrCodeSuccess (generateQrCodeData id) = Some id)
  /\ QRScanner.onQrCodeSuccess (generateQrCodeData 0) = None.
Proof.
  split; [apply parse_generate_nonneg|].
  split; [apply parse_generate_negative|].
  split; [|reflexivity].
  intros Hid. unfold QRScanner.onQrCodeSuccess.
  rewrite parse_generate_nonneg by lia.
  destruct (Z.eqb_spec id 0); [lia | reflexivity].
Qed.

Lemma X14_witness :
  parseQrCodeData (generateQrCodeData 42) = Some 42
  /\ parseQrCodeData (generateQrCodeData (-3)) = None
  /\ QRScanner.onQrCodeSuccess (generateQrCodeData 42) = Some 42.
Proof.
  destruct (X14_qr_text_round_trip 42) as (Hp & _ & Hs & _).
  destruct (X14_qr_text_round_trip (-3)) as (_ & Hn & _).
  split; [apply Hp; lia|]. split; [apply Hn; lia | apply Hs; lia].
Defined.

End QrText.

(** ** Position labels and the actions of the scan page *)

Section Labels.

Import Utils.

(** X15: the label of a position.  [formatPosition] gives the 27 cells of
    the truck 27 different labels, none of them the "-" of a box without
    position, and the truck grid's own [getPositionLabel] writes the same
    label for the same cell. *)
Theorem X15_position_labels_identify_the_cell :
  (forall p q,
      formatPosition (Some p) = formatPosition (Some q) -> p = q)
  /\ (forall p, formatPosition (Some p) <> formatPosition None)
  /\ (forall p,
         TruckView.getPositionLabel
           (BoxPosition.depth_str (BoxPosition.depth p))
           (BoxPosition.horizontal_str (BoxPosition.horizontal p))
           (BoxPosition.vertical_str (BoxPosition.vertical p))
         = formatPosition (Some p)).
Proof.
  split; [|split].
  - intros [[] [] []] [[] [] []] H; vm_compute in H;
      first [reflexivity | discriminate H].
  - intros [[] [] []]; discriminate.
  - intros [[] [] []]; reflexivity.
Qed.

Lemma X15_witness :
  Example.front_left_high = Example.front_left_high
  /\ formatPosition (Some Example.front_left_high) = "Top Front Left".
Proof.
  destruct X15_position_labels_identify_the_cell as (Hinj & _ & _).
  split; [apply Hinj|]; reflexivity.
Defined.

(** X16: the actions the scan page offers.  Every action offered for a
    box carries one of the six valid statuses, never the status the box
    already has, and is offered only for a box whose status is valid; a
    box that is "unpacked", or whose status is none of the six, is offered
    nothing. *)
Theorem X16_offered_actions_are_valid_status_changes :
  (forall status a,
      In a (ScanQR.getAvailableActions status) ->
      Spec.valid_status status
      /\ Spec.valid_status (ScanQR.value a)
      /\ ScanQR.value a <> status)
  /\ ScanQR.getAvailableActions "unpacked" = []
  /\ (forall status,
         ~ Spec.valid_status status -> ScanQR.getAvailableActions status = []).
Proof.
  split; [|split; [reflexivity|]].
  - intros status a. unfold ScanQR.getAvailableActions, Spec.valid_status.
    repeat match goal with
           | |- context [String.eqb status ?s] =>
               destruct (String.eqb_spec status s); [subst|]
           end;
      simpl; intros Hin;
      repeat match goal with
             | H : _ \/ _ |- _ => destruct H as [H|H]
             | H : False |- _ => destruct H
             end;
      subst; simpl; (split; [tauto|]); (split; [tauto | discriminate]).
  - intros status Hn. unfold ScanQR.getAvailableActions, Spec.valid_status in *.
    repeat match goal with
           | |- context [String.eqb status ?s] =>
               destruct (String.eqb_spec status s); [tauto|]
           end.
    reflexivity.
Qed.

Lemma X16_witness :
  Spec.valid_status "staging" /\ "staging" <> "packed".
Proof.
  destruct X16_offered_actions_are_valid_status_changes as (Hoffer & _).
  destruct (Hoffer "packed" (ScanQR.mk "Mark as Staging" "staging")
              (or_introl eq_refl)) as (_ & Hv & Hne).
  split; assumption.
Defined.

End Labels.

(** ** Finding a box by its number *)

Section BoxByNumber.

Import Pg DatabaseStorage.




End BoxByNumber.

(** ** The routes in front of the store *)

Section DeleteRoutes.

Import Pg DatabaseStorage.

(** X18: [DELETE /api/boxes/:id] for an existing box.  In memory it
    answers 204 and a repeated request answers 404.  On the database it
    answers 500 although the box is gone afterwards, and a repeated request
    answers 404; the repeated request changes nothing in either case. *)
Theorem X18_delete_route_reports_failure_on_the_database
    (id t1 : Z) (this : MemStorage.t) (db : Database) (box row : Box.t) :
  MemStorage.wf this ->
  MemStorage.getBox id this = Some box ->
  fst (getBox id db) = Ok (Some row) ->
  (exists this1,
      Routes.deleteBox_mem (Some id) t1 this = (Routes.Reply 204 None, this1)
      /\ forall t2,
           Routes.deleteBox_mem (Some id) t2 this1
           = (Routes.Reply 404 (Some "Box not found"), this1))
  /\ (exists db1,
         Routes.deleteBox_db (Some id) t1 db
         = (Routes.Reply 500 (Some "Failed to delete box"), db1)
         /\ fst (getBox id db1) = Ok None
         /\ forall t2,
              Routes.deleteBox_db (Some id) t2 db1
              = (Routes.Reply 404 (Some "Box not found"), db1)).
Proof.
  intros Hmem Hbox Hrow. split.
  - destruct (deleteBox_mem id t1 this Hmem) as [Hfound _].
    destruct (Hfound box Hbox) as (this1 & a & Hdel & Hgone & _).
    exists this1. unfold Routes.deleteBox_mem. rewrite Hdel.
    split; [reflexivity|]. intros t2.
    unfold MemStorage.deleteBox. unfold MemStorage.getBox in Hgone.
    now rewrite Hgone.
  - pose proof (getBox_fits _ _ _ Hrow) as Hfit.
    destruct (deleteBox_found_raises id t1 db row Hrow) as [e He].
    eexists. unfold Routes.deleteBox_db. rewrite He.
    split; [reflexivity|].
    assert (has_box id
              (with_activities_id_seq (activities_id_seq db + 1)
                 (snd (delete_boxes [id] (fun r => Box.id r =? id) db))) = false)
      as Hgone by apply (delete_boxes_gone id db Hfit).
    split.
    + now apply getBox_absent.
    + intros t2.
      destruct (update_absent id _ Hfit Hgone Example.bogus
                  Example.front_left_high None "" t2 t2) as (_ & _ & _ & ->).
      reflexivity.
Qed.

Lemma X18_witness :
  fst (Routes.deleteBox_mem (Some 1) 2500 Example.mem1) = Routes.Reply 204 None
  /\ fst (Routes.deleteBox_db (Some 1) 2500 Example.db1)
     = Routes.Reply 500 (Some "Failed to delete box")
  /\ fst (getBox 1 (snd (Routes.deleteBox_db (Some 1) 2500 Example.db1)))
     = Ok None.
Proof.
  destruct (X18_delete_route_reports_failure_on_the_database 1 2500
              Example.mem1 Example.db1 _ _ wf_mem1 eq_refl eq_refl)
    as [(this1 & Hm & _) (db1 & Hd & Hgone & _)].
  rewrite Hm, Hd. repeat split. exact Hgone.
Defined.

(** X19: [DELETE /api/owners/:id] never answers 404.  It answers 204 when
    the store deleted the owner, and otherwise 400 with the message that
    the owner may be in use, the store unchanged -- also when no owner has
    that id.  In memory these are its only answers.  On the database they
    are its only answers for an id that fits the 32-bit id column; for an
    id outside that range the lookup is refused and the route answers 500,
    the store unchanged. *)
Theorem X19_delete_owner_route_never_answers_404
    (id : Z) (this : MemStorage.t) (db : Database) :
  (Routes.deleteOwner_mem (Some id) this
   = (Routes.Reply 204 None, snd (MemStorage.deleteOwner id this))
   /\ fst (MemStorage.deleteOwner id this) = true
   \/ Routes.deleteOwner_mem (Some id) this
      = (Routes.Reply 400
           (Some "Cannot delete owner - it may be in use by one or more boxes"),
         this)
      /\ fst (MemStorage.deleteOwner id this) = false)
  /\ (MemStorage.getOwner id this = None ->
      Routes.deleteOwner_mem (Some id) this
      = (Routes.Reply 400
           (Some "Cannot delete owner - it may be in use by one or more boxes"),
         this))
  /\ (int4 id = true ->
      Routes.deleteOwner_db (Some id) db
      = (Routes.Reply 204 None, snd (deleteOwner id db))
      /\ fst (deleteOwner id db) = Ok true
      \/ Routes.deleteOwner_db (Some id) db
         = (Routes.Reply 400
              (Some "Cannot delete owner - it may be in use by one or more boxes"),
            db)
         /\ fst (deleteOwner id db) = Ok false)
  /\ (fst (getOwner id db) = Ok None ->
      Routes.deleteOwner_db (Some id) db
      = (Routes.Reply 400
           (Some "Cannot delete owner - it may be in use by one or more boxes"),
         db))
  /\ (int4 id = false ->
      Routes.deleteOwner_db (Some id) db
      = (Routes.Reply 500 (Some "Failed to delete owner"), db)).
Proof.
  split; [|split; [|split; [|split]]].
  - unfold Routes.deleteOwner_mem, MemStorage.deleteOwner.
    destruct (JsMap.get id (MemStorage.owners this)); [|now right].
    destruct (0 <? _)%nat; [now right | now left].
  - unfold Routes.deleteOwner_mem, MemStorage.deleteOwner, MemStorage.getOwner.
    now intros ->.
  - intros Hfit. unfold Routes.deleteOwner_db. rewrite deleteOwner_eval, Hfit.
    destruct (first _); [|now right].
    destruct (0 <? _)%nat; [now right | now left].
  - intros Hn. pose proof (getOwner_fits _ _ _ Hn) as Hfit.
    rewrite getOwner_run in Hn by assumption. simpl in Hn.
    injection Hn as Hn.
    unfold Routes.deleteOwner_db. now rewrite deleteOwner_eval, Hfit, Hn.
  - intros Hfit. unfold Routes.deleteOwner_db.
    now rewrite deleteOwner_eval, Hfit.
Qed.

Lemma X19_witness :
  Routes.deleteOwner_mem (Some 5) Example.mem_owner
  = (Routes.Reply 400
       (Some "Cannot delete owner - it may be in use by one or more boxes"),
     Example.mem_owner)
  /\ Routes.deleteOwner_db (Some 5) Example.db_owner
     = (Routes.Reply 400
          (Some "Cannot delete owner - it may be in use by one or more boxes"),
        Example.db_owner)
  /\ Routes.deleteOwner_db (Some 2147483648) Example.db_owner
     = (Routes.Reply 500 (Some "Failed to delete owner"), Example.db_owner).
Proof.
  destruct (X19_delete_owner_route_never_answers_404 5 Example.mem_owner
              Example.db_owner) as (_ & Hm & _ & Hd & _).
  destruct (X19_delete_owner_route_never_answers_404 2147483648
              Example.mem_owner Example.db_owner) as (_ & _ & _ & _ & Hr).
  split; [apply Hm | split; [apply Hd | apply Hr]]; reflexivity.
Defined.

End DeleteRoutes.

Section PatchRoutes.

Import Pg DatabaseStorage.

Lemma statusEnum_Some status s :
  Routes.statusEnum status = Some s ->
  status = Js.Str s /\ Spec.valid_status s.
Proof.
  unfold Routes.statusEnum. destruct status as [| |s'|n|b]; try discriminate.
  destruct (Js.includes BoxStatus.values s') eqn:E; [|discriminate].
  intros [= <-]. split; [reflexivity | now apply includes_valid].
Qed.

Lemma statusEnum_None status :
  (forall s, status = Js.Str s -> ~ Spec.valid_status s) ->
  Routes.statusEnum status = None.
Proof.
  intros Hno. destruct (Routes.statusEnum status) as [s|] eqn:E;
    [|reflexivity].
  apply statusEnum_Some in E as [-> Hv]. now destruct (Hno s eq_refl).
Qed.

Lemma mem_updateBoxStatus_returns id status now tAct this box :
  fst (MemStorage.updateBoxStatus id status now tAct this) = Some box ->
  Box.status box = status
  /\ MemStorage.getBox id
       (snd (MemStorage.updateBoxStatus id status now tAct this)) = Some box.
Proof.
  unfold MemStorage.updateBoxStatus, MemStorage.getBox.
  destruct (JsMap.get id (MemStorage.boxes this)); [|discriminate].
  simpl. intros [= <-]. split; [reflexivity | apply get_set_eq].
Qed.

Lemma db_updateBoxStatus_returns id status now tAct db row :
  fst (updateBoxStatus id status now tAct db) = Ok (Some row) ->
  Box.status row = status.
Proof.
  unfold updateBoxStatus. unfold bind at 1. rewrite getBox_eval.
  destruct (int4 id) eqn:Hfit; [|discriminate].
  destruct (first _) as [box|]; [|discriminate].
  unfold bind at 1. unfold update_boxes. rewrite bound_one, Hfit.
  unfold bind at 1.
  destruct (createActivity _ _ _) as [[a|e] db2]; [|discriminate].
  unfold ret. simpl. rewrite first_map.
  destruct (first _); [|discriminate]. simpl. now intros [= <-].
Qed.

(** X20: the status route validates before it stores.  A body whose status
    is not one of the six valid strings (missing, not a string, another
    string) is answered 400 and the store is not touched.  A 200 answer
    carries a box whose status is the status sent and is valid, and in
    memory that box is the stored one: no invalid status enters the store
    through [PATCH /api/boxes/:id/status]. *)
Theorem X20_status_route_never_stores_an_invalid_status
    (id : Z) (status : Js.value) (now tAct : Z)
    (this : MemStorage.t) (db : Database) :
  ((forall s, status = Js.Str s -> ~ Spec.valid_status s) ->
   Routes.patchStatus_mem (Some id) status now tAct this
   = (Routes.BoxMessage 400 "Invalid status data", this)
   /\ Routes.patchStatus_db (Some id) status now tAct db
      = (Routes.BoxMessage 400 "Invalid status data", db))
  /\ (forall box this',
         Routes.patchStatus_mem (Some id) status now tAct this
         = (Routes.BoxJson 200 box, this') ->
         Spec.valid_status (Box.status box)
         /\ status = Js.Str (Box.status box)
         /\ MemStorage.getBox id this' = Some box)
  /\ (forall row db',
         Routes.patchStatus_db (Some id) status now tAct db
         = (Routes.BoxJson 200 row, db') ->
         Spec.valid_status (Box.status row)
         /\ status = Js.Str (Box.status row)).
Proof.
  split; [|split].
  - intros Hno. unfold Routes.patchStatus_mem, Routes.patchStatus_db.
    now rewrite (statusEnum_None status Hno).
  - intros box this'. unfold Routes.patchStatus_mem.
    destruct (Routes.statusEnum status) as [s|] eqn:E; [|discriminate].
    apply statusEnum_Some in E as [-> Hv].
    pose proof (mem_updateBoxStatus_returns id s now tAct this) as Hret.
    destruct (MemStorage.updateBoxStatus id s now tAct this) as [[b|] st];
      [|discriminate].
    intros [= <- <-]. destruct (Hret b eq_refl) as [Hs Hg].
    simpl in Hg. rewrite Hs. auto.
  - intros row db'. unfold Routes.patchStatus_db.
    destruct (Routes.statusEnum status) as [s|] eqn:E; [|discriminate].
    apply statusEnum_Some in E as [-> Hv].
    pose proof (db_updateBoxStatus_returns id s now tAct db) as Hret.
    destruct (updateBoxStatus id s now tAct db) as [[[b|]|e] st];
      try discriminate.
    intros [= <- <-]. rewrite (Hret b eq_refl). auto.
Qed.

Lemma X20_witness :
  Routes.patchStatus_mem (Some 1) (Js.Str "lost") 2000 2000 Example.mem1
  = (Routes.BoxMessage 400 "Invalid status data", Example.mem1)
  /\ Routes.patchStatus_db (Some 1) Js.Null 2000 2000 Example.db1
     = (Routes.BoxMessage 400 "Invalid status data", Example.db1)
  /\ exists box this',
       Routes.patchStatus_mem (Some 1) (Js.Str "staging") 2000 2000 Example.mem1
       = (Routes.BoxJson 200 box, this')
       /\ Spec.valid_status (Box.status box).
Proof.
  destruct (X20_status_route_never_stores_an_invalid_status 1 (Js.Str "lost")
              2000 2000 Example.mem1 Example.db1) as (Hbad & _).
  destruct (X20_status_route_never_stores_an_invalid_status 1 Js.Null
              2000 2000 Example.mem1 Example.db1) as (Hnull & _).
  destruct (X20_status_route_never_stores_an_invalid_status 1 (Js.Str "staging")
              2000 2000 Example.mem1 Example.db1) as (_ & Hok & _).
  split; [|split].
  - apply Hbad. intros s [= <-]. unfold Spec.valid_status.
    intuition discriminate.
  - apply Hnull. intros s H. discriminate H.
  - eexists. eexists. split; [reflexivity|].
    exact (proj1 (Hok _ _ eq_refl)).
Defined.

Lemma depthEnum_Some v d :
  Routes.depthEnum v = Some d -> v = Js.Str (BoxPosition.depth_str d).
Proof.
  unfold Routes.depthEnum. destruct v as [| |s|n|b]; try discriminate.
  repeat match goal with
         | |- context [String.eqb s ?c] => destruct (String.eqb_spec s c); subst
         end; intros [= <-]; reflexivity.
Qed.

Lemma horizontalEnum_Some v h :
  Routes.horizontalEnum v = Some h -> v = Js.Str (BoxPosition.horizontal_str h).
Proof.
  unfold Routes.horizontalEnum. destruct v as [| |s|n|b]; try discriminate.
  repeat match goal with
         | |- context [String.eqb s ?c] => destruct (String.eqb_spec s c); subst
         end; intros [= <-]; reflexivity.
Qed.

Lemma verticalEnum_Some v x :
  Routes.verticalEnum v = Some x -> v = Js.Str (BoxPosition.vertical_str x).
Proof.
  unfold Routes.verticalEnum. destruct v as [| |s|n|b]; try discriminate.
  repeat match goal with
         | |- context [String.eqb s ?c] => destruct (String.eqb_spec s c); subst
         end; intros [= <-]; reflexivity.
Qed.

Lemma positionSchema_Some depth horizontal vertical status position optStatus :
  Routes.positionSchema depth horizontal vertical status
  = Some (position, optStatus) ->
  depth = Js.Str (BoxPosition.depth_str (BoxPosition.depth position))
  /\ horizontal
     = Js.Str (BoxPosition.horizontal_str (BoxPosition.horizontal position))
  /\ vertical
     = Js.Str (BoxPosition.vertical_str (BoxPosition.vertical position))
  /\ match optStatus with
     | Some s => status = Js.Str s /\ Spec.valid_status s
     | None => status = Js.Undefined
     end.
Proof.
  unfold Routes.positionSchema.
  destruct (Routes.depthEnum depth) as [d|] eqn:Ed; [|discriminate].
  destruct (Routes.horizontalEnum horizontal) as [h|] eqn:Eh; [|discriminate].
  destruct (Routes.verticalEnum vertical) as [v|] eqn:Ev; [|discriminate].
  apply depthEnum_Some in Ed. apply horizontalEnum_Some in Eh.
  apply verticalEnum_Some in Ev.
  assert (forall st,
             match Routes.statusEnum st with
             | Some s => Some (BoxPosition.mk d h v, Some s)
             | None => None
             end = Some (position, optStatus) ->
             position = BoxPosition.mk d h v
             /\ exists s, optStatus = Some s /\ st = Js.Str s
                          /\ Spec.valid_status s) as Hst.
  { intros st. destruct (Routes.statusEnum st) as [s|] eqn:Es; [|discriminate].
    apply statusEnum_Some in Es as [-> Hv]. intros [= <- <-]. eauto. }
  destruct status as [| |s|n|b];
    try (intros H; apply Hst in H as (-> & s' & -> & E & Hv); simpl; auto).
  intros [= <- <-]. simpl. auto.
Qed.

Lemma valid_truthy s : Spec.valid_status s -> Js.truthy_string s = true.
Proof. unfold Spec.valid_status. intuition (subst; reflexivity). Qed.

Lemma mem_updateBoxPosition_returns id position optStatus now tAct this box :
  fst (MemStorage.updateBoxPosition id position optStatus now tAct this)
  = Some box ->
  Box.position box = Some position
  /\ (forall s, optStatus = Some s -> Js.truthy_string s = true ->
                Box.status box = s).
Proof.
  unfold MemStorage.updateBoxPosition.
  destruct (JsMap.get id (MemStorage.boxes this)); [|discriminate].
  simpl. intros [= <-]. simpl. split; [reflexivity|].
  intros s -> Ht. now rewrite Ht.
Qed.

Lemma db_updateBoxPosition_returns id position optStatus now tAct db row :
  fst (updateBoxPosition id position optStatus now tAct db) = Ok (Some row) ->
  Box.position row = Some position
  /\ (forall s, optStatus = Some s -> Js.truthy_string s = true ->
                Box.status row = s).
Proof.
  unfold updateBoxPosition. unfold bind at 1. rewrite getBox_eval.
  destruct (int4 id) eqn:Hfit; [|discriminate].
  destruct (first _) as [box|]; [|discriminate].
  unfold bind at 1. unfold update_boxes. rewrite bound_one, Hfit.
  unfold bind at 1.
  destruct (createActivity _ _ _) as [[a|e] db2]; [|discriminate].
  unfold ret. simpl. rewrite first_map.
  destruct (first _); [|discriminate]. simpl. intros [= <-]. simpl.
  split; [reflexivity|]. intros s -> Ht. now rewrite Ht.
Qed.

(** X21: the position route validates before it stores.  A body with a
    status that is present and not one of the six valid strings is
    answered 400 with the store untouched.  A 200 answer carries a box
    whose position is the cell named by the three strings of the body,
    and whose status is the status of the body when the body has one: a
    status accepted by [PATCH /api/boxes/:id/position] is always stored. *)
Theorem X21_position_route_stores_what_it_accepts
    (id : Z) (depth horizontal vertical status : Js.value) (now tAct : Z)
    (this : MemStorage.t) (db : Database) :
  (status <> Js.Undefined ->
   (forall s, status = Js.Str s -> ~ Spec.valid_status s) ->
   Routes.patchPosition_mem (Some id) depth horizontal vertical status
     now tAct this
   = (Routes.BoxMessage 400 "Invalid position data", this)
   /\ Routes.patchPosition_db (Some id) depth horizontal vertical status
        now tAct db
      = (Routes.BoxMessage 400 "Invalid position data", db))
  /\ (forall box st,
         (Routes.patchPosition_mem (Some id) depth horizontal vertical status
            now tAct this = (Routes.BoxJson 200 box, st)
          \/ exists db', 
               Routes.patchPosition_db (Some id) depth horizontal vertical
                 status now tAct db = (Routes.BoxJson 200 box, db')) ->
         exists position,
           Box.position box = Some position
           /\ depth = Js.Str (BoxPosition.depth_str (BoxPosition.depth position))
           /\ horizontal
              = Js.Str
                  (BoxPosition.horizontal_str (BoxPosition.horizontal position))
           /\ vertical
              = Js.Str (BoxPosition.vertical_str (BoxPosition.vertical position))
           /\ forall s, status = Js.Str s -> Box.status box = s).
Proof.
  split.
  - intros Hpresent Hno.
    assert (Routes.positionSchema depth horizontal vertical status = None)
      as E.
    { unfold Routes.positionSchema.
      destruct (Routes.depthEnum depth); [|reflexivity].
      destruct (Routes.horizontalEnum horizontal); [|reflexivity].
      destruct (Routes.verticalEnum vertical); [|reflexivity].
      rewrite (statusEnum_None status Hno).
      now destruct status. }
    unfold Routes.patchPosition_mem, Routes.patchPosition_db. now rewrite E.
  - intros box st Hreply.
    unfold Routes.patchPosition_mem, Routes.patchPosition_db in Hreply.
    destruct (Routes.positionSchema depth horizontal vertical status)
      as [[position optStatus]|] eqn:E;
      [|destruct Hreply as [H|[db' H]]; discriminate H].
    apply positionSchema_Some in E as (Hd & Hh & Hv & Hs).
    assert (Box.position box = Some position
            /\ (forall s, optStatus = Some s -> Js.truthy_string s = true ->
                          Box.status box = s)) as [Hp Hst].
    { destruct Hreply as [H|[db' H]].
      - pose proof (mem_updateBoxPosition_returns id position optStatus now
                      tAct this) as Hret.
        destruct (MemStorage.updateBoxPosition id position optStatus now tAct
                    this) as [[b|] s0]; [|discriminate].
        injection H as <- _. now apply Hret.
      - pose proof (db_updateBoxPosition_returns id position optStatus now
                      tAct db) as Hret.
        destruct (updateBoxPosition id position optStatus now tAct db)
          as [[[b|]|e] s0]; try discriminate.
        injection H as <- _. now apply Hret. }
    exists position. repeat (split; [assumption|]).
    intros s ->. destruct optStatus as [s'|].
    + destruct Hs as [[= <-] Hvalid]. apply Hst; [reflexivity|].
      now apply valid_truthy.
    + discriminate.
Qed.

Lemma X21_witness :
  Routes.patchPosition_mem (Some 1) (Js.Str "front") (Js.Str "left")
    (Js.Str "high") (Js.Str "") 2000 2000 Example.mem1
  = (Routes.BoxMessage 400 "Invalid position data", Example.mem1)
  /\ exists box st,
       Routes.patchPosition_mem (Some 1) (Js.Str "front") (Js.Str "left")
         (Js.Str "high") (Js.Str "loaded") 2000 2000 Example.mem1
       = (Routes.BoxJson 200 box, st)
       /\ Box.status box = "loaded"
       /\ Box.position box = Some Example.front_left_high.
Proof.
  destruct (X21_position_route_stores_what_it_accepts 1 (Js.Str "front")
              (Js.Str "left") (Js.Str "high") (Js.Str "") 2000 2000
              Example.mem1 Example.db1) as (Hbad & _).
  destruct (X21_position_route_stores_what_it_accepts 1 (Js.Str "front")
              (Js.Str "left") (Js.Str "high") (Js.Str "loaded") 2000 2000
              Example.mem1 Example.db1) as (_ & Hok).
  split.
  - apply Hbad; [discriminate|]. intros s [= <-]. unfold Spec.valid_status.
    intuition discriminate.
  - eexists. eexists. split; [reflexivity|].
    destruct (Hok _ _ (or_introl eq_refl)) as (p & Hp & _ & _ & _ & Hs).
    split; [now apply Hs | reflexivity].
Defined.

End PatchRoutes.
